(** * braingain: the completion drivers and the chat handler

    A shallow embedding of the Go sources

    - [anthropic.Completion] and [anthropic.invokeRequest]
      (package anthropic, the Bedrock/Claude adapter with its tool loop),
    - [vertex.Completion] (package vertex, the Gemini adapter),
    - [chat.PostMessage] (package chat, the gRPC handler with the
      [get_sources] tool),
    - [MigratePayments], [MigrateOpenaiUsage], [MigrateCollections],
      [MigrateChatMessages] and [MigrateDocuments] (package migration),

    together with the properties of the completion core that the
    specification states about them, and further properties that the
    code has.

    Go functions that return [(value, error)] become computations in a
    small state-and-error monad [M].  The state is the history of the
    calls made to external services (the vendor APIs, the datastore, the
    retrieval service) and of the tool handlers run; services answer as
    a function of that history, which is the most general deterministic
    environment. *)

From Stdlib Require Import ZArith String Ascii List Bool Lia Permutation Sorted.
From stdpp Require Import base option list gmap strings.

Local Open Scope string_scope.
Local Open Scope list_scope.
Local Open Scope Z_scope.

(** ** Go values *)

(** An [error] value, by its message ([errors.New], [fmt.Errorf], or the
    [Error()] text of an error of a library). *)
Definition error : Type := string.

(** The outcome of a call to a Go function of type [(A, error)]:
    [Ok a] is [return a, nil], [Err e] is [return nil, e], and [Panic]
    is a run-time panic (index out of range, nil dereference). *)
Inductive result (A : Type) : Type :=
| Ok (a : A)
| Err (e : error)
| Panic.

Arguments Ok {A} a.
Arguments Err {A} e.
Arguments Panic {A}.

Definition is_Ok {A} (r : result A) : bool :=
  match r with Ok _ => true | _ => false end.

Definition is_Err {A} (r : result A) : bool :=
  match r with Err _ => true | _ => false end.

(** Go's [int] on the 64-bit targets: a two's complement integer that
    wraps around. *)
Definition int : Type := Z.

Definition int_max : Z := 2 ^ 63 - 1.

Definition wrap_int (z : Z) : int := (z + 2 ^ 63) mod 2 ^ 64 - 2 ^ 63.

(** [a + b] and [a += b] on [int]. *)
Definition int_add (a b : int) : int := wrap_int (a + b).

(** [int(x)] for [x : int32]: the value is kept. *)
Definition int_of_int32 (x : Z) : int := x.

(** The values decoded from JSON into [interface{}]. *)
#[warnings="-register-all"]
Inductive any : Type :=
| any_nil
| any_bool (b : bool)
| any_number (float64_bits : Z)
| any_string (s : string)
| any_array (l : list any)
| any_object (fields : list (string * any)).

(** [v.(string)] with the comma-ok form; a key that is absent from a
    map reads as the nil interface, for which the assertion fails. *)
Definition assert_string (v : option any) : option string :=
  match v with
  | Some (any_string s) => Some s
  | _ => None
  end.

(** A string given by its bytes. *)
Definition bytes (l : list nat) : string :=
  fold_right (fun n s => String (ascii_of_nat n) s) EmptyString l.

(** *** [strings.TrimSpace] and [strings.CutPrefix]

    Both are functions of Go's standard library.  [TrimSpace] removes
    the leading and the trailing white space, as Unicode defines it
    ([unicode.IsSpace]), from a UTF-8 string: the six ASCII characters
    tab, line feed, vertical tab, form feed, carriage return and space,
    and U+0085, U+00A0, U+1680, U+2000 to U+200A, U+2028, U+2029, U+202F,
    U+205F and U+3000.  A byte sequence that is not one of their
    encodings decodes to another rune or to [RuneError], neither of
    which is white space. *)

Definition ascii_space (c : ascii) : bool :=
  let n := nat_of_ascii c in
  ((9 <=? n) && (n <=? 13) || (n =? 32))%nat.

(** The two-byte encodings [C2 85] and [C2 A0]. *)
Definition space2 (c1 c2 : ascii) : bool :=
  let a := nat_of_ascii c1 in
  let b := nat_of_ascii c2 in
  ((a =? 194) && ((b =? 133) || (b =? 160)))%nat.

(** The three-byte encodings [E1 9A 80], [E2 80 80..8A], [E2 80 A8],
    [E2 80 A9], [E2 80 AF], [E2 81 9F] and [E3 80 80]. *)
Definition space3 (c1 c2 c3 : ascii) : bool :=
  let a := nat_of_ascii c1 in
  let b := nat_of_ascii c2 in
  let c := nat_of_ascii c3 in
  ((a =? 225) && (b =? 154) && (c =? 128)
   || (a =? 226) && (b =? 128)
      && ((128 <=? c) && (c <=? 138) || (c =? 168) || (c =? 169) || (c =? 175))
   || (a =? 226) && (b =? 129) && (c =? 159)
   || (a =? 227) && (b =? 128) && (c =? 128))%nat.

(** [strings.TrimLeftFunc(s, unicode.IsSpace)] *)
Fixpoint TrimLeftSpace (s : string) : string :=
  match s with
  | EmptyString => EmptyString
  | String c1 s1 =>
      if ascii_space c1 then TrimLeftSpace s1
      else
        match s1 with
        | String c2 s2 =>
            if space2 c1 c2 then TrimLeftSpace s2
            else
              match s2 with
              | String c3 s3 =>
                  if space3 c1 c2 c3 then TrimLeftSpace s3 else s
              | EmptyString => s
              end
        | EmptyString => s
        end
  end.

(** The same from the end of the string, on the reversed bytes: the
    last rune is white space exactly when the string ends with one of
    the encodings. *)
Fixpoint trim_left_rev (l : list ascii) : list ascii :=
  match l with
  | [] => []
  | c1 :: l1 =>
      if ascii_space c1 then trim_left_rev l1
      else
        match l1 with
        | c2 :: l2 =>
            if space2 c2 c1 then trim_left_rev l2
            else
              match l2 with
              | c3 :: l3 =>
                  if space3 c3 c2 c1 then trim_left_rev l3 else l
              | [] => l
              end
        | [] => l
        end
  end.

(** [strings.TrimRightFunc(s, unicode.IsSpace)] *)
Definition TrimRightSpace (s : string) : string :=
  string_of_list_ascii (rev (trim_left_rev (rev (list_ascii_of_string s)))).

Definition TrimSpace (s : string) : string :=
  TrimRightSpace (TrimLeftSpace s).

(** [strings.CutPrefix(s, prefix)]: [s] without the leading [prefix]
    and [true], or [s] and [false]. *)
Fixpoint CutPrefix (s prefix : string) {struct prefix} : string * bool :=
  match prefix with
  | EmptyString => (s, true)
  | String p prefix' =>
      match s with
      | String c s' =>
          if Ascii.eqb c p then
            let '(r, found) := CutPrefix s' prefix' in
            if found then (r, true) else (s, false)
          else (s, false)
      | EmptyString => (s, false)
      end
  end.


(** Opaque scalars that the code only copies. *)
Definition float32 : Type := Z.          (* by its IEEE 754 bits *)
Definition Body : Type := list Byte.byte. (* a []byte payload *)
Definition UUID : Type := list Byte.byte. (* uuid.UUID, 16 bytes *)
Definition Time : Type := Z.              (* time.Time *)

(** ** The state-and-error monad

    A computation reads the history [tr] of the events so far and
    returns its outcome together with the events that it caused, in
    order.  The events are kept when the outcome is an error or a panic,
    so that what happened before a failure can be stated. *)
Definition M (E A : Type) : Type := list E -> result A * list E.

Definition ret {E A} (a : A) : M E A := fun _ => (Ok a, []).

Definition fail {E A} (e : error) : M E A := fun _ => (Err e, []).

Definition panic {E A} : M E A := fun _ => (Panic, []).

Definition bind {E A B} (c : M E A) (k : A -> M E B) : M E B :=
  fun tr =>
    match c tr with
    | (Ok a, evs) => let '(r, evs') := k a (tr ++ evs) in (r, evs ++ evs')
    | (Err e, evs) => (Err e, evs)
    | (Panic, evs) => (Panic, evs)
    end.

(** A pure step that may fail: [v, err := f(x); if err != nil { return nil, err }]. *)
Definition lift {E A} (r : result A) : M E A := fun _ => (r, []).

Declare Scope go_scope.
Delimit Scope go_scope with go.
Notation "'do' x <- c ; k" := (bind c (fun x => k))
  (at level 10, x name, c at level 100, k at level 200) : go_scope.
Local Open Scope go_scope.

(** ** Package llm

    The declarations of [CompletionRequest], [CompletionResponse],
    [Message], [ModelUsage] and [ToolDefinition] that the adapters and
    the handler compile against are not among the sources; the records
    below have the fields that [Completion] and [PostMessage] read and
    write, with the types their uses force. *)
Module llm.

Record Message : Type := {
  Role : string;
  Content : string;
}.

Record ModelUsage : Type := {
  UserId : string;
  Model : string;
  InputTokens : int;
  OutputTokens : int;
}.

Record ParametersProperties : Type := {
  PropType : string;
  PropDescription : string;
}.

Record ToolParameters : Type := {
  ParamType : string;
  Properties : gmap string ParametersProperties;
  Required : list string;
}.

(** [*CompletionResponse]: [Message] is a pointer and stays nil when
    it is not set, [Messages] is a slice and stays empty. *)
Record CompletionResponse : Type := {
  RespMessage : option Message;
  RespMessages : list Message;
  Usage : ModelUsage;
}.

Section Tools.
Context {E : Type}.

(** [type FunctionCall func(ctx, map[string]interface{}) (string, error)] *)
Definition FunctionCall : Type := gmap string any -> M E string.

Record ToolDefinition : Type := {
  Name : string;
  Description : string;
  Parameters : ToolParameters;
  Call : FunctionCall;
}.

Record CompletionRequest : Type := {
  SystemPrompt : string;
  Messages : list Message;
  ReqModel : string;
  MaxTokens : int;
  TopP : float32;
  Temperature : float32;
  ReqUserId : string;
  Tools : list ToolDefinition;
}.
End Tools.

Arguments ToolDefinition : clear implicits.
Arguments CompletionRequest : clear implicits.
Arguments FunctionCall : clear implicits.

End llm.

(** ** The libraries and packages around the core

    Types of the Vertex AI SDK ([genai]), of the retrieval service
    ([search]), of the datastore and of the protocol messages ([pb]),
    with the fields the sources use. *)
Module genai.

Inductive Part : Type :=
| Text (s : string)
| FunctionCall (Name : string) (Args : gmap string any)
| FunctionResponse (Name : string) (Response : gmap string any)
| Blob (MIMEType : string) (Data : Body)
| FileData (MIMEType : string) (FileURI : string).

Record Content : Type := {
  Role : string;
  Parts : list Part;
}.

(** [Candidate.Content] is a [*Content]. *)
Record Candidate : Type := {
  CandContent : option Content;
}.

Record UsageMetadata : Type := {
  PromptTokenCount : Z;      (* int32 *)
  CandidatesTokenCount : Z;  (* int32 *)
}.

(** [UsageMetadata] is a pointer, nil when the vendor sends none. *)
Record GenerateContentResponse : Type := {
  Candidates : list Candidate;
  RespUsageMetadata : option UsageMetadata;
}.

(** The settings of a [*GenerativeModel] that [Completion] fills in. *)
Record GenerativeModel : Type := {
  ModelName : string;
  TopP : float32;
  Temperature : float32;
  MaxOutputTokens : Z;       (* int32 *)
  SystemInstruction : Content;
  Tools : list any;
}.

End genai.

Module search.

Record Result : Type := {
  Id : string;
  DocumentId : string;
  Content : string;
  Score : float32;
  Position : N;              (* uint32 *)
}.

Record Query : Type := {
  UserId : string;
  CollectionId : string;
  QueryText : string;
  Limit : N;
  Threshold : float32;
}.

Record Usage : Type := {
  ModelId : string;
  Tokens : int;
}.

Record Response : Type := {
  Results : list Result;
  RespUsage : Usage;
}.

End search.

Module datastore.

Record Thread : Type := {
  Id : UUID;
  UserId : string;
  CollectionId : UUID;
  Timestamp : Time;
  Messages : list llm.Message;
}.

Record ModelUsage : Type := {
  UsageId : UUID;
  UsageUserId : string;
  UsageTimestamp : Time;
  ModelId : string;
  InputTokens : int;
  OutputTokens : int;
}.

End datastore.

Module pb.

Record ModelOptions : Type := {
  ModelId : string;
  MaxTokens : N;             (* uint32 *)
  TopP : float32;
  Temperature : float32;
}.

Record RetrievalOptions : Type := {
  Documents : N;             (* uint32 *)
  Threshold : float32;
}.

(** [GetModelOptions] and [GetRetrievalOptions] return the pointer
    fields, nil when the message has none. *)
Record Prompt : Type := {
  ThreadId : string;
  CollectionId : string;
  PromptText : string;
  GetModelOptions : option ModelOptions;
  GetRetrievalOptions : option RetrievalOptions;
}.

Record Source : Type := {
  DocumentId : string;
  Name : string;
  Chunks : list search.Result;
}.

Record Message : Type := {
  MsgThreadId : string;
  MsgPrompt : string;
  Completion : string;
  Sources : list Source;
}.

End pb.

(** ** Events: the calls that leave the process, and the calls of handlers

    An adapter records the run of a tool handler as one [EvTool], and
    the chat handler records the run of a completion as one
    [EvCompletion]; the events that the callee caused are inside, so
    that the events of a caller are its own calls, in order. *)
#[warnings="-register-all"]
Inductive event : Type :=
| EvInvokeModel (modelId : string) (body : Body) (out : result Body)
| EvSendMessage (model : genai.GenerativeModel) (history : list genai.Content)
    (parts : list genai.Part) (out : result genai.GenerateContentResponse)
| EvTool (name : string) (input : gmap string any) (inner : list event)
    (out : result string)
| EvCompletion (inner : list event) (out : result (option llm.CompletionResponse))
| EvVerifyFunding (out : result string)
| EvGetThread (userId : string) (threadId : UUID) (out : result datastore.Thread)
| EvStoreThread (thread : datastore.Thread) (err : option error)
| EvInsertModelUsage (usage : datastore.ModelUsage) (err : option error)
| EvGetDocumentName (userId : string) (docId : UUID) (out : result string)
| EvSearch (query : search.Query) (out : result search.Response)
| EvUuidNew (id : UUID)
| EvTimeNow (t : Time).

Abbreviation Go := (M event).

(** A call to a service: the service answers from the history, and the
    call is recorded with its answer. *)
Definition call {A} (answer : list event -> A) (record : A -> event) : Go A :=
  fun tr => let a := answer tr in (Ok a, [record a]).

(** The same for a service that returns [(A, error)]. *)
Definition call_result {A} (answer : list event -> result A)
    (record : result A -> event) : Go A :=
  fun tr => let r := answer tr in (r, [record r]).

(** The adapter runs a tool handler. *)
Definition call_tool (name : string) (handler : llm.FunctionCall event)
    (input : gmap string any) : Go string :=
  fun tr => let '(r, inner) := handler input tr in (r, [EvTool name input inner r]).

Module bedrockruntime.

(** [InvokeModel(ctx, &InvokeModelInput{ModelId, Body, ...})], by the
    body of its output. *)
Record Client : Type := {
  InvokeModel : list event -> string -> Body -> result Body;
}.

End bedrockruntime.

(** ** Package anthropic *)
Module anthropic.

(** The wire types [Content], [ClaudeMessage], [ClaudeRequest] and
    [ClaudeResponse] are declared outside the sources at hand; the
    records have the fields that [Completion] uses.  In [Content] the
    field [Type] is [Typ] here and the field [Content] (the payload of
    a tool result) is [Result]; the field [Content] of a message and
    of a response is [Blocks]. *)
Record Content : Type := {
  Typ : string;
  Text : string;
  ID : string;
  Name : string;
  Input : gmap string any;
  ToolUseId : string;
  Result : string;
}.

Record ClaudeMessage : Type := {
  Role : string;
  MsgBlocks : list Content;
}.

Record ClaudeRequest : Type := {
  AnthropicVersion : string;
  Messages : list ClaudeMessage;
  System : string;
  MaxTokens : int;
  TopP : float32;
  Temperature : float32;
  Tools : list any;
}.

Record Usage : Type := {
  InputTokens : int;
  OutputTokens : int;
}.

Record ClaudeResponse : Type := {
  Model : string;
  RespUsage : Usage;
  StopReason : string;
  Blocks : list Content;
}.

(** The constants and functions that the package declares outside the
    sources at hand, and the JSON codec of the wire types. *)
Record Package : Type := {
  ContentTypeToolUse : string;
  ContentTypeToolResult : string;
  ChatMessageRoleAssistant : string;
  ChatMessageRoleUser : string;
  RoleAssistant : string;   (* llm.RoleAssistant *)
  transformMessages : list llm.Message -> result (list ClaudeMessage);
  transformTools : list (llm.ToolDefinition event) -> list any;
  json_Marshal : ClaudeRequest -> Body;
  json_Unmarshal : Body -> result ClaudeResponse;
}.

Record Client : Type := {
  bedrock : bedrockruntime.Client;
}.

(** The variables of [Completion] that the tool loop updates. *)
Record LoopState : Type := {
  request : ClaudeRequest;
  response : ClaudeResponse;
  usage : llm.ModelUsage;
  loops : int;
}.

Section Completion.
Variable pkg : Package.
Variable client : Client.

(** [func (client *Client) invokeRequest(model string, req *ClaudeRequest)].
    The error of [json.Marshal] is dropped by the source. *)
Definition invokeRequest (model : string) (req : ClaudeRequest) : Go ClaudeResponse :=
  let body := json_Marshal pkg req in
  do result <- call_result
       (fun tr => bedrockruntime.InvokeModel (bedrock client) tr model body)
       (EvInvokeModel model body);
  lift (json_Unmarshal pkg result).

(** [tools := make(map[string]llm.FunctionCall)] filled from
    [req.Tools] in order, a later definition replacing an earlier
    one of the same name. *)
Definition tools_of (defs : list (llm.ToolDefinition event))
    : gmap string (llm.FunctionCall event) :=
  foldl (fun m tool => <[llm.Name tool := llm.Call tool]> m) ∅ defs.

Definition append_message (req : ClaudeRequest) (m : ClaudeMessage) : ClaudeRequest :=
  {| AnthropicVersion := AnthropicVersion req;
     Messages := Messages req ++ [m];
     System := System req;
     MaxTokens := MaxTokens req;
     TopP := TopP req;
     Temperature := Temperature req;
     Tools := Tools req |}.

Definition tool_result_message (message : Content) (result : string) : ClaudeMessage :=
  {| Role := ChatMessageRoleUser pkg;
     MsgBlocks := [ {| Typ := ContentTypeToolResult pkg;
                       Text := "";
                       ID := "";
                       Name := "";
                       Input := ∅;
                       ToolUseId := ID message;
                       Result := result |} ] |}.

(** [for _, message := range response.Content { ... }] *)
Fixpoint run_tools (tools : gmap string (llm.FunctionCall event))
    (content : list Content) (req : ClaudeRequest) : Go ClaudeRequest :=
  match content with
  | [] => ret req
  | message :: content' =>
      if String.eqb (Typ message) (ContentTypeToolUse pkg) then
        match tools !! Name message with
        | None => fail ("unknown tool " ++ Name message)%string
        | Some callTool =>
            do result <- call_tool (Name message) callTool (Input message);
            run_tools tools content'
              (append_message req (tool_result_message message result))
        end
      else run_tools tools content' req
  end.

Definition add_usage (usage : llm.ModelUsage) (u : Usage) : llm.ModelUsage :=
  {| llm.UserId := llm.UserId usage;
     llm.Model := llm.Model usage;
     llm.InputTokens := int_add (llm.InputTokens usage) (InputTokens u);
     llm.OutputTokens := int_add (llm.OutputTokens usage) (OutputTokens u) |}.

(** [response.StopReason == ContentTypeToolUse && loops < 6] *)
Definition loop_cond (st : LoopState) : bool :=
  String.eqb (StopReason (response st)) (ContentTypeToolUse pkg)
  && (loops st <? 6).

(** One pass through the body of the [for] loop.  [loops++] does
    not wrap around: the guard keeps [loops] below 6. *)
Definition loop_body (tools : gmap string (llm.FunctionCall event))
    (model : string) (st : LoopState) : Go LoopState :=
  let req1 :=
    append_message (request st)
      {| Role := ChatMessageRoleAssistant pkg;
         MsgBlocks := Blocks (response st) |} in
  do req2 <- run_tools tools (Blocks (response st)) req1;
  do response' <- invokeRequest model req2;
  ret {| request := req2;
         response := response';
         usage := add_usage (usage st) (RespUsage response');
         loops := loops st + 1 |}.

(** The first [n] passes of the loop, fewer when the guard fails
    earlier.  [loops] starts at 0 and the guard asks [loops < 6], so
    six passes are all there are ([for_loop_enough] below). *)
Fixpoint for_loop (n : nat) (tools : gmap string (llm.FunctionCall event))
    (model : string) (st : LoopState) : Go LoopState :=
  match n with
  | O => ret st
  | S n' =>
      if loop_cond st then
        do st' <- loop_body tools model st;
        for_loop n' tools model st'
      else ret st
  end.

(** [Completion] up to the loop: the request, the first round trip
    and the variables of the loop. *)
Definition first_turn (req : llm.CompletionRequest event) : Go LoopState :=
  do messages <- lift (transformMessages pkg (llm.Messages req));
  let toolList := transformTools pkg (llm.Tools req) in
  let request0 :=
    {| AnthropicVersion := "bedrock-2023-05-31";
       Messages := messages;
       System := llm.SystemPrompt req;
       MaxTokens := llm.MaxTokens req;
       TopP := llm.TopP req;
       Temperature := llm.Temperature req;
       Tools := toolList |} in
  do response0 <- invokeRequest (llm.ReqModel req) request0;
  let usage0 :=
    {| llm.UserId := llm.ReqUserId req;
       llm.Model := Model response0;
       llm.InputTokens := InputTokens (RespUsage response0);
       llm.OutputTokens := OutputTokens (RespUsage response0) |} in
  ret {| request := request0; response := response0;
         usage := usage0; loops := 0 |}.

(** [Completion] after the loop: [response.Content[0]] panics when
    the response has no content. *)
Definition reply (st : LoopState) : Go (option llm.CompletionResponse) :=
  match Blocks (response st) with
  | [] => panic
  | first :: _ =>
      ret (Some {| llm.RespMessage :=
                     Some {| llm.Role := RoleAssistant pkg;
                             llm.Content := TrimSpace (Text first) |};
                   llm.RespMessages := [];
                   llm.Usage := usage st |})
  end.

(** [func (client *Client) Completion(ctx, req)], which returns a
    pointer to an [llm.CompletionResponse] and an error; [Ok None]
    is [return nil, nil]. *)
Definition Completion (req : llm.CompletionRequest event)
    : Go (option llm.CompletionResponse) :=
  do st0 <- first_turn req;
  do st <- for_loop 6 (tools_of (llm.Tools req)) (llm.ReqModel req) st0;
  reply st.

End Completion.

End anthropic.

Module vertexai.

(** [SendMessage(ctx, parts...)] of a [genai.ChatSession], on a chat of a
    model with the given settings, whose [History] is the given one
    when the call is made. *)
Record Client : Type := {
  SendMessage : list event -> genai.GenerativeModel -> list genai.Content ->
                list genai.Part -> result genai.GenerateContentResponse;
}.

End vertexai.

(** [int32(x)] for [x : int]: the low 32 bits, signed. *)
Definition int32_of_int (z : int) : Z := (z + 2 ^ 31) mod 2 ^ 32 - 2 ^ 31.

(** [l[:len(l)-1]] and [l[len(l)-1]]; both panic on an empty slice. *)
Fixpoint split_last {A} (l : list A) : option (list A * A) :=
  match l with
  | [] => None
  | x :: l' =>
      match split_last l' with
      | None => Some ([], x)
      | Some (init, y) => Some (x :: init, y)
      end
  end.

(** ** Package vertex *)
Module vertex.

Definition RoleUser : string := "user".
Definition RoleModel : string := "model".

(** The constant [modelPrefix], the functions [transformToHistory],
    [client.callTool] and [client.getTools], which the package
    declares outside the sources at hand, [llm.RoleAssistant], and
    [json.Unmarshal] into a [map[string]interface{}]. *)
Record Package : Type := {
  modelPrefix : string;
  RoleAssistant : string;
  transformToHistory : list llm.Message -> result (list genai.Content);
  callTool : string -> llm.FunctionCall event;
  getTools : list any;
  json_Unmarshal : string -> result (gmap string any);
}.

Record Client : Type := {
  client : vertexai.Client;
}.

Section Completion.
Variable pkg : Package.
Variable c : Client.

Definition send (model : genai.GenerativeModel) (history : list genai.Content)
    (parts : list genai.Part) : Go genai.GenerateContentResponse :=
  call_result (fun tr => vertexai.SendMessage (client c) tr model history parts)
              (EvSendMessage model history parts).

(** [gen.Candidates[0].Content.Parts]: [None] when the expression
    panics (no candidate, or a nil [Content]). *)
Definition first_parts (gen : genai.GenerateContentResponse) : option (list genai.Part) :=
  match genai.Candidates gen with
  | [] => None
  | cand :: _ =>
      match genai.CandContent cand with
      | None => None
      | Some content => Some (genai.Parts content)
      end
  end.

(** [if gen.UsageMetadata != nil { usage.InputTokens += ...; usage.OutputTokens += ... }];
    on the first response the source assigns, to fields that are 0. *)
Definition add_usage (usage : llm.ModelUsage) (gen : genai.GenerateContentResponse)
    : llm.ModelUsage :=
  match genai.RespUsageMetadata gen with
  | None => usage
  | Some meta =>
      {| llm.UserId := llm.UserId usage;
         llm.Model := llm.Model usage;
         llm.InputTokens :=
           int_add (llm.InputTokens usage) (int_of_int32 (genai.PromptTokenCount meta));
         llm.OutputTokens :=
           int_add (llm.OutputTokens usage) (int_of_int32 (genai.CandidatesTokenCount meta)) |}
  end.

Definition set_usage (usage : llm.ModelUsage) (gen : genai.GenerateContentResponse)
    : llm.ModelUsage :=
  match genai.RespUsageMetadata gen with
  | None => usage
  | Some meta =>
      {| llm.UserId := llm.UserId usage;
         llm.Model := llm.Model usage;
         llm.InputTokens := int_of_int32 (genai.PromptTokenCount meta);
         llm.OutputTokens := int_of_int32 (genai.CandidatesTokenCount meta) |}
  end.

(** The end of [Completion], from [txt, ok := ...Parts[0].(genai.Text)]. *)
Definition finish (gen : genai.GenerateContentResponse) (usage : llm.ModelUsage)
    : Go (option llm.CompletionResponse) :=
  match first_parts gen with
  | None | Some [] => panic
  | Some (genai.Text txt :: _) =>
      ret (Some {| llm.RespMessage :=
                     Some {| llm.Role := RoleAssistant pkg; llm.Content := txt |};
                   llm.RespMessages := [];
                   llm.Usage := usage |})
  | Some (_ :: _) => ret None
  end.

(** [client.client.GenerativeModel(modelName)] with the settings
    that [Completion] assigns. *)
Definition generative_model (req : llm.CompletionRequest event) : genai.GenerativeModel :=
  let modelName := fst (CutPrefix (llm.ReqModel req) (modelPrefix pkg)) in
  let outputTokens := int32_of_int (llm.MaxTokens req) in
  {| genai.ModelName := modelName;
     genai.TopP := llm.TopP req;
     genai.Temperature := llm.Temperature req;
     genai.MaxOutputTokens := outputTokens;
     genai.SystemInstruction :=
       {| genai.Role := ""; genai.Parts := [genai.Text (llm.SystemPrompt req)] |};
     genai.Tools := getTools pkg |}.

(** [func (client *Client) Completion(ctx, req)]; [Ok None] is
    [return nil, nil]. *)
Definition Completion (req : llm.CompletionRequest event)
    : Go (option llm.CompletionResponse) :=
  match llm.Messages req with
  | [] => fail "no messages"
  | _ :: _ =>
      let modelName := fst (CutPrefix (llm.ReqModel req) (modelPrefix pkg)) in
      let model := generative_model req in
      do history <- lift (transformToHistory pkg (llm.Messages req));
      match split_last history with
      | None => panic                 (* history[:len(history)-1] *)
      | Some (init, last) =>
          do gen <- send model init (genai.Parts last);
          match genai.Candidates gen with
          | [] => ret None
          | _ :: _ =>
              match first_parts gen with
              | None => panic         (* nil Content of the first candidate *)
              | Some [] => ret None
              | Some (part :: _) =>
                  let usage :=
                    set_usage {| llm.UserId := llm.ReqUserId req;
                                 llm.Model := modelName;
                                 llm.InputTokens := 0;
                                 llm.OutputTokens := 0 |} gen in
                  match part with
                  | genai.FunctionCall name args =>
                      let history1 :=
                        history ++ [ {| genai.Role := RoleModel;
                                        genai.Parts := [genai.FunctionCall name args] |} ] in
                      do resultStr <- call_tool name (callTool pkg name) args;
                      do results <- lift (json_Unmarshal pkg resultStr);
                      let functionResults := genai.FunctionResponse name results in
                      do gen2 <- send model history1 [functionResults];
                      finish gen2 (add_usage usage gen2)
                  | _ => finish gen usage
                  end
              end
          end
      end
  end.

End Completion.

End vertex.

(** ** Functions of Go's libraries that [PostMessage] calls

    [sort.Slice(x, less)] sorts in place; the model returns the sorted
    slice.  Its documentation promises an ordering by [less] and, in so
    many words, no stability; what is assumed of it is stated in
    [sort_Slice_spec] below. *)
Record GoLib : Type := {
  uuid_Parse : string -> result UUID;
  uuid_String : UUID -> string;
  uuid_New : list event -> UUID;
  time_Now : list event -> Time;
  sort_Slice : forall A : Type, (A -> A -> bool) -> list A -> list A;
  json_Marshal_Sources : list search.Result -> result string;
}.

(** ** Package chat *)
Module chat.

(** An implementation of the interface [llm.Completion], as
    [service.getModel] returns it. *)
Definition Model : Type :=
  llm.CompletionRequest event -> Go (option llm.CompletionResponse).

(** The collaborators of the handler: [service.Auth],
    [service.Database], [service.Search], and the method
    [service.getModel] and the function [getSources], which the
    package declares outside the sources at hand. *)
Record Service : Type := {
  Auth_VerifyFunding : list event -> result string;
  Database_GetThread : list event -> string -> UUID -> result datastore.Thread;
  Database_StoreThread : list event -> datastore.Thread -> option error;
  Database_InsertModelUsage : list event -> datastore.ModelUsage -> option error;
  Database_GetDocumentName : list event -> string -> UUID -> result string;
  Search_Search : list event -> search.Query -> result search.Response;
  getModel : string -> result Model;
  getSources : list llm.Message -> list pb.Source;
  RoleUser : string;   (* llm.RoleUser *)
}.

Section PostMessage.
Variable lib : GoLib.
Variable service : Service.

(** [model.Completion(ctx, request)] *)
Definition call_model (model : Model) (request : llm.CompletionRequest event)
    : Go (option llm.CompletionResponse) :=
  fun tr => let '(r, inner) := model request tr in (r, [EvCompletion inner r]).

Definition uuid_new : Go UUID := call (uuid_New lib) EvUuidNew.
Definition time_now : Go Time := call (time_Now lib) EvTimeNow.

(** [service.Database.InsertModelUsage]; both callers drop its error. *)
Definition InsertModelUsage (usage : datastore.ModelUsage) : Go (option error) :=
  call (fun tr => Database_InsertModelUsage service tr usage) (EvInsertModelUsage usage).

(** [service.Database.StoreThread(ctx, thread)] with
    [if err != nil { return nil, err }]. *)
Definition StoreThread (thread : datastore.Thread) : Go unit :=
  do err <- call (fun tr => Database_StoreThread service tr thread) (EvStoreThread thread);
  match err with
  | Some e => fail e
  | None => ret tt
  end.

(** The [less] of the [sort.Slice] call: by document, then by position. *)
Definition less (a b : search.Result) : bool :=
  if negb (String.eqb (search.DocumentId a) (search.DocumentId b))
  then String.ltb (search.DocumentId a) (search.DocumentId b)
  else N.ltb (search.Position a) (search.Position b).

(** [// Group by document and sort by position] *)
Definition sort_sources (sources : list search.Result) : list search.Result :=
  sort_Slice lib search.Result less sources.

(** The [Call] of the tool [get_sources]. *)
Definition get_sources (userId : string) (prompt : pb.Prompt)
    (retrievalOptions : pb.RetrievalOptions) : llm.FunctionCall event :=
  fun parameters =>
    match assert_string (parameters !! "prompt") with
    | None => fail "prompt missing"
    | Some query =>
        do response <- call_result
             (fun tr => Search_Search service tr
                {| search.UserId := userId;
                   search.CollectionId := pb.CollectionId prompt;
                   search.QueryText := query;
                   search.Limit := pb.Documents retrievalOptions;
                   search.Threshold := pb.Threshold retrievalOptions |})
             (EvSearch
                {| search.UserId := userId;
                   search.CollectionId := pb.CollectionId prompt;
                   search.QueryText := query;
                   search.Limit := pb.Documents retrievalOptions;
                   search.Threshold := pb.Threshold retrievalOptions |});
        do id <- uuid_new;
        do now <- time_now;
        do _ <- InsertModelUsage
              {| datastore.UsageId := id;
                 datastore.UsageUserId := userId;
                 datastore.UsageTimestamp := now;
                 datastore.ModelId := search.ModelId (search.RespUsage response);
                 datastore.InputTokens := search.Tokens (search.RespUsage response);
                 datastore.OutputTokens := 0 |};
        let sources := sort_sources (search.Results response) in
        do byt <- lift (json_Marshal_Sources lib sources);
        ret byt
    end.

Definition get_sources_tool (userId : string) (prompt : pb.Prompt)
    (retrievalOptions : pb.RetrievalOptions) : llm.ToolDefinition event :=
  {| llm.Name := "get_sources";
     llm.Description := "Retrieves the sources for the prompt. The prompt should be optimized for embedding retrieval. The tool will return a list of sources in JSON format with the following fields: SourceID, Content.";
     llm.Parameters :=
       {| llm.ParamType := "object";
          llm.Properties :=
            {[ "prompt" :=
                 {| llm.PropType := "string";
                    llm.PropDescription := "The topic for which to retrieve sources. The prompt should be optimized for embedding retrieval." |} ]};
          llm.Required := ["prompt"] |};
     llm.Call := get_sources userId prompt retrievalOptions |}.

(** [for idx, source := range sources { ... sources[idx].Name = docName }] *)
Fixpoint name_sources (userId : string) (sources : list pb.Source) : Go (list pb.Source) :=
  match sources with
  | [] => ret []
  | source :: rest =>
      do source' <-
        match uuid_Parse lib (pb.DocumentId source) with
        | Ok docId =>
            do name <- call (fun tr => Database_GetDocumentName service tr userId docId)
                            (EvGetDocumentName userId docId);
            match name with
            | Ok docName =>
                ret {| pb.DocumentId := pb.DocumentId source;
                       pb.Name := docName;
                       pb.Chunks := pb.Chunks source |}
            | Err _ => ret source                  (* continue *)
            | Panic => panic
            end
        | Err _ => ret source                      (* continue *)
        | Panic => panic
        end;
      do rest' <- name_sources userId rest;
      ret (source' :: rest')
  end.

(** [thread.Messages[len(thread.Messages)-1].Content] *)
Definition last_content (messages : list llm.Message) : Go string :=
  match split_last messages with
  | None => panic
  | Some (_, m) => ret (llm.Content m)
  end.

(** [func (service *Service) PostMessage(ctx, prompt *pb.Prompt)].
    The calls of [log.Printf] are left out. *)
Definition PostMessage (prompt : pb.Prompt) : Go pb.Message :=
  do userId <- call_result (Auth_VerifyFunding service) EvVerifyFunding;
  do collectionId <-
    match uuid_Parse lib (pb.CollectionId prompt) with
    | Ok id => ret id
    | Err _ => fail "invalid collection id"
    | Panic => panic
    end;
  match pb.GetModelOptions prompt with
  | None => fail "options missing"
  | Some modelOps =>
  match pb.GetRetrievalOptions prompt with
  | None => fail "retrieval options missing"
  | Some retrievalOptions =>
      do model <- lift (getModel service (pb.ModelId modelOps));
      do thread <-
        (if negb (String.eqb (pb.ThreadId prompt) "") then
           do threadId <- lift (uuid_Parse lib (pb.ThreadId prompt));
           call_result (fun tr => Database_GetThread service tr userId threadId)
                       (EvGetThread userId threadId)
         else
           do id <- uuid_new;
           do now <- time_now;
           ret {| datastore.Id := id;
                  datastore.UserId := userId;
                  datastore.CollectionId := collectionId;
                  datastore.Timestamp := now;
                  datastore.Messages := [] |});
      let messages :=
        datastore.Messages thread
          ++ [ {| llm.Role := RoleUser service; llm.Content := pb.PromptText prompt |} ] in
      let request :=
        {| llm.SystemPrompt := "You are a scientific research assistant. Quote sources with \cite{document_id}.";
           llm.Messages := messages;
           llm.ReqModel := pb.ModelId modelOps;
           llm.MaxTokens := Z.of_N (pb.MaxTokens modelOps);
           llm.TopP := pb.TopP modelOps;
           llm.Temperature := pb.Temperature modelOps;
           llm.ReqUserId := userId;
           llm.Tools := [get_sources_tool userId prompt retrievalOptions] |} in
      do response <- call_model model request;
      match response with
      | None => panic                 (* response.Messages on a nil response *)
      | Some response =>
          let thread' :=
            {| datastore.Id := datastore.Id thread;
               datastore.UserId := datastore.UserId thread;
               datastore.CollectionId := datastore.CollectionId thread;
               datastore.Timestamp := datastore.Timestamp thread;
               datastore.Messages := llm.RespMessages response |} in
          do _ <- StoreThread thread';
          do id <- uuid_new;
          do now <- time_now;
          do _ <- InsertModelUsage
                {| datastore.UsageId := id;
                   datastore.UsageUserId := userId;
                   datastore.UsageTimestamp := now;
                   datastore.ModelId := pb.ModelId modelOps;
                   datastore.InputTokens := llm.InputTokens (llm.Usage response);
                   datastore.OutputTokens := llm.OutputTokens (llm.Usage response) |};
          do sources <- name_sources userId (getSources service (llm.RespMessages response));
          do completion <- last_content (datastore.Messages thread');
          ret {| pb.MsgThreadId := uuid_String lib (datastore.Id thread');
                 pb.MsgPrompt := pb.PromptText prompt;
                 pb.Completion := completion;
                 pb.Sources := sources |}
      end
  end
  end.

End PostMessage.

End chat.

(** ** Package migration

    The functions copy the rows of a table from the pool [from] to the
    pool [to], with the user of each row replaced by the user that
    [GetUserIdMapping] gives for it.  [log.Fatalln] and [log.Fatalf]
    end the process: the outcome [Err e] of a migration is that exit,
    with the error or the message that was logged.  The calls of
    [log.Printf] are left out. *)
Module migration.

(** An argument of a statement: a string or a [time.Time]. *)
Inductive value : Type :=
| VString (s : string)
| VTime (t : Time).

(** The statements that are run on the pool [to], with their outcome. *)
Inductive exec : Type :=
| EvExec (sql : string) (args : list value) (err : option error).

(** [strings.Replace(s, old, new, 1)], a function of Go's standard
    library: the first occurrence of [old] in [s] is replaced by [new];
    an empty [old] matches at the beginning of [s]. *)
Fixpoint Replace_first (s old new : string) {struct s} : string :=
  let '(rest, found) := CutPrefix s old in
  if found then (new ++ rest)%string
  else
    match s with
    | EmptyString => EmptyString
    | String c s' => String c (Replace_first s' old new)
    end.

(** The texts of the statements. *)
Definition select_payments : string :=
  "SELECT id, user_id, date, amount FROM payments".

Definition insert_payments : string :=
  "
			INSERT INTO payments (id, user_id, date, amount)
			VALUES ($1, $2, $3, $4)
			ON CONFLICT DO NOTHING
		".

Definition select_openai_usage : string :=
  "
		SELECT id, user_id, created_at, model, input_tokens, output_tokens
		FROM openai_usage".

Definition insert_openai_usages : string :=
  "
			INSERT INTO openai_usages (id, user_id, created_at, model, input_tokens, output_tokens)
			VALUES ($1, $2, $3, $4, $5, $6)
			ON CONFLICT DO NOTHING
		".

Definition select_collections : string :=
  "
		SELECT id, user_id, name
		FROM collections".

Definition insert_collections : string :=
  "
			INSERT INTO collections (id, user_id, name)
			VALUES ($1, $2, $3)
			ON CONFLICT DO NOTHING
		".

Definition select_chat_message : string :=
  "
		SELECT id, user_id, created_at, collection_id, prompt, completion
		FROM chat_message".

Definition insert_chat_messages : string :=
  "
			INSERT INTO chat_messages (id, user_id, created_at, collection_id, prompt, completion)
			VALUES ($1, $2, $3, $4, $5, $6)
			ON CONFLICT DO NOTHING
		".

Definition select_documents : string :=
  "
		SELECT id, user_id, filename, path, collection_id
		FROM documents".

Definition insert_documents : string :=
  "
			INSERT INTO documents (id, user_id, filename, path, collection_id)
			VALUES ($1, $2, $3, $4, $5)
			ON CONFLICT DO NOTHING
		".

Section Migrate.
Variable Row : Type.

(** The two pools and the driver: [from.Query(ctx, sql)] by the rows
    that [rows.Next()] delivers, [rows.Scan] into the variables of each
    loop, by the types of these variables, and [to.Exec(ctx, sql,
    args...)] by its error. *)
Record Pools : Type := {
  from_Query : string -> result (list Row);
  Scan_payment : Row -> result (string * string * Time * string);
  Scan_usage : Row -> result (string * string * Time * string * string * string);
  Scan_collection : Row -> result (string * string * string);
  Scan_chat_message : Row -> result (string * string * Time * string * string * string);
  Scan_document : Row -> result (string * string * string * string * string);
  to_Exec : list exec -> string -> list value -> option error;
}.

Variable pools : Pools.

(** [userMapping := GetUserIdMapping()], a function that the package
    declares outside the sources at hand. *)
Variable userMapping : gmap string string.

(** [_, err = to.Exec(ctx, sql, args...)] with
    [if err != nil { log.Fatalln(err) }]. *)
Definition Exec (sql : string) (args : list value) : M exec unit :=
  fun tr =>
    let err := to_Exec pools tr sql args in
    (match err with Some e => Err e | None => Ok tt end, [EvExec sql args err]).

(** [newUserId, ok := userMapping[userId]] with
    [if !ok { log.Fatalf("user not found: %v", userId) }]. *)
Definition new_user (userId : string) : M exec string :=
  match userMapping !! userId with
  | Some newUserId => ret newUserId
  | None => fail ("user not found: " ++ userId)%string
  end.

(** [for rows.Next() { ... }] *)
Fixpoint for_rows (body : Row -> M exec unit) (rows : list Row) : M exec unit :=
  match rows with
  | [] => ret tt
  | row :: rows' => do _ <- body row; for_rows body rows'
  end.

Definition payment (row : Row) : M exec unit :=
  do scanned <- lift (Scan_payment pools row);
  let '(id, userId, date, amount) := scanned in
  do newUserId <- new_user userId;
  Exec insert_payments [VString id; VString newUserId; VTime date; VString amount].

(** [func MigratePayments(from, to *pgxpool.Pool)] *)
Definition MigratePayments : M exec unit :=
  do rows <- lift (from_Query pools select_payments);
  for_rows payment rows.

Definition openai_usage (row : Row) : M exec unit :=
  do scanned <- lift (Scan_usage pools row);
  let '(id, userId, date, model, input, output) := scanned in
  do newUserId <- new_user userId;
  Exec insert_openai_usages
    [VString id; VString newUserId; VTime date; VString model; VString input;
     VString output].

(** [func MigrateOpenaiUsage(from, to *pgxpool.Pool)] *)
Definition MigrateOpenaiUsage : M exec unit :=
  do rows <- lift (from_Query pools select_openai_usage);
  for_rows openai_usage rows.

Definition collection (row : Row) : M exec unit :=
  do scanned <- lift (Scan_collection pools row);
  let '(id, userId, name) := scanned in
  do newUserId <- new_user userId;
  Exec insert_collections [VString id; VString newUserId; VString name].

(** [func MigrateCollections(from, to *pgxpool.Pool)] *)
Definition MigrateCollections : M exec unit :=
  do rows <- lift (from_Query pools select_collections);
  for_rows collection rows.

Definition chat_message (row : Row) : M exec unit :=
  do scanned <- lift (Scan_chat_message pools row);
  let '(id, userId, date, collId, prompt, compl) := scanned in
  do newUserId <- new_user userId;
  Exec insert_chat_messages
    [VString id; VString newUserId; VTime date; VString collId; VString prompt;
     VString compl].

(** [func MigrateChatMessages(from, to *pgxpool.Pool)] *)
Definition MigrateChatMessages : M exec unit :=
  do rows <- lift (from_Query pools select_chat_message);
  for_rows chat_message rows.

Definition document (row : Row) : M exec unit :=
  do scanned <- lift (Scan_document pools row);
  let '(id, userId, filename, path, collId) := scanned in
  do newUserId <- new_user userId;
  let newPath := ("documents/" ++ Replace_first path userId newUserId)%string in
  Exec insert_documents
    [VString id; VString newUserId; VString filename; VString newPath; VString collId].

(** [func MigrateDocuments(from, to *pgxpool.Pool)] *)
Definition MigrateDocuments : M exec unit :=
  do rows <- lift (from_Query pools select_documents);
  for_rows document rows.

End Migrate.

End migration.

(** ** Observations on the events of a completion *)

(** The provider round trips: the calls of [InvokeModel] and of
    [SendMessage] that the adapter made itself. *)
Definition is_provider_call (e : event) : bool :=
  match e with
  | EvInvokeModel _ _ _ | EvSendMessage _ _ _ _ => true
  | _ => false
  end.

Definition provider_calls (evs : list event) : list event :=
  List.filter is_provider_call evs.

(** The tool handlers that the adapter ran, by name, in order. *)
Definition tool_runs (evs : list event) : list string :=
  omap (fun e => match e with EvTool name _ _ _ => Some name | _ => None end) evs.

(** The threads that were handed to [StoreThread]. *)
Definition stored_threads (evs : list event) : list datastore.Thread :=
  omap (fun e => match e with EvStoreThread t _ => Some t | _ => None end) evs.

(** The usage that a provider round trip reported, as the pair of its
    input and output token counts: for Bedrock the [usage] of the
    decoded answer, for Vertex the [UsageMetadata], or zero when the
    vendor sent none.  A call that failed reports nothing. *)
Definition anthropic_delta (pkg : anthropic.Package) (e : event) : option (Z * Z) :=
  match e with
  | EvInvokeModel _ _ (Ok out) =>
      match anthropic.json_Unmarshal pkg out with
      | Ok r => Some (anthropic.InputTokens (anthropic.RespUsage r),
                      anthropic.OutputTokens (anthropic.RespUsage r))
      | _ => None
      end
  | _ => None
  end.

Definition vertex_delta (e : event) : option (Z * Z) :=
  match e with
  | EvSendMessage _ _ _ (Ok gen) =>
      match genai.RespUsageMetadata gen with
      | Some meta => Some (genai.PromptTokenCount meta, genai.CandidatesTokenCount meta)
      | None => Some (0, 0)
      end
  | _ => None
  end.

Definition anthropic_deltas (pkg : anthropic.Package) (evs : list event) : list (Z * Z) :=
  omap (anthropic_delta pkg) evs.

Definition vertex_deltas (evs : list event) : list (Z * Z) :=
  omap vertex_delta evs.

Definition sum_inputs (deltas : list (Z * Z)) : Z :=
  fold_right (fun d acc => fst d + acc) 0 deltas.

Definition sum_outputs (deltas : list (Z * Z)) : Z :=
  fold_right (fun d acc => snd d + acc) 0 deltas.

(** Token counts are counts, and their totals fit an [int]. *)
Definition counts_ok (deltas : list (Z * Z)) : Prop :=
  Forall (fun d => 0 <= fst d /\ 0 <= snd d) deltas
  /\ sum_inputs deltas <= int_max /\ sum_outputs deltas <= int_max.

(** ** Turns and tools, for stating the properties *)

(** The blocks of a turn that ask for a tool. *)
Definition is_tool_use (pkg : anthropic.Package) (b : anthropic.Content) : bool :=
  String.eqb (anthropic.Typ b) (anthropic.ContentTypeToolUse pkg).

Definition tool_blocks (pkg : anthropic.Package) (content : list anthropic.Content)
    : list anthropic.Content :=
  List.filter (is_tool_use pkg) content.

(** A handler that returns a result whenever it is run. *)
Definition succeeds (h : llm.FunctionCall event) : Prop :=
  forall input tr, is_Ok (fst (h input tr)) = true.

(** A block that the loop can run: not a tool call, or a call of a
    registered tool whose handler succeeds. *)
Definition runnable (pkg : anthropic.Package)
    (tools : gmap string (llm.FunctionCall event)) (b : anthropic.Content) : Prop :=
  is_tool_use pkg b = true ->
  exists h, tools !! anthropic.Name b = Some h /\ succeeds h.

(** A tool-call turn: the stop reason is [tool_use] and the content has
    a [tool_use] block. *)
Definition is_tool_turn (pkg : anthropic.Package) (r : anthropic.ClaudeResponse) : Prop :=
  anthropic.StopReason r = anthropic.ContentTypeToolUse pkg
  /\ tool_blocks pkg (anthropic.Blocks r) <> [].

(** A provider that answers every call with a tool-call turn whose
    calls can all be run. *)
Definition always_tool_turn (pkg : anthropic.Package) (client : anthropic.Client)
    (tools : gmap string (llm.FunctionCall event)) : Prop :=
  forall tr model body,
    exists out r,
      bedrockruntime.InvokeModel (anthropic.bedrock client) tr model body = Ok out
      /\ anthropic.json_Unmarshal pkg out = Ok r
      /\ is_tool_turn pkg r
      /\ Forall (runnable pkg tools) (anthropic.Blocks r).

(** The messages with the results of the tool runs [(block, inner
    events, result)] of one turn, and the events of these runs. *)
Definition result_messages (pkg : anthropic.Package)
    (runs : list (anthropic.Content * list event * string)) : list anthropic.ClaudeMessage :=
  map (fun t => anthropic.tool_result_message pkg (fst (fst t)) (snd t)) runs.

Definition run_events (runs : list (anthropic.Content * list event * string)) : list event :=
  map (fun t => EvTool (anthropic.Name (fst (fst t))) (anthropic.Input (fst (fst t)))
                         (snd (fst t)) (Ok (snd t))) runs.

(** A tool handler returned the error [e]. *)
Definition tool_failed (e : error) (ev : event) : Prop :=
  exists name input inner, ev = EvTool name input inner (Err e).

(** A computation that returns the error of a tool handler as soon as
    one fails: whenever a failed run is among its events, that error is
    its outcome. *)
Definition aborts_on_tool_failure {A} (c : Go A) : Prop :=
  forall tr r evs e, c tr = (r, evs) -> Exists (tool_failed e) evs -> r = Err e.

(** The two counters of a [ModelUsage]. *)
Definition usage_pair (u : llm.ModelUsage) : Z * Z :=
  (llm.InputTokens u, llm.OutputTokens u).

(** ** Persistence, for stating the properties *)

(** Reads the events of a request from left to right, with the response
    of the latest completion, if that completion returned one: a thread
    may be stored only then, and with the messages of that response. *)
Fixpoint stores_follow_success (latest : option llm.CompletionResponse)
    (evs : list event) : Prop :=
  match evs with
  | [] => True
  | EvCompletion _ out :: evs' =>
      stores_follow_success (match out with Ok (Some resp) => Some resp | _ => None end) evs'
  | EvStoreThread thread _ :: evs' =>
      match latest with
      | Some resp =>
          datastore.Messages thread = llm.RespMessages resp
          /\ stores_follow_success latest evs'
      | None => False
      end
  | _ :: evs' => stores_follow_success latest evs'
  end.

(** A completion that did not return a response: an error, a panic, or
    [nil, nil]. *)
Definition completion_aborted (e : event) : bool :=
  match e with
  | EvCompletion _ (Ok (Some _)) => false
  | EvCompletion _ _ => true
  | _ => false
  end.

(** An event that is neither a completion nor a [StoreThread]. *)
Definition plumbing (e : event) : bool :=
  match e with
  | EvCompletion _ _ | EvStoreThread _ _ => false
  | _ => true
  end.

(** ** Sorting, for stating the properties *)

(** What [sort.Slice] asks of [less]: a transitive ordering, in which
    being unordered is transitive too. *)
Definition strict_weak {A} (less : A -> A -> bool) : Prop :=
  (forall a, less a a = false)
  /\ (forall a b c, less a b = true -> less b c = true -> less a c = true)
  /\ (forall a b c, less a b = false -> less b c = false -> less a c = false).

(** What [sort.Slice] promises: the elements are rearranged so that no
    element is less than one before it.  The order of elements that
    [less] does not order is left open ([sort.SliceStable] is the
    function that keeps it). *)
Definition sort_Slice_spec (sort : forall A : Type, (A -> A -> bool) -> list A -> list A) : Prop :=
  forall (A : Type) (less : A -> A -> bool) (l : list A),
    strict_weak less ->
    Permutation l (sort A less l)
    /\ StronglySorted (fun a b => less b a = false) (sort A less l).

(** [a] may come before [b]: its document is smaller, or it is the
    same document and its position is not greater. *)
Definition by_document_then_position (a b : search.Result) : Prop :=
  String.ltb (search.DocumentId a) (search.DocumentId b) = true
  \/ (search.DocumentId a = search.DocumentId b
      /\ (search.Position a <= search.Position b)%N).

(** Two sorts by insertion.  [insert skip less x l] puts [x] into [l]
    after the leading elements [y] that [skip x y] passes over. *)
Fixpoint insert {A} (skip : A -> A -> bool) (x : A) (l : list A) : list A :=
  match l with
  | [] => [x]
  | y :: l' => if skip x y then y :: insert skip x l' else x :: l
  end.

(** Equal elements keep their order: [x], which came first, stays in
    front of the elements that are not less than it. *)
Definition insertion_sort (A : Type) (less : A -> A -> bool) (l : list A) : list A :=
  fold_right (insert (fun x y => less y x)) [] l.

(** Equal elements change places: [x] goes behind the elements that it
    is not less than. *)
Definition reversing_sort (A : Type) (less : A -> A -> bool) (l : list A) : list A :=
  fold_right (insert (fun x y => negb (less x y))) [] l.

(** ** Further observations, for the properties beyond the claims *)

(** A computation that stops at a failed call: when one of its events
    has failed with [e], in the sense of [failed], that error is its
    outcome and no event follows the failed one. *)
Definition stops_on {A} (failed : error -> event -> Prop) (c : Go A) : Prop :=
  forall tr r evs e pre ev post,
    c tr = (r, evs) -> evs = pre ++ ev :: post -> failed e ev ->
    r = Err e /\ post = [].

(** A call of Bedrock that returned an error, or whose answer does not
    decode. *)
Definition bedrock_failed (pkg : anthropic.Package) (e : error) (ev : event) : Prop :=
  exists model body out,
    ev = EvInvokeModel model body out
    /\ (out = Err e \/ exists b, out = Ok b /\ anthropic.json_Unmarshal pkg b = Err e).

(** A call of Vertex that returned an error. *)
Definition vertex_failed (e : error) (ev : event) : Prop :=
  exists model history parts, ev = EvSendMessage model history parts (Err e).

(** All events of a computation satisfy [P], whatever its outcome. *)
Definition events_all {A} (P : event -> Prop) (c : Go A) : Prop :=
  forall tr, Forall P (snd (c tr)).

(** A computation that makes [n] provider calls at most. *)
Definition calls_at_most {A} (n : nat) (c : Go A) : Prop :=
  forall tr, (length (provider_calls (snd (c tr))) <= n)%nat.

(** The settings of a Bedrock request, apart from its messages. *)
Definition same_settings (r r' : anthropic.ClaudeRequest) : Prop :=
  anthropic.AnthropicVersion r' = anthropic.AnthropicVersion r
  /\ anthropic.System r' = anthropic.System r
  /\ anthropic.MaxTokens r' = anthropic.MaxTokens r
  /\ anthropic.TopP r' = anthropic.TopP r
  /\ anthropic.Temperature r' = anthropic.Temperature r
  /\ anthropic.Tools r' = anthropic.Tools r.

(** A provider call of the Anthropic adapter for [model] that sends the
    settings of [req] with messages that begin with those of [req]. *)
Definition extends_request (pkg : anthropic.Package) (model : string)
    (req : anthropic.ClaudeRequest) (ev : event) : Prop :=
  is_provider_call ev = true ->
  exists req' out,
    ev = EvInvokeModel model (anthropic.json_Marshal pkg req') out
    /\ same_settings req req'
    /\ anthropic.Messages req `prefix_of` anthropic.Messages req'.

(** A collaborator of the chat handler whose error ends the request:
    the funding check, the load of the thread, the completion and the
    store of the thread. *)
Definition service_failed (e : error) (ev : event) : Prop :=
  ev = EvVerifyFunding (Err e)
  \/ (exists userId threadId, ev = EvGetThread userId threadId (Err e))
  \/ (exists inner, ev = EvCompletion inner (Err e))
  \/ (exists thread, ev = EvStoreThread thread (Some e)).

(** The funding check, the first call of the handler. *)
Definition is_funding_check (ev : event) : bool :=
  match ev with
  | EvVerifyFunding _ => true
  | _ => false
  end.

(** What the Vertex adapter does when it calls the provider twice: the
    first answer asks for a tool, the tool is run, and the second call
    sends the result after the history and the call; the outcome is
    decided by the second answer. *)
Definition vertex_second_round (pkg : vertex.Package) (req : llm.CompletionRequest event)
    (r : result (option llm.CompletionResponse)) (evs : list event)
    (ev1 ev2 : event) : Prop :=
  exists history init last gen name args rest inner s results out,
    vertex.transformToHistory pkg (llm.Messages req) = Ok history
    /\ split_last history = Some (init, last)
    /\ ev1 = EvSendMessage (vertex.generative_model pkg req) init (genai.Parts last) (Ok gen)
    /\ vertex.first_parts gen = Some (genai.FunctionCall name args :: rest)
    /\ evs = [ev1; EvTool name args inner (Ok s); ev2]
    /\ vertex.json_Unmarshal pkg s = Ok results
    /\ ev2 = EvSendMessage (vertex.generative_model pkg req)
               (history ++ [ {| genai.Role := vertex.RoleModel;
                                genai.Parts := [genai.FunctionCall name args] |} ])
               [genai.FunctionResponse name results] out
    /\ match out with
       | Ok gen2 =>
           match vertex.first_parts gen2 with
           | None | Some [] => r = Panic
           | Some (genai.Text txt :: _) =>
               exists usage,
                 r = Ok (Some {| llm.RespMessage :=
                                   Some {| llm.Role := vertex.RoleAssistant pkg;
                                           llm.Content := txt |};
                                 llm.RespMessages := [];
                                 llm.Usage := usage |})
           | Some (_ :: _) => r = Ok None
           end
       | Err e => r = Err e
       | Panic => r = Panic
       end.

(** ** The migrations, for stating the properties *)

(** The five migrations, each with the query that it reads. *)
Definition migrations (Row : Type) (pools : migration.Pools Row)
    (userMapping : gmap string string) : list (string * M migration.exec unit) :=
  [ (migration.select_payments, migration.MigratePayments Row pools userMapping);
    (migration.select_openai_usage, migration.MigrateOpenaiUsage Row pools userMapping);
    (migration.select_collections, migration.MigrateCollections Row pools userMapping);
    (migration.select_chat_message, migration.MigrateChatMessages Row pools userMapping);
    (migration.select_documents, migration.MigrateDocuments Row pools userMapping) ].

Definition exec_args (ev : migration.exec) : list migration.value :=
  match ev with migration.EvExec _ args _ => args end.

Definition exec_err (ev : migration.exec) : option error :=
  match ev with migration.EvExec _ _ err => err end.

(** A statement whose second argument, the user of the row, is a user
    that the mapping gives for the user [old]. *)
Definition writes_mapped_user (userMapping : gmap string string) (old : string)
    (ev : migration.exec) : Prop :=
  exists new, userMapping !! old = Some new
              /\ exec_args ev !! 1%nat = Some (migration.VString new).

(** The statement that [MigrateDocuments] runs for a row. *)
Definition writes_document (Row : Type) (pools : migration.Pools Row)
    (userMapping : gmap string string) (row : Row) (ev : migration.exec) : Prop :=
  exists id userId filename path collId newUserId err,
    migration.Scan_document Row pools row = Ok (id, userId, filename, path, collId)
    /\ userMapping !! userId = Some newUserId
    /\ ev = migration.EvExec migration.insert_documents
               [migration.VString id; migration.VString newUserId;
                migration.VString filename;
                migration.VString
                  ("documents/" ++ migration.Replace_first path userId newUserId)%string;
                migration.VString collId] err.

(** ** Stubs: scripted providers and tools, for concrete runs *)
Module Stub.

Definition block (typ text id name : string) : anthropic.Content :=
  {| anthropic.Typ := typ; anthropic.Text := text; anthropic.ID := id;
     anthropic.Name := name; anthropic.Input := ∅;
     anthropic.ToolUseId := ""; anthropic.Result := "" |}.

Definition text_block (text : string) : anthropic.Content :=
  block "text" text "" "".

Definition tool_use_block (id name : string) : anthropic.Content :=
  block "tool_use" "" id name.

Definition turn (stop : string) (blocks : list anthropic.Content) (i o : Z)
    : anthropic.ClaudeResponse :=
  {| anthropic.Model := "claude";
     anthropic.RespUsage := {| anthropic.InputTokens := i; anthropic.OutputTokens := o |};
     anthropic.StopReason := stop;
     anthropic.Blocks := blocks |}.

(** The provider answers its [n]-th call with a body of [n] bytes,
    which decodes to the [n]-th turn of the script, and to [rest]
    once the script is over. *)
Definition bedrock : bedrockruntime.Client :=
  {| bedrockruntime.InvokeModel tr _ _ :=
       Ok (repeat Byte.x00 (length (provider_calls tr))) |}.

Definition client : anthropic.Client := {| anthropic.bedrock := bedrock |}.

Definition pkg (script : list anthropic.ClaudeResponse) (rest : anthropic.ClaudeResponse)
    : anthropic.Package :=
  {| anthropic.ContentTypeToolUse := "tool_use";
     anthropic.ContentTypeToolResult := "tool_result";
     anthropic.ChatMessageRoleAssistant := "assistant";
     anthropic.ChatMessageRoleUser := "user";
     anthropic.RoleAssistant := "assistant";
     anthropic.transformMessages msgs :=
       Ok (map (fun m => {| anthropic.Role := llm.Role m;
                            anthropic.MsgBlocks := [text_block (llm.Content m)] |}) msgs);
     anthropic.transformTools _ := [];
     anthropic.json_Marshal _ := [];
     anthropic.json_Unmarshal body := Ok (nth (length body) script rest) |}.

Definition tool (name : string) (handler : llm.FunctionCall event)
    : llm.ToolDefinition event :=
  {| llm.Name := name; llm.Description := "";
     llm.Parameters := {| llm.ParamType := "object"; llm.Properties := ∅; llm.Required := [] |};
     llm.Call := handler |}.

Definition ok_handler : llm.FunctionCall event := fun _ _ => (Ok "{}", []).
Definition failing_handler : llm.FunctionCall event := fun _ _ => (Err "search failed", []).

Definition request (tools : list (llm.ToolDefinition event)) : llm.CompletionRequest event :=
  {| llm.SystemPrompt := "system";
     llm.Messages := [ {| llm.Role := "user"; llm.Content := "question" |} ];
     llm.ReqModel := "claude";
     llm.MaxTokens := 1024;
     llm.TopP := 0;
     llm.Temperature := 0;
     llm.ReqUserId := "user-1";
     llm.Tools := tools |}.

(** A turn that asks for [get_sources]. *)
Definition tool_turn : anthropic.ClaudeResponse :=
  turn "tool_use" [tool_use_block "call-1" "get_sources"] 10 5.

(** The provider that asks for [get_sources] on every call, and a
    registry in which [get_sources] succeeds. *)
Definition looping_pkg : anthropic.Package := pkg [] tool_turn.

Definition sources_ok : list (llm.ToolDefinition event) :=
  [tool "get_sources" ok_handler].


(** The Vertex provider answers its [n]-th call with the [n]-th
    response of the script, and with [rest] once the script is over;
    the history of a request is one content per message. *)
Definition vclient (script : list genai.GenerateContentResponse)
    (rest : genai.GenerateContentResponse) : vertex.Client :=
  {| vertex.client :=
       {| vertexai.SendMessage tr _ _ _ :=
            Ok (nth (length (provider_calls tr)) script rest) |} |}.

Definition vpkg (handler : llm.FunctionCall event) : vertex.Package :=
  {| vertex.modelPrefix := "vertex-";
     vertex.RoleAssistant := "assistant";
     vertex.transformToHistory msgs :=
       Ok (map (fun m => {| genai.Role := llm.Role m;
                            genai.Parts := [genai.Text (llm.Content m)] |}) msgs);
     vertex.callTool _ := handler;
     vertex.getTools := [];
     vertex.json_Unmarshal _ := Ok ∅ |}.

Definition gen (parts : list genai.Part) (usage : option (Z * Z))
    : genai.GenerateContentResponse :=
  {| genai.Candidates :=
       [ {| genai.CandContent := Some {| genai.Role := "model"; genai.Parts := parts |} |} ];
     genai.RespUsageMetadata :=
       match usage with
       | Some (i, o) => Some {| genai.PromptTokenCount := i; genai.CandidatesTokenCount := o |}
       | None => None
       end |}.

(** A response without candidates. *)
Definition no_candidates : genai.GenerateContentResponse :=
  {| genai.Candidates := []; genai.RespUsageMetadata := None |}.

Definition empty_request : llm.CompletionRequest event :=
  {| llm.SystemPrompt := "system";
     llm.Messages := [];
     llm.ReqModel := "vertex-gemini";
     llm.MaxTokens := 1024;
     llm.TopP := 0;
     llm.Temperature := 0;
     llm.ReqUserId := "user-1";
     llm.Tools := [] |}.

(** Turns for the stubs of a tool that is not registered: one that asks
    for [lookup], one that asks for [get_sources] and then for [lookup],
    and one that stops for length with a call of [lookup] in it. *)
Definition unknown_turn : anthropic.ClaudeResponse :=
  turn "tool_use" [tool_use_block "call-2" "lookup"] 10 5.

Definition known_then_unknown_turn : anthropic.ClaudeResponse :=
  turn "tool_use" [tool_use_block "call-1" "get_sources"; tool_use_block "call-2" "lookup"] 10 5.

Definition truncated_turn : anthropic.ClaudeResponse :=
  turn "max_tokens" [text_block "Let me look that up."; tool_use_block "call-2" "lookup"] 10 5.

Definition sources_failing : list (llm.ToolDefinition event) :=
  [tool "get_sources" failing_handler].

(** The outcomes of two runs, computed. *)
Definition looping_outcome : result (option llm.CompletionResponse) * list event :=
  Eval vm_compute in
    anthropic.Completion looping_pkg client (request sources_ok) [].

(** A Vertex provider that asks for [get_sources] once and then answers
    with text, without usage on the second answer. *)
Definition one_tool_vclient : vertex.Client :=
  vclient [gen [genai.FunctionCall "get_sources" ∅] (Some (3, 4))]
          (gen [genai.Text "done"] None).

Definition vertex_tool_outcome : result (option llm.CompletionResponse) * list event :=
  Eval vm_compute in
    vertex.Completion (vpkg ok_handler) one_tool_vclient (request []) [].

(** A provider that answers with text in white space, and a Vertex
    provider whose first answer asks for two tools. *)
Definition padded_text_turn : anthropic.ClaudeResponse :=
  turn "end_turn" [text_block " hi "] 3 4.

Definition two_tools_vclient : vertex.Client :=
  vclient [gen [genai.FunctionCall "get_sources" ∅; genai.FunctionCall "lookup" ∅] (Some (3, 4))]
          (gen [genai.Text "done"] None).

Definition text_vclient : vertex.Client :=
  vclient [] (gen [genai.Text " hi "] (Some (3, 4))).

(** A turn with two tool calls around a text block, and the variables
    of the loop when that turn is the answer in hand. *)
Definition two_calls_turn : anthropic.ClaudeResponse :=
  turn "tool_use"
    [tool_use_block "call-1" "get_sources"; text_block "and"; tool_use_block "call-2" "get_sources"]
    10 5.

Definition state (answer : anthropic.ClaudeResponse) : anthropic.LoopState :=
  {| anthropic.request :=
       {| anthropic.AnthropicVersion := "bedrock-2023-05-31";
          anthropic.Messages := [];
          anthropic.System := "system";
          anthropic.MaxTokens := 1024;
          anthropic.TopP := 0;
          anthropic.Temperature := 0;
          anthropic.Tools := [] |};
     anthropic.response := answer;
     anthropic.usage := {| llm.UserId := "user-1"; llm.Model := "claude";
                           llm.InputTokens := 10; llm.OutputTokens := 5 |};
     anthropic.loops := 0 |}.

Definition two_calls_outcome : result anthropic.LoopState * list event :=
  Eval vm_compute in
    anthropic.loop_body looping_pkg client (anthropic.tools_of sources_ok) "claude"
      (state two_calls_turn) [].

(** The libraries and the collaborators of the chat handler: the
    datastore has no thread and accepts every write, the retrieval
    service finds two passages of one document at one position. *)
Definition lib (sort : forall A : Type, (A -> A -> bool) -> list A -> list A) : GoLib :=
  {| uuid_Parse _ := Ok [];
     uuid_String _ := "thread-1";
     uuid_New _ := [];
     time_Now _ := 0;
     sort_Slice := sort;
     json_Marshal_Sources _ := Ok "{}" |}.

Definition passage (id doc : string) (pos : N) : search.Result :=
  {| search.Id := id; search.DocumentId := doc; search.Content := "";
     search.Score := 0; search.Position := pos |}.

(** A model that answers with text, and one whose provider is down. *)
Definition answering_model : chat.Model :=
  fun req _ =>
    (Ok (Some {| llm.RespMessage := Some {| llm.Role := "assistant"; llm.Content := "answer" |};
                 llm.RespMessages :=
                   llm.Messages req ++ [ {| llm.Role := "assistant"; llm.Content := "answer" |} ];
                 llm.Usage := {| llm.UserId := llm.ReqUserId req; llm.Model := "claude";
                                 llm.InputTokens := 3; llm.OutputTokens := 4 |} |}),
     []).

Definition failing_model : chat.Model :=
  fun _ _ => (Err "provider down", []).

Definition service (model : chat.Model) : chat.Service :=
  {| chat.Auth_VerifyFunding _ := Ok "user-1";
     chat.Database_GetThread _ _ _ := Err "no rows";
     chat.Database_StoreThread _ _ := None;
     chat.Database_InsertModelUsage _ _ := None;
     chat.Database_GetDocumentName _ _ _ := Ok "paper.pdf";
     chat.Search_Search _ _ :=
       Ok {| search.Results := [passage "chunk-1" "docA" 1; passage "chunk-2" "docA" 1];
             search.RespUsage := {| search.ModelId := "embedding"; search.Tokens := 7 |} |};
     chat.getModel _ := Ok model;
     chat.getSources _ := [];
     chat.RoleUser := "user" |}.

Definition prompt : pb.Prompt :=
  {| pb.ThreadId := "";
     pb.CollectionId := "collection-1";
     pb.PromptText := "question";
     pb.GetModelOptions :=
       Some {| pb.ModelId := "claude"; pb.MaxTokens := 1024; pb.TopP := 0; pb.Temperature := 0 |};
     pb.GetRetrievalOptions := Some {| pb.Documents := 5; pb.Threshold := 0 |} |}.

Definition answered_outcome : result pb.Message * list event :=
  Eval vm_compute in chat.PostMessage (lib insertion_sort) (service answering_model) prompt [].

Definition failed_outcome : result pb.Message * list event :=
  Eval vm_compute in chat.PostMessage (lib insertion_sort) (service failing_model) prompt [].

(** A Bedrock client that is down, an answer without content, and a
    provider whose counts leave the range of [int]: a tool call that
    reports the largest [int], then text that reports one more token. *)
Definition down_client : anthropic.Client :=
  {| anthropic.bedrock := {| bedrockruntime.InvokeModel _ _ _ := Err "throttled" |} |}.

Definition empty_turn : anthropic.ClaudeResponse := turn "end_turn" [] 1 1.

Definition overflowing_pkg : anthropic.Package :=
  pkg [turn "tool_use" [tool_use_block "call-1" "get_sources"] int_max 0]
      (turn "end_turn" [text_block "done"] 1 0).

Definition overflowing_outcome : result (option llm.CompletionResponse) * list event :=
  Eval vm_compute in
    anthropic.Completion overflowing_pkg client (request sources_ok) [].

(** A Vertex provider that is down, a tool whose result is no JSON
    object with a package that notices, and a package whose history is
    empty. *)
Definition down_vclient : vertex.Client :=
  {| vertex.client := {| vertexai.SendMessage _ _ _ _ := Err "unavailable" |} |}.

Definition text_handler : llm.FunctionCall event := fun _ _ => (Ok "sources", []).

Definition strict_vpkg (handler : llm.FunctionCall event) : vertex.Package :=
  {| vertex.modelPrefix := "vertex-";
     vertex.RoleAssistant := "assistant";
     vertex.transformToHistory msgs :=
       Ok (map (fun m => {| genai.Role := llm.Role m;
                            genai.Parts := [genai.Text (llm.Content m)] |}) msgs);
     vertex.callTool _ := handler;
     vertex.getTools := [];
     vertex.json_Unmarshal s :=
       if String.eqb s "{}" then Ok ∅ else Err "invalid character" |}.

Definition blank_vpkg : vertex.Package :=
  {| vertex.modelPrefix := "vertex-";
     vertex.RoleAssistant := "assistant";
     vertex.transformToHistory _ := Ok [];
     vertex.callTool _ := ok_handler;
     vertex.getTools := [];
     vertex.json_Unmarshal _ := Ok ∅ |}.

Definition vertex_request : llm.CompletionRequest event :=
  {| llm.SystemPrompt := "system";
     llm.Messages := [ {| llm.Role := "user"; llm.Content := "question" |} ];
     llm.ReqModel := "vertex-gemini";
     llm.MaxTokens := 1024;
     llm.TopP := 0;
     llm.Temperature := 0;
     llm.ReqUserId := "user-1";
     llm.Tools := [] |}.

(** A prompt without options, the parameters of a tool call, and a
    source to name. *)
Definition bare_prompt : pb.Prompt :=
  {| pb.ThreadId := "";
     pb.CollectionId := "collection-1";
     pb.PromptText := "question";
     pb.GetModelOptions := None;
     pb.GetRetrievalOptions := None |}.

Definition topic : gmap string any := {[ "prompt" := any_string "topic" ]}.

Definition retrieval : pb.RetrievalOptions := {| pb.Documents := 5; pb.Threshold := 0 |}.

Definition cited : pb.Source :=
  {| pb.DocumentId := "docA"; pb.Name := ""; pb.Chunks := [passage "chunk-1" "docA" 1] |}.

Definition text_vertex_outcome : result (option llm.CompletionResponse) * list event :=
  Eval vm_compute in
    vertex.Completion (vpkg ok_handler) text_vclient vertex_request [].

Definition query : search.Query :=
  {| search.UserId := "user-1";
     search.CollectionId := "collection-1";
     search.QueryText := "topic";
     search.Limit := 5;
     search.Threshold := 0 |}.

Definition found : search.Response :=
  {| search.Results := [passage "chunk-1" "docA" 1; passage "chunk-2" "docA" 1];
     search.RespUsage := {| search.ModelId := "embedding"; search.Tokens := 7 |} |}.

(** A migration of two documents of one user: the rows are pairs of an
    id and a path; the second statement fails. *)
Definition mapping : gmap string string := {[ "old-user" := "new-user" ]}.

Definition document_rows : list (string * string) :=
  [("doc-1", "old-user/a.pdf"); ("doc-2", "shared/old-user/b.pdf")].

Definition pools : migration.Pools (string * string) :=
  {| migration.from_Query _ := Ok document_rows;
     migration.Scan_payment _ := Err "no such column";
     migration.Scan_usage _ := Err "no such column";
     migration.Scan_collection _ := Err "no such column";
     migration.Scan_chat_message _ := Err "no such column";
     migration.Scan_document row :=
       Ok (fst row, "old-user", "file.pdf", snd row, "collection-1");
     migration.to_Exec tr _ _ :=
       match tr with
       | [] => None
       | _ :: _ => Some "connection lost"
       end |}.

Definition documents_outcome : result unit * list migration.exec :=
  Eval vm_compute in migration.MigrateDocuments (string * string) pools mapping [].

End Stub.

(** * Properties *)

(** ** The monad *)

Lemma bind_inv {A B} (c : Go A) (k : A -> Go B) tr r evs :
  bind c k tr = (r, evs) ->
  (exists a evs1 evs2,
      c tr = (Ok a, evs1) /\ k a (tr ++ evs1) = (r, evs2) /\ evs = evs1 ++ evs2)
  \/ (exists e, c tr = (Err e, evs) /\ r = Err e)
  \/ (c tr = (Panic, evs) /\ r = Panic).
Proof.
  unfold bind. destruct (c tr) as [[a|e|] evs1] eqn:Hc.
  - destruct (k a (tr ++ evs1)) as [r2 evs2] eqn:Hk. intros [= <- <-].
    left. exists a, evs1, evs2. auto.
  - intros [= <- <-]. right; left. eauto.
  - intros [= <- <-]. right; right. auto.
Qed.

Lemma bind_Ok {A B} (c : Go A) (k : A -> Go B) tr a evs1 r evs2 :
  c tr = (Ok a, evs1) -> k a (tr ++ evs1) = (r, evs2) ->
  bind c k tr = (r, evs1 ++ evs2).
Proof. intros Hc Hk. unfold bind. rewrite Hc, Hk. reflexivity. Qed.

Lemma bind_Err {A B} (c : Go A) (k : A -> Go B) tr e evs :
  c tr = (Err e, evs) -> bind c k tr = (Err e, evs).
Proof. intros Hc. unfold bind. rewrite Hc. reflexivity. Qed.

Lemma bind_assoc {A B C} (c : Go A) (k : A -> Go B) (h : B -> Go C) tr :
  bind (bind c k) h tr = bind c (fun a => bind (k a) h) tr.
Proof.
  unfold bind. destruct (c tr) as [[a|e|] evs1]; try reflexivity.
  destruct (k a (tr ++ evs1)) as [[b|e|] evs2]; try reflexivity.
  rewrite <- app_assoc.
  destruct (h b (tr ++ evs1 ++ evs2)) as [r evs3]. now rewrite app_assoc.
Qed.

Lemma bind_ext {A B} (c : Go A) (k k' : A -> Go B) tr :
  (forall a tr', k a tr' = k' a tr') -> bind c k tr = bind c k' tr.
Proof.
  intros Hk. unfold bind. destruct (c tr) as [[a|e|] evs1]; try reflexivity.
  now rewrite Hk.
Qed.

Lemma bind_ret_l {A B} (a : A) (k : A -> Go B) tr : bind (ret a) k tr = k a tr.
Proof. unfold bind, ret. rewrite app_nil_r. now destruct (k a tr). Qed.

(** Splits a hypothesis [bind c k tr = (r, evs)] into its three cases. *)
Ltac inv_bind H :=
  let a := fresh "a" in
  let evs1 := fresh "evs" in
  let evs2 := fresh "evs" in
  let e := fresh "e" in
  let Hc := fresh "Hc" in
  let Hk := fresh "Hk" in
  let Hevs := fresh "Hevs" in
  let Hr := fresh "Hr" in
  apply bind_inv in H;
  destruct H as [(a & evs1 & evs2 & Hc & Hk & Hevs) | [(e & Hc & Hr) | (Hc & Hr)]];
  [ try subst | try discriminate Hr; try subst | try discriminate Hr; try subst ].

(** ** Arithmetic of [int] *)

Lemma int_add_exact a b :
  0 <= a -> 0 <= b -> a + b <= int_max -> int_add a b = a + b.
Proof.
  unfold int_add, wrap_int, int_max. intros Ha Hb Hab.
  rewrite Z.mod_small by lia. lia.
Qed.

Lemma sum_inputs_app l1 l2 : sum_inputs (l1 ++ l2) = sum_inputs l1 + sum_inputs l2.
Proof. unfold sum_inputs. induction l1 as [|d l1 IH]; simpl; lia. Qed.

Lemma sum_outputs_app l1 l2 : sum_outputs (l1 ++ l2) = sum_outputs l1 + sum_outputs l2.
Proof. unfold sum_outputs. induction l1 as [|d l1 IH]; simpl; lia. Qed.

Lemma sum_inputs_nonneg l :
  Forall (fun d : Z * Z => 0 <= fst d /\ 0 <= snd d) l -> 0 <= sum_inputs l.
Proof. unfold sum_inputs. induction 1 as [|d l [Hd _] _ IH]; simpl; lia. Qed.

Lemma sum_outputs_nonneg l :
  Forall (fun d : Z * Z => 0 <= fst d /\ 0 <= snd d) l -> 0 <= sum_outputs l.
Proof. unfold sum_outputs. induction 1 as [|d l [_ Hd] _ IH]; simpl; lia. Qed.

Lemma counts_ok_app l1 l2 : counts_ok (l1 ++ l2) -> counts_ok l1 /\ counts_ok l2.
Proof.
  unfold counts_ok. rewrite Forall_app, sum_inputs_app, sum_outputs_app.
  intros ((H1 & H2) & Hi & Ho).
  pose proof (sum_inputs_nonneg _ H1). pose proof (sum_inputs_nonneg _ H2).
  pose proof (sum_outputs_nonneg _ H1). pose proof (sum_outputs_nonneg _ H2).
  repeat split; auto; lia.
Qed.

(** ** The Anthropic adapter *)
Section AnthropicFacts.
Variable pkg : anthropic.Package.
Variable client : anthropic.Client.

Lemma invokeRequest_eq model req tr :
  anthropic.invokeRequest pkg client model req tr =
  let body := anthropic.json_Marshal pkg req in
  let out := bedrockruntime.InvokeModel (anthropic.bedrock client) tr model body in
  (match out with
   | Ok b => anthropic.json_Unmarshal pkg b
   | Err e => Err e
   | Panic => Panic
   end, [EvInvokeModel model body out]).
Proof.
  unfold anthropic.invokeRequest, bind, call_result, lift. simpl.
  destruct (bedrockruntime.InvokeModel _ _ _ _); reflexivity.
Qed.

Lemma invokeRequest_Ok model req tr r evs :
  anthropic.invokeRequest pkg client model req tr = (Ok r, evs) ->
  exists b,
    bedrockruntime.InvokeModel (anthropic.bedrock client) tr model
      (anthropic.json_Marshal pkg req) = Ok b
    /\ anthropic.json_Unmarshal pkg b = Ok r
    /\ evs = [EvInvokeModel model (anthropic.json_Marshal pkg req) (Ok b)].
Proof.
  rewrite invokeRequest_eq. simpl.
  destruct (bedrockruntime.InvokeModel _ _ _ _) as [b|e|] eqn:Hb;
    intros ?; simplify_eq.
  exists b. auto.
Qed.

Lemma messages_fold_append req ms :
  anthropic.Messages (fold_left (anthropic.append_message) ms req)
  = anthropic.Messages req ++ ms.
Proof.
  revert req. induction ms as [|m ms IH]; intros req; simpl.
  - now rewrite app_nil_r.
  - rewrite IH. simpl. now rewrite <- app_assoc.
Qed.

(** The inner loop, when it gets through: it ran the handler of every
    [tool_use] block, in order, and appended one message per run. *)
Lemma run_tools_Ok tools content req tr req' evs :
  anthropic.run_tools pkg tools content req tr = (Ok req', evs) ->
  exists runs,
    map (fun t => fst (fst t)) runs = tool_blocks pkg content
    /\ evs = run_events runs
    /\ req' = fold_left anthropic.append_message (result_messages pkg runs) req.
Proof.
  revert req tr req' evs.
  induction content as [|b content IH]; intros req tr req' evs; simpl.
  - unfold ret. intros ?; simplify_eq. exists []. auto.
  - unfold tool_blocks. simpl. unfold is_tool_use at 1.
    destruct (String.eqb _ _) eqn:Htyp.
    + destruct (tools !! anthropic.Name b) as [h|] eqn:Hh; [|discriminate].
      intros H. inv_bind H; try discriminate.
      unfold call_tool in Hc.
      destruct (h (anthropic.Input b) tr) as [r inner] eqn:Hrun.
      simplify_eq.
      apply IH in Hk as (runs & Hblocks & -> & ->).
      exists ((b, inner, a) :: runs). simpl.
      split; [f_equal; exact Hblocks|]. auto.
    + intros H. apply IH in H as (runs & Hblocks & -> & ->).
      exists runs. auto.
Qed.

(** One pass of the loop that gets through. *)
Lemma loop_body_Ok tools model st tr st' evs :
  anthropic.loop_body pkg client tools model st tr = (Ok st', evs) ->
  exists runs b,
    map (fun t => fst (fst t)) runs
      = tool_blocks pkg (anthropic.Blocks (anthropic.response st))
    /\ anthropic.request st'
       = fold_left anthropic.append_message (result_messages pkg runs)
           (anthropic.append_message (anthropic.request st)
              {| anthropic.Role := anthropic.ChatMessageRoleAssistant pkg;
                 anthropic.MsgBlocks := anthropic.Blocks (anthropic.response st) |})
    /\ bedrockruntime.InvokeModel (anthropic.bedrock client) (tr ++ run_events runs)
         model (anthropic.json_Marshal pkg (anthropic.request st')) = Ok b
    /\ anthropic.json_Unmarshal pkg b = Ok (anthropic.response st')
    /\ evs = run_events runs
               ++ [EvInvokeModel model (anthropic.json_Marshal pkg (anthropic.request st')) (Ok b)]
    /\ anthropic.usage st'
       = anthropic.add_usage (anthropic.usage st)
           (anthropic.RespUsage (anthropic.response st'))
    /\ anthropic.loops st' = anthropic.loops st + 1.
Proof.
  unfold anthropic.loop_body. intros H.
  inv_bind H. inv_bind Hk. unfold ret in Hk0. simplify_eq.
  apply run_tools_Ok in Hc as (runs & Hblocks & -> & ->).
  apply invokeRequest_Ok in Hc0 as (b & Hb & Hr & ->).
  exists runs, b. simpl. rewrite ?app_nil_r. auto 10.
Qed.

Lemma provider_calls_app evs1 evs2 :
  provider_calls (evs1 ++ evs2) = provider_calls evs1 ++ provider_calls evs2.
Proof. unfold provider_calls. apply List.filter_app. Qed.

Lemma tool_runs_app evs1 evs2 : tool_runs (evs1 ++ evs2) = tool_runs evs1 ++ tool_runs evs2.
Proof. unfold tool_runs. apply omap_app. Qed.

Lemma provider_calls_run_events runs : provider_calls (run_events runs) = [].
Proof. induction runs as [|t runs IH]; simpl; auto. Qed.

Lemma tool_runs_run_events runs :
  tool_runs (run_events runs) = map (fun t => anthropic.Name (fst (fst t))) runs.
Proof.
  induction runs as [|t runs IH]; simpl; auto.
  unfold tool_runs in *. simpl. now rewrite IH.
Qed.

Lemma anthropic_deltas_app evs1 evs2 :
  anthropic_deltas pkg (evs1 ++ evs2) = anthropic_deltas pkg evs1 ++ anthropic_deltas pkg evs2.
Proof. unfold anthropic_deltas. apply omap_app. Qed.

Lemma anthropic_deltas_run_events runs : anthropic_deltas pkg (run_events runs) = [].
Proof. induction runs as [|t runs IH]; simpl; auto. Qed.

(** The loop stops by itself: passes beyond [6 - loops] change nothing. *)
Lemma for_loop_enough tools model n :
  forall st tr m,
    6 <= anthropic.loops st + Z.of_nat n -> (n <= m)%nat ->
    anthropic.for_loop pkg client m tools model st tr
    = anthropic.for_loop pkg client n tools model st tr.
Proof.
  induction n as [|n IH]; intros st tr m Hl Hm.
  - assert (Hc : anthropic.loop_cond pkg st = false).
    { unfold anthropic.loop_cond. apply andb_false_iff. right.
      apply Z.ltb_ge. lia. }
    destruct m; simpl; [reflexivity|]. now rewrite Hc.
  - destruct m as [|m]; [lia|]. simpl.
    destruct (anthropic.loop_cond pkg st); [|reflexivity].
    unfold bind.
    destruct (anthropic.loop_body pkg client tools model st tr) as [[st'| |] evs] eqn:Hb;
      try reflexivity.
    apply loop_body_Ok in Hb as (_ & _ & _ & _ & _ & _ & _ & _ & Hloops).
    rewrite (IH st' (tr ++ evs) m); [reflexivity | lia | lia].
Qed.

(** On return from the six passes the guard of the loop is false. *)
Lemma for_loop_exit tools model n :
  forall st tr st' evs,
    6 <= anthropic.loops st + Z.of_nat n ->
    anthropic.for_loop pkg client n tools model st tr = (Ok st', evs) ->
    anthropic.loop_cond pkg st' = false.
Proof.
  induction n as [|n IH]; intros st tr st' evs Hl; simpl.
  - unfold ret. intros ?; simplify_eq.
    unfold anthropic.loop_cond. apply andb_false_iff. right. apply Z.ltb_ge. lia.
  - destruct (anthropic.loop_cond pkg st) eqn:Hc.
    + intros H. inv_bind H.
      apply loop_body_Ok in Hc0 as (_ & _ & _ & _ & _ & _ & _ & _ & Hloops).
      eapply IH; [|exact Hk]. lia.
    + unfold ret. intros ?; simplify_eq. exact Hc.
Qed.

(** The first [n + m] passes are the first [n], then [m] more. *)
Lemma for_loop_split tools model n m :
  forall st tr,
    anthropic.for_loop pkg client (n + m) tools model st tr
    = bind (anthropic.for_loop pkg client n tools model st)
           (anthropic.for_loop pkg client m tools model) tr.
Proof.
  induction n as [|n IH]; intros st tr; simpl.
  - now rewrite bind_ret_l.
  - destruct (anthropic.loop_cond pkg st) eqn:Hc.
    + rewrite bind_assoc. apply bind_ext. intros st' tr'. apply IH.
    + rewrite bind_ret_l. destruct m; simpl; [reflexivity|]. now rewrite Hc.
Qed.

(** When the guard holds after [k] passes, all [k] passes were made. *)
Lemma for_loop_all_passes tools model k :
  forall st0 tr st evs,
    anthropic.for_loop pkg client k tools model st0 tr = (Ok st, evs) ->
    anthropic.loop_cond pkg st = true ->
    anthropic.loops st = anthropic.loops st0 + Z.of_nat k.
Proof.
  induction k as [|k IH]; intros st0 tr st evs; simpl.
  - unfold ret. intros ? _; simplify_eq. lia.
  - destruct (anthropic.loop_cond pkg st0) eqn:Hc.
    + intros H Hst. inv_bind H.
      apply loop_body_Ok in Hc0 as (_ & _ & _ & _ & _ & _ & _ & _ & Hloops).
      rewrite (IH _ _ _ _ Hk Hst). lia.
    + unfold ret. intros ? Hst; simplify_eq. congruence.
Qed.

(** *** A provider that always asks for tools *)

Lemma run_tools_runnable tools content :
  Forall (runnable pkg tools) content ->
  forall req tr, exists req' evs,
    anthropic.run_tools pkg tools content req tr = (Ok req', evs).
Proof.
  induction 1 as [|b content Hb _ IH]; intros req tr; simpl.
  - unfold ret. eauto.
  - unfold runnable, is_tool_use in Hb.
    destruct (String.eqb _ _); [|apply IH].
    destruct Hb as (h & -> & Hh); [reflexivity|].
    specialize (Hh (anthropic.Input b) tr).
    destruct (h (anthropic.Input b) tr) as [[r| |] inner] eqn:Hrun; try discriminate.
    destruct (IH (anthropic.append_message req (anthropic.tool_result_message pkg b r))
                 (tr ++ [EvTool (anthropic.Name b) (anthropic.Input b) inner (Ok r)]))
      as (req' & evs & Hrest).
    exists req', ([EvTool (anthropic.Name b) (anthropic.Input b) inner (Ok r)] ++ evs).
    eapply bind_Ok; [|exact Hrest]. unfold call_tool. now rewrite Hrun.
Qed.

Lemma tool_turn_cond st :
  is_tool_turn pkg (anthropic.response st) -> anthropic.loops st < 6 ->
  anthropic.loop_cond pkg st = true.
Proof.
  intros [Hstop _] Hl. unfold anthropic.loop_cond. rewrite Hstop.
  rewrite String.eqb_refl. simpl. now apply Z.ltb_lt.
Qed.

Lemma loop_body_progress tools model st tr :
  always_tool_turn pkg client tools ->
  Forall (runnable pkg tools) (anthropic.Blocks (anthropic.response st)) ->
  exists st' evs,
    anthropic.loop_body pkg client tools model st tr = (Ok st', evs)
    /\ is_tool_turn pkg (anthropic.response st')
    /\ Forall (runnable pkg tools) (anthropic.Blocks (anthropic.response st')).
Proof.
  intros Hprov Hrun. unfold anthropic.loop_body.
  match goal with
  | |- context [anthropic.run_tools pkg tools ?c ?r] =>
      destruct (run_tools_runnable tools c Hrun r tr) as (req2 & evs1 & H1)
  end.
  destruct (Hprov (tr ++ evs1) model (anthropic.json_Marshal pkg req2))
    as (out & r & Hout & Hr & Hturn & Hblocks).
  exists {| anthropic.request := req2;
            anthropic.response := r;
            anthropic.usage :=
              anthropic.add_usage (anthropic.usage st) (anthropic.RespUsage r);
            anthropic.loops := anthropic.loops st + 1 |},
         (evs1 ++ [EvInvokeModel model (anthropic.json_Marshal pkg req2) (Ok out)] ++ []).
  split; [|split; [exact Hturn | exact Hblocks]].
  eapply bind_Ok; [exact H1|].
  eapply bind_Ok; [|reflexivity].
  rewrite invokeRequest_eq. simpl. rewrite Hout, Hr. reflexivity.
Qed.

(** With such a provider every pass gets through, as long as the
    guard lets it start: [n] passes make [n] round trips, run a tool
    each at least, and leave the last answer in [response]. *)
Lemma for_loop_always tools model n :
  always_tool_turn pkg client tools ->
  forall st tr,
    is_tool_turn pkg (anthropic.response st) ->
    Forall (runnable pkg tools) (anthropic.Blocks (anthropic.response st)) ->
    anthropic.loops st + Z.of_nat n <= 6 ->
    exists st' evs,
      anthropic.for_loop pkg client n tools model st tr = (Ok st', evs)
      /\ anthropic.loops st' = anthropic.loops st + Z.of_nat n
      /\ is_tool_turn pkg (anthropic.response st')
      /\ length (provider_calls evs) = n
      /\ (n <= length (tool_runs evs))%nat
      /\ ((0 < n)%nat ->
          exists body b,
            last evs = Some (EvInvokeModel model body (Ok b))
            /\ anthropic.json_Unmarshal pkg b = Ok (anthropic.response st')).
Proof.
  intros Hprov. induction n as [|n IH]; intros st tr Hturn Hrun Hl; simpl.
  - exists st, []. unfold ret. simpl.
    split; [reflexivity|]. split; [lia|]. split; [exact Hturn|].
    split; [reflexivity|]. split; [lia|]. intros H0. inversion H0.
  - rewrite tool_turn_cond by (auto; lia).
    destruct (loop_body_progress tools model st tr Hprov Hrun)
      as (st1 & evs1 & Hbody & Hturn1 & Hrun1).
    pose proof Hbody as Hshape.
    apply loop_body_Ok in Hshape
      as (runs & b & Hblocks & Hreq & Hb & Hr & Hevs & Husage & Hloops).
    destruct (IH st1 (tr ++ evs1) Hturn1 Hrun1)
      as (st' & evs' & Hloop & Hloops' & Hturn' & Hcalls & Htools & Hlast); [lia|].
    exists st', (evs1 ++ evs'). split; [eapply bind_Ok; eauto|].
    split; [lia|]. split; [exact Hturn'|].
    rewrite provider_calls_app, tool_runs_app, !length_app.
    subst evs1.
    rewrite provider_calls_app, tool_runs_app, provider_calls_run_events,
      tool_runs_run_events, !length_app, length_map. simpl.
    assert (Hne : (0 < length runs)%nat).
    { destruct Hturn as [_ Hne]. rewrite <- Hblocks in Hne.
      destruct runs; [contradiction | simpl; lia]. }
    split; [lia|]. split; [lia|]. intros _.
    destruct n as [|n].
    + simpl in Hloop. unfold ret in Hloop. simplify_eq.
      rewrite app_nil_r, last_snoc. eauto.
    + destruct Hlast as (body & b' & Hlast & Hr'); [lia|].
      exists body, b'. split; [|exact Hr'].
      destruct evs' as [|ev evs']; [discriminate|].
      rewrite last_app. now rewrite Hlast.
Qed.

(** The part of [Completion] before the loop, when it gets through. *)
Lemma first_turn_Ok req tr st0 evs0 :
  anthropic.first_turn pkg client req tr = (Ok st0, evs0) ->
  exists messages b,
    anthropic.transformMessages pkg (llm.Messages req) = Ok messages
    /\ anthropic.Messages (anthropic.request st0) = messages
    /\ anthropic.json_Unmarshal pkg b = Ok (anthropic.response st0)
    /\ evs0 = [EvInvokeModel (llm.ReqModel req)
                 (anthropic.json_Marshal pkg (anthropic.request st0)) (Ok b)]
    /\ llm.InputTokens (anthropic.usage st0)
       = anthropic.InputTokens (anthropic.RespUsage (anthropic.response st0))
    /\ llm.OutputTokens (anthropic.usage st0)
       = anthropic.OutputTokens (anthropic.RespUsage (anthropic.response st0))
    /\ anthropic.loops st0 = 0.
Proof.
  unfold anthropic.first_turn. intros H.
  inv_bind H. inv_bind Hk. unfold ret in Hk0. simplify_eq.
  unfold lift in Hc. simplify_eq.
  apply invokeRequest_Ok in Hc0 as (b & Hb & Hr & ->).
  exists a, b. simpl. auto 10.
Qed.

(** *** A tool that is not registered *)

Lemma run_tools_unknown tools pre b post :
  is_tool_use pkg b = true ->
  tools !! anthropic.Name b = None ->
  Forall (runnable pkg tools) pre ->
  forall req tr, exists evs,
    anthropic.run_tools pkg tools (pre ++ b :: post) req tr
      = (Err ("unknown tool " ++ anthropic.Name b)%string, evs)
    /\ provider_calls evs = [].
Proof.
  intros Hb Hnone. induction 1 as [|c pre Hc _ IH]; intros req tr; simpl.
  - unfold is_tool_use in Hb. rewrite Hb, Hnone. exists []. auto.
  - unfold runnable, is_tool_use in Hc.
    destruct (String.eqb _ _); [|apply IH].
    destruct Hc as (h & -> & Hh); [reflexivity|].
    specialize (Hh (anthropic.Input c) tr).
    destruct (h (anthropic.Input c) tr) as [[r| |] inner] eqn:Hrun; try discriminate.
    destruct (IH (anthropic.append_message req (anthropic.tool_result_message pkg c r))
                 (tr ++ [EvTool (anthropic.Name c) (anthropic.Input c) inner (Ok r)]))
      as (evs & Hrest & Hcalls).
    exists ([EvTool (anthropic.Name c) (anthropic.Input c) inner (Ok r)] ++ evs).
    split; [|exact Hcalls].
    eapply bind_Ok; [|exact Hrest]. unfold call_tool. now rewrite Hrun.
Qed.

(** *** A handler that fails *)

Lemma aborts_bind {A B} (c : Go A) (k : A -> Go B) :
  aborts_on_tool_failure c -> (forall a, aborts_on_tool_failure (k a)) ->
  aborts_on_tool_failure (bind c k).
Proof.
  intros Hc Hk tr r evs e H Hex. inv_bind H.
  - apply Exists_app in Hex as [Hex|Hex].
    + specialize (Hc _ _ _ _ Hc0 Hex). discriminate.
    + exact (Hk _ _ _ _ _ Hk0 Hex).
  - specialize (Hc _ _ _ _ Hc0 Hex). congruence.
  - specialize (Hc _ _ _ _ Hc0 Hex). discriminate.
Qed.

Lemma aborts_no_events {A} (c : Go A) :
  (forall tr, snd (c tr) = []) -> aborts_on_tool_failure c.
Proof.
  intros Hc tr r evs e H Hex. specialize (Hc tr). rewrite H in Hc. simpl in Hc.
  subst evs. inversion Hex.
Qed.

Lemma aborts_ret {A} (a : A) : aborts_on_tool_failure (ret a : Go A).
Proof. now apply aborts_no_events. Qed.

Lemma aborts_lift {A} (r : result A) : aborts_on_tool_failure (lift r : Go A).
Proof. now apply aborts_no_events. Qed.

Lemma aborts_call_tool name h input : aborts_on_tool_failure (call_tool name h input).
Proof.
  intros tr r evs e. unfold call_tool.
  destruct (h input tr) as [r' inner]. intros ? Hex; simplify_eq.
  apply Exists_cons in Hex as [(n & i & inn & Hev)|Hex]; [|inversion Hex].
  now simplify_eq.
Qed.

Lemma aborts_invokeRequest model req :
  aborts_on_tool_failure (anthropic.invokeRequest pkg client model req).
Proof.
  intros tr r evs e. rewrite invokeRequest_eq. simpl. intros ? Hex; simplify_eq.
  apply Exists_cons in Hex as [(n & i & inn & Hev)|Hex]; [discriminate|inversion Hex].
Qed.

Lemma aborts_run_tools tools content :
  forall req, aborts_on_tool_failure (anthropic.run_tools pkg tools content req).
Proof.
  induction content as [|b content IH]; intros req; simpl.
  - apply aborts_ret.
  - destruct (String.eqb _ _); [|apply IH].
    destruct (tools !! anthropic.Name b); [|now apply aborts_no_events].
    apply aborts_bind; [apply aborts_call_tool|]. intros r. apply IH.
Qed.

Lemma aborts_loop_body tools model st :
  aborts_on_tool_failure (anthropic.loop_body pkg client tools model st).
Proof.
  unfold anthropic.loop_body.
  apply aborts_bind; [apply aborts_run_tools|]. intros req2.
  apply aborts_bind; [apply aborts_invokeRequest|]. intros r. apply aborts_ret.
Qed.

Lemma aborts_for_loop tools model n :
  forall st, aborts_on_tool_failure (anthropic.for_loop pkg client n tools model st).
Proof.
  induction n as [|n IH]; intros st; simpl.
  - apply aborts_ret.
  - destruct (anthropic.loop_cond pkg st); [|apply aborts_ret].
    apply aborts_bind; [apply aborts_loop_body | exact IH].
Qed.

Lemma aborts_anthropic_Completion req :
  aborts_on_tool_failure (anthropic.Completion pkg client req).
Proof.
  unfold anthropic.Completion.
  apply aborts_bind.
  { unfold anthropic.first_turn.
    apply aborts_bind; [apply aborts_lift|]. intros messages.
    apply aborts_bind; [apply aborts_invokeRequest|]. intros r. apply aborts_ret. }
  intros st0. apply aborts_bind; [apply aborts_for_loop|]. intros st.
  unfold anthropic.reply. destruct (anthropic.Blocks _); now apply aborts_no_events.
Qed.

(** *** The usage counters *)

Lemma loop_body_deltas tools model st tr st' evs :
  anthropic.loop_body pkg client tools model st tr = (Ok st', evs) ->
  anthropic_deltas pkg evs
  = [(anthropic.InputTokens (anthropic.RespUsage (anthropic.response st')),
      anthropic.OutputTokens (anthropic.RespUsage (anthropic.response st')))]
  /\ anthropic.usage st'
     = anthropic.add_usage (anthropic.usage st)
         (anthropic.RespUsage (anthropic.response st')).
Proof.
  intros H. apply loop_body_Ok in H
    as (runs & b & _ & _ & _ & Hr & -> & Husage & _).
  split; [|exact Husage].
  rewrite anthropic_deltas_app, anthropic_deltas_run_events. simpl.
  unfold anthropic_deltas. simpl. now rewrite Hr.
Qed.

(** Through the passes of the loop the counters grow by the usage that
    the round trips reported. *)
Lemma for_loop_usage tools model n :
  forall st tr st' evs,
    anthropic.for_loop pkg client n tools model st tr = (Ok st', evs) ->
    counts_ok (usage_pair (anthropic.usage st) :: anthropic_deltas pkg evs) ->
    llm.InputTokens (anthropic.usage st')
    = llm.InputTokens (anthropic.usage st) + sum_inputs (anthropic_deltas pkg evs)
    /\ llm.OutputTokens (anthropic.usage st')
       = llm.OutputTokens (anthropic.usage st) + sum_outputs (anthropic_deltas pkg evs).
Proof.
  unfold usage_pair.
  induction n as [|n IH]; intros st tr st' evs; simpl.
  - unfold ret. intros ? _; simplify_eq. simpl. lia.
  - destruct (anthropic.loop_cond pkg st).
    + intros H Hok. inv_bind H.
      apply loop_body_deltas in Hc as [Hd Hu].
      rewrite anthropic_deltas_app, Hd in *.
      destruct Hok as (Hnn & Hi & Ho).
      apply Forall_cons in Hnn as [[Hi0 Ho0] Hnn].
      apply Forall_cons in Hnn as [[Hi1 Ho1] Hnn].
      pose proof (sum_inputs_nonneg _ Hnn) as Hsi.
      pose proof (sum_outputs_nonneg _ Hnn) as Hso.
      unfold sum_inputs, sum_outputs in Hi, Ho, Hsi, Hso. simpl in *.
      assert (Hin : llm.InputTokens (anthropic.usage a)
                    = llm.InputTokens (anthropic.usage st)
                      + anthropic.InputTokens (anthropic.RespUsage (anthropic.response a))).
      { rewrite Hu. simpl. apply int_add_exact; simpl; lia. }
      assert (Hout : llm.OutputTokens (anthropic.usage a)
                     = llm.OutputTokens (anthropic.usage st)
                       + anthropic.OutputTokens (anthropic.RespUsage (anthropic.response a))).
      { rewrite Hu. simpl. apply int_add_exact; simpl; lia. }
      destruct (IH _ _ _ _ Hk) as [Hi' Ho'].
      { repeat split; simpl.
        - constructor; [simpl; lia | exact Hnn].
        - unfold sum_inputs. simpl. lia.
        - unfold sum_outputs. simpl. lia. }
      unfold sum_inputs, sum_outputs in *. simpl in *. lia.
    + unfold ret. intros ? _; simplify_eq. simpl. lia.
Qed.

Lemma first_turn_deltas req tr st0 evs0 :
  anthropic.first_turn pkg client req tr = (Ok st0, evs0) ->
  anthropic_deltas pkg evs0 = [usage_pair (anthropic.usage st0)]
  /\ length (provider_calls evs0) = 1%nat.
Proof.
  intros H. apply first_turn_Ok in H as (messages & b & _ & _ & Hr & -> & Hi & Ho & _).
  unfold anthropic_deltas, usage_pair. simpl. rewrite Hr, Hi, Ho. auto.
Qed.

(** After the first turn and [n] passes, the counters are the sums of
    the usage of the round trips so far. *)
Lemma usage_after_passes req tr st0 evs0 tools model n st evs :
  anthropic.first_turn pkg client req tr = (Ok st0, evs0) ->
  anthropic.for_loop pkg client n tools model st0 (tr ++ evs0) = (Ok st, evs) ->
  counts_ok (anthropic_deltas pkg (evs0 ++ evs)) ->
  usage_pair (anthropic.usage st)
  = (sum_inputs (anthropic_deltas pkg (evs0 ++ evs)),
     sum_outputs (anthropic_deltas pkg (evs0 ++ evs))).
Proof.
  intros Hfirst Hloop Hok.
  apply first_turn_deltas in Hfirst as [Hd _].
  rewrite anthropic_deltas_app, Hd in *.
  destruct (for_loop_usage _ _ _ _ _ _ _ Hloop Hok) as [Hi Ho].
  unfold usage_pair, sum_inputs, sum_outputs in *. simpl. now rewrite Hi, Ho.
Qed.

(** *** A turn of text *)

Lemma anthropic_text_turn req tr st0 evs0 first rest :
  anthropic.first_turn pkg client req tr = (Ok st0, evs0) ->
  anthropic.StopReason (anthropic.response st0) <> anthropic.ContentTypeToolUse pkg ->
  anthropic.Blocks (anthropic.response st0) = first :: rest ->
  anthropic.Completion pkg client req tr
  = (Ok (Some {| llm.RespMessage :=
                   Some {| llm.Role := anthropic.RoleAssistant pkg;
                           llm.Content := TrimSpace (anthropic.Text first) |};
                 llm.RespMessages := [];
                 llm.Usage := anthropic.usage st0 |}), evs0).
Proof.
  intros Hfirst Hstop Hblocks. unfold anthropic.Completion.
  assert (Hcond : anthropic.loop_cond pkg st0 = false).
  { unfold anthropic.loop_cond. apply andb_false_iff. left.
    now apply String.eqb_neq. }
  match goal with
  | |- ?lhs = (?r, _) =>
      enough (H : lhs = (r, evs0 ++ [] ++ [])) by (now rewrite !app_nil_r in H)
  end.
  eapply bind_Ok; [exact Hfirst|].
  eapply bind_Ok; [simpl; rewrite Hcond; reflexivity|].
  unfold anthropic.reply. now rewrite Hblocks.
Qed.

End AnthropicFacts.

(** ** The Vertex adapter *)

(** Runs [Completion] symbolically: every outcome of a service, of the
    tool and of a decoder is a case. *)
Ltac vertex_cases :=
  unfold vertex.Completion, vertex.finish, vertex.send, bind, lift, call_result,
    call_tool, ret, fail, panic;
  repeat match goal with
         | |- context [match ?x with _ => _ end] =>
             lazymatch x with
             | context [match _ with _ => _ end] => fail
             | _ => destruct x eqn:?; simpl
             end
         end.

Section VertexFacts.
Variable pkg : vertex.Package.
Variable c : vertex.Client.

(** At most one tool is run and at most two calls go to the provider. *)
Lemma vertex_rounds req tr r evs :
  vertex.Completion pkg c req tr = (r, evs) ->
  (length (tool_runs evs) <= 1)%nat /\ (length (provider_calls evs) <= 2)%nat.
Proof.
  revert r evs. vertex_cases; intros res evs0 ?; simplify_eq; simpl; lia.
Qed.

Lemma vertex_aborts req : aborts_on_tool_failure (vertex.Completion pkg c req).
Proof.
  intros tr r evs e. revert r evs.
  vertex_cases; intros res evs0 ? Hex; simplify_eq;
    repeat match goal with
           | H : Exists _ (_ :: _) |- _ => apply Exists_cons in H as [(?&?&?&?)|H]
           | H : Exists _ [] |- _ => inversion H
           end; simplify_eq; reflexivity.
Qed.

(** The usage of a response is the usage of the round trips made. *)
Lemma vertex_usage req tr resp evs :
  vertex.Completion pkg c req tr = (Ok (Some resp), evs) ->
  counts_ok (vertex_deltas evs) ->
  llm.InputTokens (llm.Usage resp) = sum_inputs (vertex_deltas evs)
  /\ llm.OutputTokens (llm.Usage resp) = sum_outputs (vertex_deltas evs).
Proof.
  revert resp evs.
  unfold counts_ok, vertex_deltas, sum_inputs, sum_outputs, int_of_int32.
  vertex_cases; intros resp evs0 ? (Hnn & Hi & Ho); simplify_eq;
    unfold vertex.set_usage, vertex.add_usage, int_of_int32 in *; simpl in *;
    repeat match goal with
           | H : Forall _ (_ :: _) |- _ => apply Forall_cons in H as [[? ?] H]
           | |- context [match ?x with _ => _ end] => destruct x eqn:?; simpl in *
           | H : context [match ?x with _ => _ end] |- _ => destruct x eqn:?; simpl in *
           end;
    rewrite ?int_add_exact by (simpl in *; lia); simpl in *; lia.
Qed.

Lemma vertex_text_turn req tr history init last gen txt rest :
  llm.Messages req <> [] ->
  vertex.transformToHistory pkg (llm.Messages req) = Ok history ->
  split_last history = Some (init, last) ->
  vertexai.SendMessage (vertex.client c) tr (vertex.generative_model pkg req)
    init (genai.Parts last) = Ok gen ->
  vertex.first_parts gen = Some (genai.Text txt :: rest) ->
  exists usage,
    vertex.Completion pkg c req tr
    = (Ok (Some {| llm.RespMessage :=
                     Some {| llm.Role := vertex.RoleAssistant pkg; llm.Content := txt |};
                   llm.RespMessages := [];
                   llm.Usage := usage |}),
       [EvSendMessage (vertex.generative_model pkg req) init (genai.Parts last) (Ok gen)])
    /\ vertex_delta
         (EvSendMessage (vertex.generative_model pkg req) init (genai.Parts last) (Ok gen))
       = Some (usage_pair usage).
Proof.
  intros Hne Hh Hs Hgen Hparts. unfold vertex.Completion.
  destruct (llm.Messages req) as [|m ms]; [contradiction|].
  unfold bind, lift, vertex.send, call_result. rewrite Hh. simpl.
  rewrite Hs, app_nil_r, Hgen.
  destruct (genai.Candidates gen) as [|cand cands] eqn:Hc.
  { unfold vertex.first_parts in Hparts. rewrite Hc in Hparts. discriminate. }
  rewrite Hparts. unfold vertex.finish. rewrite Hparts. unfold ret. simpl.
  eexists. split; [reflexivity|].
  unfold vertex.set_usage, usage_pair, int_of_int32.
  destruct (genai.RespUsageMetadata gen); reflexivity.
Qed.

(** The tool that is run, if any, is the function call in the first
    part of the first answer. *)
Lemma vertex_first_call_only req tr r evs :
  vertex.Completion pkg c req tr = (r, evs) ->
  tool_runs evs = []
  \/ exists model history parts gen name args rest more,
       evs = EvSendMessage model history parts (Ok gen) :: more
       /\ vertex.first_parts gen = Some (genai.FunctionCall name args :: rest)
       /\ tool_runs evs = [name].
Proof.
  revert r evs.
  vertex_cases; intros res evs0 ?; simplify_eq;
    first [ left; reflexivity
          | right; eexists _, _, _, _, _, _, _, _; split; [reflexivity|];
            split; [eassumption | reflexivity] ].
Qed.

End VertexFacts.

(** ** The bound of the tool loop *)

(** C1, as the code has it.  When the provider answers every call with a
    tool-call turn whose tools are registered and succeed, the
    Anthropic adapter makes exactly seven provider calls, the first and
    one for each of six tool round trips, and then returns a response,
    not an error: the message is the trimmed text of the first block of
    the seventh answer.  The Vertex adapter has no loop: whatever the
    provider answers, it makes one tool round trip at most (two provider
    calls, one tool run). *)
Theorem anthropic_tool_loop_returns_after_six
    (pkg : anthropic.Package) (client : anthropic.Client)
    (req : llm.CompletionRequest event) (tr : list event) :
  always_tool_turn pkg client (anthropic.tools_of (llm.Tools req)) ->
  is_Ok (anthropic.transformMessages pkg (llm.Messages req)) = true ->
  (exists resp evs body b answer first rest,
      anthropic.Completion pkg client req tr = (Ok (Some resp), evs)
      /\ length (provider_calls evs) = 7%nat
      /\ (6 <= length (tool_runs evs))%nat
      /\ last evs = Some (EvInvokeModel (llm.ReqModel req) body (Ok b))
      /\ anthropic.json_Unmarshal pkg b = Ok answer
      /\ anthropic.Blocks answer = first :: rest
      /\ llm.RespMessage resp
         = Some {| llm.Role := anthropic.RoleAssistant pkg;
                   llm.Content := TrimSpace (anthropic.Text first) |})
  /\ (forall vpkg vclient vreq vtr r vevs,
         vertex.Completion vpkg vclient vreq vtr = (r, vevs) ->
         (length (tool_runs vevs) <= 1)%nat /\ (length (provider_calls vevs) <= 2)%nat).
Proof.
  intros Hprov Hmsgs.
  split; [|intros vpkg vclient vreq vtr r vevs; apply vertex_rounds].
  destruct (anthropic.transformMessages pkg (llm.Messages req)) as [messages| |] eqn:Hm;
    try discriminate.
  set (request0 :=
         {| anthropic.AnthropicVersion := "bedrock-2023-05-31";
            anthropic.Messages := messages;
            anthropic.System := llm.SystemPrompt req;
            anthropic.MaxTokens := llm.MaxTokens req;
            anthropic.TopP := llm.TopP req;
            anthropic.Temperature := llm.Temperature req;
            anthropic.Tools := anthropic.transformTools pkg (llm.Tools req) |}).
  destruct (Hprov tr (llm.ReqModel req) (anthropic.json_Marshal pkg request0))
    as (out & r0 & Hout & Hr0 & Hturn0 & Hrun0).
  set (st0 :=
         {| anthropic.request := request0;
            anthropic.response := r0;
            anthropic.usage :=
              {| llm.UserId := llm.ReqUserId req;
                 llm.Model := anthropic.Model r0;
                 llm.InputTokens := anthropic.InputTokens (anthropic.RespUsage r0);
                 llm.OutputTokens := anthropic.OutputTokens (anthropic.RespUsage r0) |};
            anthropic.loops := 0 |}).
  set (ev0 := EvInvokeModel (llm.ReqModel req) (anthropic.json_Marshal pkg request0) (Ok out)).
  assert (Hfirst : anthropic.first_turn pkg client req tr = (Ok st0, [ev0])).
  { unfold anthropic.first_turn.
    eapply (bind_Ok _ _ _ messages []); [unfold lift; now rewrite Hm|].
    fold request0. rewrite app_nil_r.
    eapply (bind_Ok _ _ _ r0 [ev0] _ []); [|reflexivity].
    rewrite invokeRequest_eq. simpl. now rewrite Hout, Hr0. }
  destruct (for_loop_always pkg client (anthropic.tools_of (llm.Tools req))
              (llm.ReqModel req) 6 Hprov st0 (tr ++ [ev0]) Hturn0 Hrun0)
    as (st & evs & Hloop & Hloops & Hturn & Hcalls & Htools & Hlast); [simpl; lia|].
  destruct Hlast as (body & b & Hlast & Hb); [lia|].
  destruct (anthropic.Blocks (anthropic.response st)) as [|first rest] eqn:Hblocks.
  { destruct Hturn as [_ Hne]. rewrite Hblocks in Hne. contradiction. }
  eexists _, ([ev0] ++ evs ++ []), body, b, (anthropic.response st), first, rest.
  split.
  { unfold anthropic.Completion.
    eapply bind_Ok; [exact Hfirst|].
    eapply bind_Ok; [exact Hloop|].
    unfold anthropic.reply. rewrite Hblocks. reflexivity. }
  rewrite app_nil_r.
  rewrite provider_calls_app, tool_runs_app, !length_app. simpl.
  split; [lia|]. split; [lia|].
  split; [|auto].
  destruct evs as [|ev evs]; [discriminate|].
  change (ev0 :: ev :: evs) with ([ev0] ++ ev :: evs).
  rewrite last_app. now rewrite Hlast.
Qed.

Lemma looping_stub_always_tool_turn :
  always_tool_turn Stub.looping_pkg Stub.client (anthropic.tools_of Stub.sources_ok).
Proof.
  intros tr model body.
  exists (repeat Byte.x00 (length (provider_calls tr))), Stub.tool_turn.
  split; [reflexivity|]. split.
  { simpl. destruct (length _); reflexivity. }
  split.
  { split; [reflexivity|]. vm_compute. discriminate. }
  repeat constructor. intros _. exists Stub.ok_handler. split.
  - vm_compute. reflexivity.
  - intros input tr'. reflexivity.
Defined.

Lemma anthropic_tool_loop_witness :
  exists resp evs body b answer first rest,
    anthropic.Completion Stub.looping_pkg Stub.client (Stub.request Stub.sources_ok) []
      = (Ok (Some resp), evs)
    /\ length (provider_calls evs) = 7%nat
    /\ (6 <= length (tool_runs evs))%nat
    /\ last evs = Some (EvInvokeModel "claude" body (Ok b))
    /\ anthropic.json_Unmarshal Stub.looping_pkg b = Ok answer
    /\ anthropic.Blocks answer = first :: rest
    /\ llm.RespMessage resp
       = Some {| llm.Role := "assistant";
                 llm.Content := TrimSpace (anthropic.Text first) |}.
Proof.
  refine (proj1 (anthropic_tool_loop_returns_after_six Stub.looping_pkg Stub.client
                   (Stub.request Stub.sources_ok) [] _ _)).
  - exact looping_stub_always_tool_turn.
  - reflexivity.
Defined.

(** C1 as the specification states it fails: with a provider that
    always asks for a tool, the completion of the Anthropic adapter is
    not an error.  After the sixth round trip it returns a response,
    here with an empty message, the seventh answer being a tool call. *)
Lemma tool_loop_exceeded_counterexample :
  let outcome := anthropic.Completion Stub.looping_pkg Stub.client
               (Stub.request Stub.sources_ok) [] in
  fst outcome
  = Ok (Some {| llm.RespMessage := Some {| llm.Role := "assistant"; llm.Content := "" |};
                llm.RespMessages := [];
                llm.Usage := {| llm.UserId := "user-1"; llm.Model := "claude";
                                llm.InputTokens := 70; llm.OutputTokens := 35 |} |})
  /\ is_Err (fst outcome) = false
  /\ length (provider_calls (snd outcome)) = 7%nat
  /\ tool_runs (snd outcome) = repeat "get_sources" 6.
Proof. vm_compute. auto. Qed.

(** ** A request without messages *)

(** C10.  On a request whose message list is empty, the Vertex adapter
    returns the error [no messages], and no call is made: the
    completion has no events. *)
Theorem vertex_no_messages
    (pkg : vertex.Package) (c : vertex.Client)
    (req : llm.CompletionRequest event) (tr : list event) :
  llm.Messages req = [] ->
  vertex.Completion pkg c req tr = (Err "no messages", []).
Proof. intros Hm. unfold vertex.Completion. rewrite Hm. reflexivity. Qed.

Lemma vertex_no_messages_witness :
  llm.Messages Stub.empty_request = []
  /\ vertex.Completion (Stub.vpkg Stub.ok_handler) (Stub.vclient [] Stub.no_candidates)
       Stub.empty_request [] = (Err "no messages", []).
Proof.
  split; [reflexivity|].
  apply (vertex_no_messages (Stub.vpkg Stub.ok_handler) (Stub.vclient [] Stub.no_candidates)
           Stub.empty_request []).
  reflexivity.
Defined.

(** ** An empty turn of the provider *)

(** C6, as the code has it.  When the first answer of the Vertex
    provider has no candidate, or a first candidate whose content has no
    part, [Completion] returns neither a response nor an error
    ([nil, nil]), after that one call; it does not panic. *)
Theorem vertex_empty_turn_returns_nil
    (pkg : vertex.Package) (c : vertex.Client)
    (req : llm.CompletionRequest event) (tr : list event)
    (history init : list genai.Content) (last : genai.Content)
    (gen : genai.GenerateContentResponse) :
  llm.Messages req <> [] ->
  vertex.transformToHistory pkg (llm.Messages req) = Ok history ->
  split_last history = Some (init, last) ->
  vertexai.SendMessage (vertex.client c) tr (vertex.generative_model pkg req)
    init (genai.Parts last) = Ok gen ->
  genai.Candidates gen = [] \/ vertex.first_parts gen = Some [] ->
  vertex.Completion pkg c req tr
  = (Ok None,
     [EvSendMessage (vertex.generative_model pkg req) init (genai.Parts last) (Ok gen)]).
Proof.
  intros Hne Hh Hs Hgen Hempty. unfold vertex.Completion.
  destruct (llm.Messages req) as [|m ms]; [contradiction|].
  unfold bind, lift, vertex.send, call_result. rewrite Hh. simpl.
  rewrite Hs, app_nil_r, Hgen.
  destruct Hempty as [Hc|Hp].
  - rewrite Hc. reflexivity.
  - rewrite Hp. destruct (genai.Candidates gen); reflexivity.
Qed.

Lemma vertex_empty_turn_witness :
  vertex.Completion (Stub.vpkg Stub.ok_handler) (Stub.vclient [] Stub.no_candidates)
    (Stub.request []) []
  = (Ok None,
     [EvSendMessage
        (vertex.generative_model (Stub.vpkg Stub.ok_handler) (Stub.request []))
        [] [genai.Text "question"] (Ok Stub.no_candidates)]).
Proof.
  apply (vertex_empty_turn_returns_nil
           (Stub.vpkg Stub.ok_handler) (Stub.vclient [] Stub.no_candidates)
           (Stub.request []) []
           [ {| genai.Role := "user"; genai.Parts := [genai.Text "question"] |} ]
           [] {| genai.Role := "user"; genai.Parts := [genai.Text "question"] |}
           Stub.no_candidates).
  - discriminate.
  - reflexivity.
  - reflexivity.
  - reflexivity.
  - left. reflexivity.
Defined.

(** C6 as the specification states it fails: on an answer without
    candidates the completion of the Vertex adapter is not an error. *)
Lemma empty_model_response_counterexample :
  let outcome := vertex.Completion (Stub.vpkg Stub.ok_handler)
                   (Stub.vclient [] Stub.no_candidates) (Stub.request []) [] in
  fst outcome = Ok None /\ is_Err (fst outcome) = false.
Proof. vm_compute. auto. Qed.

(** ** A tool that is not registered *)

(** C4, as the code has it.  Take any turn that the tool loop of the
    Anthropic adapter works on: the answer [response st] after [k]
    passes, with the guard of the loop true (stop reason [tool_use],
    fewer than six passes made).  When the turn has a [tool_use] block
    [b] whose name is not registered, and the tool calls before [b] in
    the turn are registered and succeed, the completion returns the
    error [unknown tool <name>], and no provider call is made after that
    turn: the events after it are runs of the earlier tools only. *)
Theorem unknown_tool_aborts
    (pkg : anthropic.Package) (client : anthropic.Client)
    (req : llm.CompletionRequest event) (tr : list event)
    (st0 st : anthropic.LoopState) (evs0 evs_k : list event) (k : nat)
    (pre post : list anthropic.Content) (b : anthropic.Content) :
  anthropic.first_turn pkg client req tr = (Ok st0, evs0) ->
  anthropic.for_loop pkg client k (anthropic.tools_of (llm.Tools req)) (llm.ReqModel req)
    st0 (tr ++ evs0) = (Ok st, evs_k) ->
  anthropic.loop_cond pkg st = true ->
  anthropic.Blocks (anthropic.response st) = pre ++ b :: post ->
  is_tool_use pkg b = true ->
  anthropic.tools_of (llm.Tools req) !! anthropic.Name b = None ->
  Forall (runnable pkg (anthropic.tools_of (llm.Tools req))) pre ->
  exists evs',
    anthropic.Completion pkg client req tr
    = (Err ("unknown tool " ++ anthropic.Name b)%string, evs0 ++ evs_k ++ evs')
    /\ provider_calls evs' = [].
Proof.
  intros Hfirst Hloop Hcond Hblocks Hb Hnone Hpre.
  set (tools := anthropic.tools_of (llm.Tools req)) in *.
  pose proof (for_loop_all_passes _ _ _ _ _ _ _ _ _ Hloop Hcond) as Hloops.
  apply first_turn_Ok in Hfirst as Hst0.
  destruct Hst0 as (_ & _ & _ & _ & _ & _ & _ & Hzero).
  assert (Hk : (k < 6)%nat).
  { unfold anthropic.loop_cond in Hcond. apply andb_true_iff in Hcond as [_ Hlt].
    apply Z.ltb_lt in Hlt. lia. }
  destruct (run_tools_unknown pkg tools pre b post Hb Hnone Hpre
              (anthropic.append_message (anthropic.request st)
                 {| anthropic.Role := anthropic.ChatMessageRoleAssistant pkg;
                    anthropic.MsgBlocks := pre ++ b :: post |})
              ((tr ++ evs0) ++ evs_k))
    as (evs' & Hrun & Hcalls).
  exists evs'. split; [|exact Hcalls].
  unfold anthropic.Completion.
  eapply bind_Ok; [exact Hfirst|].
  apply bind_Err. fold tools.
  replace 6%nat with (k + S (5 - k))%nat by lia.
  rewrite for_loop_split.
  eapply bind_Ok; [exact Hloop|].
  simpl. rewrite Hcond.
  apply bind_Err. unfold anthropic.loop_body.
  apply bind_Err. rewrite Hblocks. exact Hrun.
Qed.

Lemma unknown_tool_witness :
  exists evs',
    anthropic.Completion (Stub.pkg [] Stub.known_then_unknown_turn) Stub.client
      (Stub.request Stub.sources_ok) []
    = (Err "unknown tool lookup",
       [EvInvokeModel "claude" [] (Ok [])] ++ [] ++ evs')
    /\ provider_calls evs' = [].
Proof.
  eapply (unknown_tool_aborts (Stub.pkg [] Stub.known_then_unknown_turn) Stub.client
            (Stub.request Stub.sources_ok) [] _ _ _ _ 0
            [Stub.tool_use_block "call-1" "get_sources"] []
            (Stub.tool_use_block "call-2" "lookup")).
  - reflexivity.
  - reflexivity.
  - reflexivity.
  - reflexivity.
  - reflexivity.
  - vm_compute. reflexivity.
  - repeat constructor. intros _. exists Stub.ok_handler. split.
    + vm_compute. reflexivity.
    + intros input tr'. reflexivity.
Defined.

(** C4 as the specification states it fails, in three ways.  A seventh
    answer that asks for an unregistered tool is never looked at, and
    the completion succeeds; a turn whose registered tool fails before
    the unregistered one is reached ends with the error of the handler;
    a turn that stops for another reason than [tool_use] is not searched
    for tool calls, and the completion succeeds. *)
Lemma unknown_tool_counterexample :
  (let outcome := anthropic.Completion
                    (Stub.pkg (repeat Stub.tool_turn 6) Stub.unknown_turn) Stub.client
                    (Stub.request Stub.sources_ok) [] in
   is_Ok (fst outcome) = true /\ length (provider_calls (snd outcome)) = 7%nat)
  /\ (let outcome := anthropic.Completion
                       (Stub.pkg [] Stub.known_then_unknown_turn) Stub.client
                       (Stub.request Stub.sources_failing) [] in
      fst outcome = Err "search failed")
  /\ (let outcome := anthropic.Completion
                       (Stub.pkg [] Stub.truncated_turn) Stub.client
                       (Stub.request Stub.sources_ok) [] in
      is_Ok (fst outcome) = true).
Proof. vm_compute. auto. Qed.

(** ** A handler that fails *)

(** C5.  In both adapters, when a tool handler that the adapter ran
    returned an error, the completion returns that error, and so no
    response. *)
Theorem tool_failure_aborts
    (apkg : anthropic.Package) (aclient : anthropic.Client)
    (vpkg : vertex.Package) (vclient : vertex.Client)
    (req : llm.CompletionRequest event) (tr : list event)
    (r : result (option llm.CompletionResponse)) (evs : list event)
    (name : string) (input : gmap string any) (inner : list event) (e : error) :
  anthropic.Completion apkg aclient req tr = (r, evs)
  \/ vertex.Completion vpkg vclient req tr = (r, evs) ->
  In (EvTool name input inner (Err e)) evs ->
  r = Err e.
Proof.
  intros Hrun Hin.
  assert (Hex : Exists (tool_failed e) evs).
  { apply List.Exists_exists. exists (EvTool name input inner (Err e)).
    split; [exact Hin|]. now exists name, input, inner. }
  destruct Hrun as [Hrun|Hrun].
  - exact (aborts_anthropic_Completion apkg aclient req tr r evs e Hrun Hex).
  - exact (vertex_aborts vpkg vclient req tr r evs e Hrun Hex).
Qed.

Lemma tool_failure_witness :
  fst (anthropic.Completion Stub.looping_pkg Stub.client
         (Stub.request Stub.sources_failing) [])
  = Err "search failed".
Proof.
  apply (tool_failure_aborts Stub.looping_pkg Stub.client
           (Stub.vpkg Stub.failing_handler) (Stub.vclient [] Stub.no_candidates)
           (Stub.request Stub.sources_failing) []
           _ (snd (anthropic.Completion Stub.looping_pkg Stub.client
                     (Stub.request Stub.sources_failing) []))
           "get_sources" ∅ [] "search failed").
  - left. apply surjective_pairing.
  - vm_compute. right. left. reflexivity.
Defined.

(** ** The usage counters *)


Lemma counts_ok_compute (deltas : list (Z * Z)) :
  forallb (fun d => (0 <=? fst d) && (0 <=? snd d)) deltas
  && (sum_inputs deltas <=? int_max) && (sum_outputs deltas <=? int_max) = true ->
  counts_ok deltas.
Proof.
  intros H. apply andb_true_iff in H as [H Ho]. apply andb_true_iff in H as [Hnn Hi].
  split; [|split; now apply Z.leb_le].
  apply List.Forall_forall. intros d Hd.
  rewrite forallb_forall in Hnn. specialize (Hnn d Hd).
  apply andb_true_iff in Hnn as [H1 H2]. split; now apply Z.leb_le.
Defined.

Lemma looping_run :
  anthropic.Completion Stub.looping_pkg Stub.client (Stub.request Stub.sources_ok) []
  = Stub.looping_outcome.
Proof. vm_compute. reflexivity. Qed.

Lemma vertex_tool_run :
  vertex.Completion (Stub.vpkg Stub.ok_handler) Stub.one_tool_vclient (Stub.request []) []
  = Stub.vertex_tool_outcome.
Proof. vm_compute. reflexivity. Qed.


(** ** A turn of plain text *)

(** C9, as the code has it.  When the first answer of the provider is
    plain text (for Bedrock: a stop reason other than [tool_use] and a
    first block; for Vertex: a first part that is text), the completion
    makes that one provider call, and its usage is the usage of that
    turn.  The message of the Vertex adapter is the text itself; the
    message of the Anthropic adapter is the text of the first block
    without its leading and trailing white space. *)
Theorem plain_text_turn
    (apkg : anthropic.Package) (aclient : anthropic.Client)
    (vpkg : vertex.Package) (vclient : vertex.Client)
    (req : llm.CompletionRequest event) (tr : list event) :
  (forall st0 evs0 first rest,
      anthropic.first_turn apkg aclient req tr = (Ok st0, evs0) ->
      anthropic.StopReason (anthropic.response st0) <> anthropic.ContentTypeToolUse apkg ->
      anthropic.Blocks (anthropic.response st0) = first :: rest ->
      exists resp,
        anthropic.Completion apkg aclient req tr = (Ok (Some resp), evs0)
        /\ llm.RespMessage resp
           = Some {| llm.Role := anthropic.RoleAssistant apkg;
                     llm.Content := TrimSpace (anthropic.Text first) |}
        /\ anthropic_deltas apkg evs0 = [usage_pair (llm.Usage resp)]
        /\ length (provider_calls evs0) = 1%nat)
  /\ (forall history init last gen txt rest,
         llm.Messages req <> [] ->
         vertex.transformToHistory vpkg (llm.Messages req) = Ok history ->
         split_last history = Some (init, last) ->
         vertexai.SendMessage (vertex.client vclient) tr (vertex.generative_model vpkg req)
           init (genai.Parts last) = Ok gen ->
         vertex.first_parts gen = Some (genai.Text txt :: rest) ->
         exists resp ev,
           vertex.Completion vpkg vclient req tr = (Ok (Some resp), [ev])
           /\ ev = EvSendMessage (vertex.generative_model vpkg req) init
                     (genai.Parts last) (Ok gen)
           /\ llm.RespMessage resp
              = Some {| llm.Role := vertex.RoleAssistant vpkg; llm.Content := txt |}
           /\ vertex_delta ev = Some (usage_pair (llm.Usage resp))).
Proof.
  split.
  - intros st0 evs0 first rest Hfirst Hstop Hblocks.
    eexists. split; [eapply anthropic_text_turn; eauto|]. simpl.
    destruct (first_turn_deltas _ _ _ _ _ _ Hfirst) as [Hd Hc]. auto.
  - intros history init last gen txt rest Hne Hh Hs Hgen Hparts.
    destruct (vertex_text_turn _ _ _ _ _ _ _ _ _ _ Hne Hh Hs Hgen Hparts) as (usage & Hrun & Hd).
    eexists _, _. split; [exact Hrun|]. auto.
Qed.

Lemma plain_text_turn_witness :
  (exists resp,
      anthropic.Completion (Stub.pkg [] Stub.padded_text_turn) Stub.client
        (Stub.request Stub.sources_ok) []
      = (Ok (Some resp), [EvInvokeModel "claude" [] (Ok [])])
      /\ llm.RespMessage resp = Some {| llm.Role := "assistant"; llm.Content := "hi" |})
  /\ (exists resp ev,
         vertex.Completion (Stub.vpkg Stub.ok_handler) Stub.text_vclient (Stub.request []) []
         = (Ok (Some resp), [ev])
         /\ llm.RespMessage resp = Some {| llm.Role := "assistant"; llm.Content := " hi " |}
         /\ usage_pair (llm.Usage resp) = (3, 4)).
Proof.
  destruct (plain_text_turn (Stub.pkg [] Stub.padded_text_turn) Stub.client
              (Stub.vpkg Stub.ok_handler) Stub.text_vclient
              (Stub.request Stub.sources_ok) []) as [HA _].
  destruct (plain_text_turn (Stub.pkg [] Stub.padded_text_turn) Stub.client
              (Stub.vpkg Stub.ok_handler) Stub.text_vclient
              (Stub.request []) []) as [_ HV].
  split.
  - edestruct (HA _ _ (Stub.text_block " hi ") [] eq_refl) as (resp & Hrun & Hmsg & _).
    + vm_compute. discriminate.
    + reflexivity.
    + exists resp. split; [exact Hrun|]. rewrite Hmsg. vm_compute. reflexivity.
  - edestruct (HV [ {| genai.Role := "user"; genai.Parts := [genai.Text "question"] |} ]
                  [] {| genai.Role := "user"; genai.Parts := [genai.Text "question"] |}
                  (Stub.gen [genai.Text " hi "] (Some (3, 4))) " hi " [])
      as (resp & ev & Hrun & Hev & Hmsg & Hd).
    + discriminate.
    + reflexivity.
    + reflexivity.
    + reflexivity.
    + reflexivity.
    + exists resp, ev. split; [exact Hrun|]. split; [exact Hmsg|].
      rewrite Hev in Hd. unfold usage_pair in *. simpl in Hd. congruence.
Defined.

(** C9 as the specification states it fails: the message of the
    Anthropic adapter is not the text of the provider when that text
    begins or ends with white space. *)
Lemma plain_text_counterexample :
  let outcome := anthropic.Completion (Stub.pkg [] Stub.padded_text_turn) Stub.client
                   (Stub.request Stub.sources_ok) [] in
  anthropic.Blocks Stub.padded_text_turn = [Stub.text_block " hi "]
  /\ (exists resp,
         fst outcome = Ok (Some resp)
         /\ llm.RespMessage resp = Some {| llm.Role := "assistant"; llm.Content := "hi" |})
  /\ "hi" <> " hi ".
Proof.
  split; [reflexivity|]. split; [|discriminate].
  eexists. split; vm_compute; reflexivity.
Qed.

(** ** The tool calls of a turn *)

(** C7, as the code has it.  A pass of the tool loop of the Anthropic
    adapter that gets through has run the handler of every [tool_use]
    block of the turn, one after the other in the order of the blocks,
    and has then made the next provider call with a request whose
    messages are the earlier ones, the turn of the assistant, and one
    message with the result of each run, in the same order.  The Vertex
    adapter runs one tool at most: the function call in the first part
    of the first answer. *)
Theorem tool_calls_of_a_turn
    (pkg : anthropic.Package) (client : anthropic.Client)
    (vpkg : vertex.Package) (vclient : vertex.Client) :
  (forall tools model st tr st' evs,
      anthropic.loop_body pkg client tools model st tr = (Ok st', evs) ->
      exists runs b,
        map (fun t => fst (fst t)) runs
          = tool_blocks pkg (anthropic.Blocks (anthropic.response st))
        /\ evs = run_events runs
                   ++ [EvInvokeModel model (anthropic.json_Marshal pkg (anthropic.request st'))
                         (Ok b)]
        /\ anthropic.Messages (anthropic.request st')
           = anthropic.Messages (anthropic.request st)
               ++ {| anthropic.Role := anthropic.ChatMessageRoleAssistant pkg;
                     anthropic.MsgBlocks := anthropic.Blocks (anthropic.response st) |}
               :: result_messages pkg runs)
  /\ (forall req tr r evs,
         vertex.Completion vpkg vclient req tr = (r, evs) ->
         tool_runs evs = []
         \/ exists model history parts gen name args rest more,
              evs = EvSendMessage model history parts (Ok gen) :: more
              /\ vertex.first_parts gen = Some (genai.FunctionCall name args :: rest)
              /\ tool_runs evs = [name]).
Proof.
  split.
  - intros tools model st tr st' evs Hbody.
    apply loop_body_Ok in Hbody as (runs & b & Hblocks & Hreq & _ & _ & Hevs & _ & _).
    exists runs, b. split; [exact Hblocks|]. split; [exact Hevs|].
    rewrite Hreq, messages_fold_append. simpl. now rewrite <- app_assoc.
  - intros req tr r evs Hrun. eapply vertex_first_call_only; eauto.
Qed.

Lemma two_calls_run :
  anthropic.loop_body Stub.looping_pkg Stub.client (anthropic.tools_of Stub.sources_ok)
    "claude" (Stub.state Stub.two_calls_turn) []
  = Stub.two_calls_outcome.
Proof. vm_compute. reflexivity. Qed.

Lemma tool_calls_of_a_turn_witness :
  exists st' evs runs,
    anthropic.loop_body Stub.looping_pkg Stub.client (anthropic.tools_of Stub.sources_ok)
      "claude" (Stub.state Stub.two_calls_turn) []
    = (Ok st', evs)
    /\ map (fun t => fst (fst t)) runs
       = [Stub.tool_use_block "call-1" "get_sources"; Stub.tool_use_block "call-2" "get_sources"]
    /\ anthropic.Messages (anthropic.request st')
       = {| anthropic.Role := "assistant";
            anthropic.MsgBlocks := anthropic.Blocks Stub.two_calls_turn |}
         :: result_messages Stub.looping_pkg runs.
Proof.
  destruct (tool_calls_of_a_turn Stub.looping_pkg Stub.client
              (Stub.vpkg Stub.ok_handler) Stub.two_tools_vclient) as [HA _].
  destruct (HA _ _ _ _ _ _ two_calls_run) as (runs & b & Hblocks & Hevs & Hmsgs).
  eexists _, _, runs. split; [exact two_calls_run|]. split.
  - rewrite Hblocks. vm_compute. reflexivity.
  - exact Hmsgs.
Defined.

(** C7 as the specification states it fails: the Vertex adapter runs
    the first of the two tool calls of a turn and drops the second; the
    completion goes on to the next provider call and succeeds. *)
Lemma dropped_tool_call_counterexample :
  let outcome := vertex.Completion (Stub.vpkg Stub.ok_handler) Stub.two_tools_vclient
                   (Stub.request []) [] in
  tool_runs (snd outcome) = ["get_sources"]
  /\ length (provider_calls (snd outcome)) = 2%nat
  /\ is_Ok (fst outcome) = true.
Proof. vm_compute. auto. Qed.

(** ** The chat handler *)

Ltac chat_cases :=
  unfold chat.PostMessage, chat.StoreThread, chat.InsertModelUsage, chat.call_model,
    chat.uuid_new, chat.time_now, chat.last_content, bind, lift, call, call_result,
    ret, fail, panic;
  repeat match goal with
         | |- context [match ?x with _ => _ end] =>
             lazymatch x with
             | context [match _ with _ => _ end] => fail
             | _ => destruct x eqn:?; simpl
             end
         end.

Section ChatFacts.
Variable lib : GoLib.
Variable service : chat.Service.

Lemma stores_follow_plumbing latest evs evs' :
  forallb plumbing evs = true ->
  stores_follow_success latest (evs ++ evs') <-> stores_follow_success latest evs'.
Proof.
  induction evs as [|e evs IH]; simpl; [tauto|].
  intros H. apply andb_true_iff in H as [He H].
  destruct e; simpl in *; try discriminate; now apply IH.
Qed.

Lemma stores_follow_quiet latest evs :
  forallb plumbing evs = true -> stores_follow_success latest evs.
Proof.
  intros H. rewrite <- (app_nil_r evs). apply stores_follow_plumbing; simpl; auto.
Qed.

Lemma stored_threads_plumbing evs : forallb plumbing evs = true -> stored_threads evs = [].
Proof.
  induction evs as [|e evs IH]; simpl; [reflexivity|].
  intros H. apply andb_true_iff in H as [He H].
  destruct e; simpl in *; try discriminate; now apply IH.
Qed.

Lemma aborted_plumbing evs : forallb plumbing evs = true -> existsb completion_aborted evs = false.
Proof.
  induction evs as [|e evs IH]; simpl; [reflexivity|].
  intros H. apply andb_true_iff in H as [He H].
  destruct e; simpl in *; try discriminate; now apply IH.
Qed.

(** Resolving the names of the documents only asks the datastore for names. *)
Lemma name_sources_plumbing userId sources :
  forall tr r evs,
    chat.name_sources lib service userId sources tr = (r, evs) ->
    forallb plumbing evs = true.
Proof.
  induction sources as [|source rest IH]; intros tr r evs; simpl.
  - unfold ret. intros ?; simplify_eq. reflexivity.
  - unfold bind at 1.
    match goal with
    | |- context [match ?c tr with _ => _ end] =>
        assert (Hc : forall r1 evs1, c tr = (r1, evs1) -> forallb plumbing evs1 = true)
    end.
    { intros r1 evs1. destruct (uuid_Parse lib (pb.DocumentId source)); unfold ret, panic;
        try (intros ?; simplify_eq; reflexivity).
      unfold bind, call.
      destruct (chat.Database_GetDocumentName service tr userId a);
        unfold ret, panic; simpl; intros ?; simplify_eq; reflexivity. }
    match goal with
    | |- context [match ?c tr with _ => _ end] =>
        destruct (c tr) as [[source'| |] evs1] eqn:Hrun;
          specialize (Hc _ _ eq_refl)
    end; try (intros ?; simplify_eq; exact Hc).
    unfold bind.
    destruct (chat.name_sources lib service userId rest (tr ++ evs1))
      as [[rest'| |] evs2] eqn:Hrest;
      apply IH in Hrest; unfold ret; intros ?; simplify_eq;
      rewrite ?app_nil_r, forallb_app, Hc, Hrest; reflexivity.
Qed.

(** What [PostMessage] stores, and when. *)
Lemma PostMessage_stores prompt tr r evs :
  chat.PostMessage lib service prompt tr = (r, evs) ->
  stores_follow_success None evs
  /\ (existsb completion_aborted evs = true -> stored_threads evs = [] /\ is_Ok r = false)
  /\ (length (stored_threads evs) <= 1)%nat.
Proof.
  revert r evs. chat_cases; intros res evs0 ?; simplify_eq.
  all: repeat match goal with
              | H : chat.name_sources _ _ _ _ _ = _ |- _ =>
                  apply name_sources_plumbing in H
              end.
  all: simpl; rewrite ?app_nil_r; simpl.
  all: repeat match goal with
              | H : forallb plumbing ?l = true |- _ =>
                  rewrite ?(stored_threads_plumbing l H);
                  try (change (?a :: ?b :: ?c :: l) with ([a; b; c] ++ l))
              end.
  all: split; [|split].
  all: try tauto; try (simpl; lia); try (intros; discriminate).
  all: try (split; [reflexivity | now apply stores_follow_quiet]).
  all: intros Hab; rewrite aborted_plumbing in Hab by assumption; discriminate.
Qed.

End ChatFacts.

(** ** Persistence of the thread *)

(** C8.  In the events of a request, a thread is handed to
    [StoreThread] only after the completion has returned a response, and
    with the messages of that response; this happens once at most.
    When the completion did not return a response (an error, a panic,
    or [nil, nil]), no thread is stored and the request fails. *)
Theorem thread_stored_only_after_success
    (lib : GoLib) (service : chat.Service) (prompt : pb.Prompt)
    (tr : list event) (r : result pb.Message) (evs : list event) :
  chat.PostMessage lib service prompt tr = (r, evs) ->
  stores_follow_success None evs
  /\ (existsb completion_aborted evs = true ->
      stored_threads evs = [] /\ is_Ok r = false)
  /\ (length (stored_threads evs) <= 1)%nat.
Proof. apply PostMessage_stores. Qed.

Lemma answered_run :
  chat.PostMessage (Stub.lib insertion_sort) (Stub.service Stub.answering_model) Stub.prompt []
  = Stub.answered_outcome.
Proof. vm_compute. reflexivity. Qed.

Lemma failed_run :
  chat.PostMessage (Stub.lib insertion_sort) (Stub.service Stub.failing_model) Stub.prompt []
  = Stub.failed_outcome.
Proof. vm_compute. reflexivity. Qed.

Lemma thread_stored_witness :
  (stores_follow_success None (snd Stub.answered_outcome)
   /\ length (stored_threads (snd Stub.answered_outcome)) = 1%nat)
  /\ (stored_threads (snd Stub.failed_outcome) = []
      /\ fst Stub.failed_outcome = Err "provider down").
Proof.
  split.
  - destruct (thread_stored_only_after_success _ _ _ _ _ _ answered_run) as (H & _ & _).
    split; [exact H | reflexivity].
  - destruct (thread_stored_only_after_success _ _ _ _ _ _ failed_run) as (_ & H & _).
    split; [apply H; reflexivity | reflexivity].
Defined.

(** ** The order of the sources *)

Lemma string_compare_refl s : String.compare s s = Eq.
Proof.
  induction s as [|a s IH]; simpl; [reflexivity|].
  unfold Ascii.compare. now rewrite N.compare_refl.
Qed.

Lemma string_compare_lt_trans a :
  forall b c,
    String.compare a b = Lt -> String.compare b c = Lt -> String.compare a c = Lt.
Proof.
  induction a as [|x a IH]; intros [|y b] [|z c]; simpl; try discriminate; auto.
  destruct (Ascii.compare x y) eqn:Hxy; try discriminate;
    destruct (Ascii.compare y z) eqn:Hyz; try discriminate; intros Hab Hbc.
  - apply Ascii.compare_eq_iff in Hxy, Hyz. subst.
    unfold Ascii.compare. rewrite N.compare_refl. eauto.
  - apply Ascii.compare_eq_iff in Hxy. subst. now rewrite Hyz.
  - apply Ascii.compare_eq_iff in Hyz. subst. now rewrite Hxy.
  - unfold Ascii.compare in *.
    rewrite N.compare_lt_iff in Hxy. rewrite N.compare_lt_iff in Hyz.
    assert (H : (N_of_ascii x ?= N_of_ascii z)%N = Lt) by (rewrite N.compare_lt_iff; lia).
    now rewrite H.
Qed.

Lemma string_compare_Gt a b : String.compare a b = Gt <-> String.compare b a = Lt.
Proof.
  rewrite (String.compare_antisym b a).
  destruct (String.compare a b); simpl; split; congruence.
Qed.

(** [less] through the comparison of the documents. *)
Lemma less_compare a b :
  chat.less a b
  = match String.compare (search.DocumentId a) (search.DocumentId b) with
    | Lt => true
    | Gt => false
    | Eq => N.ltb (search.Position a) (search.Position b)
    end.
Proof.
  unfold chat.less, String.ltb.
  destruct (String.eqb _ _) eqn:He; simpl.
  - apply String.eqb_eq in He. rewrite He, string_compare_refl. reflexivity.
  - apply String.eqb_neq in He.
    destruct (String.compare _ _) eqn:Hc; try reflexivity.
    apply String.compare_eq_iff in Hc. contradiction.
Qed.

Lemma less_strict_weak : strict_weak chat.less.
Proof.
  split; [|split].
  - intros a. rewrite less_compare, string_compare_refl. apply N.ltb_irrefl.
  - intros a b c. rewrite !less_compare.
    destruct (String.compare (search.DocumentId a) (search.DocumentId b)) eqn:Hab;
      try discriminate;
      destruct (String.compare (search.DocumentId b) (search.DocumentId c)) eqn:Hbc;
      try discriminate; intros H1 H2.
    + apply String.compare_eq_iff in Hab, Hbc. rewrite Hab, Hbc, string_compare_refl.
      apply N.ltb_lt in H1, H2. apply N.ltb_lt. lia.
    + apply String.compare_eq_iff in Hab. now rewrite Hab, Hbc.
    + apply String.compare_eq_iff in Hbc. now rewrite <- Hbc, Hab.
    + now rewrite (string_compare_lt_trans _ _ _ Hab Hbc).
  - intros a b c. rewrite !less_compare.
    destruct (String.compare (search.DocumentId a) (search.DocumentId b)) eqn:Hab;
      try discriminate;
      destruct (String.compare (search.DocumentId b) (search.DocumentId c)) eqn:Hbc;
      try discriminate; intros H1 H2.
    + apply String.compare_eq_iff in Hab, Hbc. rewrite Hab, Hbc, string_compare_refl.
      apply N.ltb_ge in H1, H2. apply N.ltb_ge. lia.
    + apply String.compare_eq_iff in Hab. now rewrite Hab, Hbc.
    + apply String.compare_eq_iff in Hbc. now rewrite <- Hbc, Hab.
    + apply string_compare_Gt in Hab, Hbc.
      pose proof (string_compare_lt_trans _ _ _ Hbc Hab) as Hca.
      apply string_compare_Gt in Hca. now rewrite Hca.
Qed.

(** Where [less] does not put [b] before [a], [a] may come before [b]. *)
Lemma not_less_ordered a b :
  chat.less b a = false -> by_document_then_position a b.
Proof.
  rewrite less_compare. unfold by_document_then_position, String.ltb.
  destruct (String.compare (search.DocumentId b) (search.DocumentId a)) eqn:Hba;
    try discriminate; intros H.
  - right. apply String.compare_eq_iff in Hba. split; [auto|]. now apply N.ltb_ge.
  - left. apply string_compare_Gt in Hba. now rewrite Hba.
Qed.

(** *** Sorting by insertion *)

Section Insertion.
Context {A : Type} (less skip : A -> A -> bool).
Hypothesis Hless : strict_weak less.
Hypothesis Hskip : forall x y, skip x y = true -> less x y = false.
Hypothesis Hstop : forall x y, skip x y = false -> less y x = false.

Lemma insert_perm x l : Permutation (x :: l) (insert skip x l).
Proof.
  induction l as [|y l IH]; simpl; [reflexivity|].
  destruct (skip x y); [|reflexivity].
  rewrite perm_swap. now constructor.
Qed.

Lemma insert_sorted x l :
  StronglySorted (fun a b => less b a = false) l ->
  StronglySorted (fun a b => less b a = false) (insert skip x l).
Proof.
  destruct Hless as (_ & _ & Hneg).
  induction 1 as [|y l Hsorted IH Hy]; simpl.
  - repeat constructor.
  - destruct (skip x y) eqn:Hxy.
    + constructor; [exact IH|].
      eapply Permutation_Forall; [apply insert_perm|].
      constructor; [now apply Hskip | exact Hy].
    + constructor; [now constructor|].
      constructor; [now apply Hstop|].
      eapply List.Forall_impl; [|exact Hy]. simpl. intros z Hz.
      eapply Hneg; [exact Hz | now apply Hstop].
Qed.

Lemma fold_insert_spec l :
  Permutation l (fold_right (insert skip) [] l)
  /\ StronglySorted (fun a b => less b a = false) (fold_right (insert skip) [] l).
Proof.
  induction l as [|x l [IHp IHs]]; simpl.
  - split; constructor.
  - split; [|now apply insert_sorted].
    etransitivity; [|apply insert_perm]. now constructor.
Qed.

End Insertion.

Lemma strict_weak_asym {A} (less : A -> A -> bool) a b :
  strict_weak less -> less a b = true -> less b a = false.
Proof.
  intros (Hirr & Htrans & _) Hab.
  destruct (less b a) eqn:Hba; [|reflexivity].
  pose proof (Htrans _ _ _ Hab Hba) as Haa. now rewrite Hirr in Haa.
Qed.

Lemma insertion_sort_spec : sort_Slice_spec insertion_sort.
Proof.
  intros A less l Hless. unfold insertion_sort.
  apply fold_insert_spec; auto.
  intros x y Hxy. now apply strict_weak_asym.
Qed.

Lemma reversing_sort_spec : sort_Slice_spec reversing_sort.
Proof.
  intros A less l Hless. unfold reversing_sort.
  apply fold_insert_spec; auto.
  - intros x y Hxy. now apply negb_true_iff in Hxy.
  - intros x y Hxy. apply negb_false_iff in Hxy. now apply strict_weak_asym.
Qed.

(** Two sorted arrangements of the same elements are the same list,
    when no two of the elements are unordered. *)
Lemma sorted_perm_unique {A} (R : A -> A -> Prop) (l1 : list A) :
  forall l2,
    (forall a b, In a l1 -> In b l1 -> R a b -> R b a -> a = b) ->
    StronglySorted R l1 -> StronglySorted R l2 -> Permutation l1 l2 -> l1 = l2.
Proof.
  induction l1 as [|a l1 IH]; intros l2 Hanti H1 H2 Hp.
  - apply Permutation_nil in Hp. now subst.
  - destruct l2 as [|b l2]; [now apply Permutation_sym, Permutation_nil in Hp|].
    apply StronglySorted_inv in H1 as [H1 Ha].
    apply StronglySorted_inv in H2 as [H2 Hb].
    assert (Hab : a = b).
    { assert (Hin_a : In a (b :: l2)) by (eapply Permutation_in; [exact Hp | now left]).
      assert (Hin_b : In b (a :: l1))
        by (eapply Permutation_in; [symmetry; exact Hp | now left]).
      destruct Hin_a as [->|Hin_a]; [reflexivity|].
      destruct Hin_b as [->|Hin_b]; [reflexivity|].
      rewrite List.Forall_forall in Ha, Hb.
      apply Hanti; [now left | now right | now apply Ha | now apply Hb]. }
    subst b. f_equal.
    apply IH; auto.
    + intros x y Hx Hy. apply Hanti; now right.
    + eapply Permutation_cons_inv; exact Hp.
Qed.

Lemma StronglySorted_weaken {A} (R R' : A -> A -> Prop) l :
  (forall a b, R a b -> R' a b) -> StronglySorted R l -> StronglySorted R' l.
Proof.
  intros HR. induction 1 as [|a l _ IH Ha]; constructor; auto.
  eapply List.Forall_impl; [|exact Ha]. auto.
Qed.

(** What [get_sources] hands to [json.Marshal] is the sorted result of
    the search. *)
Lemma get_sources_marshals_sorted lib service userId prompt options parameters tr out evs :
  chat.get_sources lib service userId prompt options parameters tr = (Ok out, evs) ->
  exists query response,
    In (EvSearch query (Ok response)) evs
    /\ json_Marshal_Sources lib (chat.sort_sources lib (search.Results response)) = Ok out.
Proof.
  unfold chat.get_sources, chat.InsertModelUsage, chat.uuid_new, chat.time_now,
    bind, lift, call, call_result, ret, fail.
  repeat match goal with
         | |- context [match ?x with _ => _ end] =>
             lazymatch x with
             | context [match _ with _ => _ end] => fail
             | _ => destruct x eqn:?; simpl
             end
         end; intros ?; simplify_eq.
  eexists _, _. split; [left; reflexivity | assumption].
Qed.




(** * Further properties of the adapters and of the handler *)

(** ** Composition of computations *)

Lemma stops_on_bind {A B} failed (c : Go A) (k : A -> Go B) :
  stops_on failed c -> (forall a, stops_on failed (k a)) -> stops_on failed (bind c k).
Proof.
  intros Hc Hk tr r evs e pre ev post H Hevs Hf.
  apply bind_inv in H.
  destruct H as [(a & evs1 & evs2 & Hc1 & Hk1 & ->) | [(e' & Hc1 & ->) | (Hc1 & ->)]].
  - apply List.app_eq_app in Hevs as [l [[-> Hl]|[-> Hl]]].
    + destruct l as [|ev' l]; simpl in Hl.
      * exact (Hk a _ _ _ e [] ev post Hk1 (eq_sym Hl) Hf).
      * simplify_eq.
        destruct (Hc _ _ _ _ _ _ _ Hc1 eq_refl Hf). discriminate.
    + exact (Hk a _ _ _ e l ev post Hk1 Hl Hf).
  - destruct (Hc _ _ _ _ _ _ _ Hc1 Hevs Hf) as [? ?]. simplify_eq. auto.
  - destruct (Hc _ _ _ _ _ _ _ Hc1 Hevs Hf) as [? ?]. discriminate.
Qed.

Lemma stops_on_silent {A} failed (c : Go A) :
  (forall tr, snd (c tr) = []) -> stops_on failed c.
Proof.
  intros Hc tr r evs e pre ev post H Hevs. specialize (Hc tr). rewrite H in Hc.
  simpl in Hc. subst evs. now destruct pre.
Qed.

(** Events that cannot fail in the sense of [failed] stop nothing. *)
Lemma stops_on_never {A} failed (c : Go A) :
  events_all (fun ev => forall e, ~ failed e ev) c -> stops_on failed c.
Proof.
  intros Hc tr r evs e pre ev post H -> Hf. specialize (Hc tr). rewrite H in Hc.
  simpl in Hc. apply Forall_app in Hc as [_ Hc]. apply Forall_cons in Hc as [Hc _].
  now apply Hc in Hf.
Qed.

Lemma stops_on_call_result {A} failed (answer : list event -> result A) record :
  (forall e out, failed e (record out) -> out = Err e) ->
  stops_on failed (call_result answer record).
Proof.
  intros Hrec tr r evs e pre ev post H Hevs Hf. unfold call_result in H. simplify_eq.
  destruct pre as [|? [|? ?]]; simpl in *; simplify_eq. split; [|reflexivity].
  now apply Hrec.
Qed.

Lemma events_all_call {A} P (answer : list event -> A) record :
  (forall a, P (record a)) -> events_all P (call answer record).
Proof. intros H tr. unfold call. simpl. repeat constructor. apply H. Qed.

Lemma events_all_call_tool P name h input :
  (forall inner out, P (EvTool name input inner out)) ->
  events_all P (call_tool name h input).
Proof.
  intros H tr. unfold call_tool. destruct (h input tr). simpl. repeat constructor. apply H.
Qed.

Lemma events_all_bind {A B} P (c : Go A) (k : A -> Go B) :
  events_all P c -> (forall a, events_all P (k a)) -> events_all P (bind c k).
Proof.
  intros Hc Hk tr. specialize (Hc tr). unfold bind.
  destruct (c tr) as [[a| |] evs1]; simpl in *; auto.
  specialize (Hk a (tr ++ evs1)).
  destruct (k a (tr ++ evs1)) as [r evs2]. simpl in *.
  apply Forall_app. auto.
Qed.

Lemma events_all_silent {A} P (c : Go A) :
  (forall tr, snd (c tr) = []) -> events_all P c.
Proof. intros Hc tr. rewrite Hc. constructor. Qed.

Lemma calls_at_most_bind {A B} n m (c : Go A) (k : A -> Go B) :
  calls_at_most n c -> (forall a, calls_at_most m (k a)) ->
  calls_at_most (n + m) (bind c k).
Proof.
  intros Hc Hk tr. specialize (Hc tr). unfold bind.
  destruct (c tr) as [[a| |] evs1]; simpl in *; try lia.
  specialize (Hk a (tr ++ evs1)).
  destruct (k a (tr ++ evs1)) as [r evs2]. simpl in *.
  rewrite provider_calls_app, length_app. lia.
Qed.

Lemma calls_at_most_silent {A} (c : Go A) :
  (forall tr, snd (c tr) = []) -> calls_at_most 0 c.
Proof. intros Hc tr. rewrite Hc. simpl. lia. Qed.

Lemma calls_at_most_le {A} n m (c : Go A) :
  (n <= m)%nat -> calls_at_most n c -> calls_at_most m c.
Proof. intros Hle Hc tr. specialize (Hc tr). lia. Qed.

(** ** The Anthropic adapter: calls, registry, failures *)

Section AnthropicMore.
Variable pkg : anthropic.Package.
Variable client : anthropic.Client.

Lemma run_tools_no_calls tools content :
  forall req, events_all (fun ev => is_provider_call ev = false)
                (anthropic.run_tools pkg tools content req).
Proof.
  induction content as [|b content IH]; intros req; simpl.
  - now apply events_all_silent.
  - destruct (String.eqb _ _); [|apply IH].
    destruct (tools !! anthropic.Name b) as [h|]; [|now apply events_all_silent].
    apply events_all_bind; [|intros r; apply IH].
    intros tr. unfold call_tool. destruct (h (anthropic.Input b) tr). simpl.
    repeat constructor.
Qed.

Lemma calls_run_tools tools content req :
  calls_at_most 0 (anthropic.run_tools pkg tools content req).
Proof.
  intros tr. pose proof (run_tools_no_calls tools content req tr) as H.
  unfold provider_calls.
  induction H as [|ev evs Hev _ IH]; simpl; [lia|]. now rewrite Hev.
Qed.

Lemma calls_invokeRequest model req :
  calls_at_most 1 (anthropic.invokeRequest pkg client model req).
Proof. intros tr. rewrite invokeRequest_eq. simpl. lia. Qed.

Lemma calls_loop_body tools model st :
  calls_at_most 1 (anthropic.loop_body pkg client tools model st).
Proof.
  unfold anthropic.loop_body.
  apply (calls_at_most_bind 0 1); [apply calls_run_tools|]. intros req2.
  apply (calls_at_most_bind 1 0); [apply calls_invokeRequest|]. intros r.
  now apply calls_at_most_silent.
Qed.

Lemma calls_for_loop tools model n :
  forall st, calls_at_most n (anthropic.for_loop pkg client n tools model st).
Proof.
  induction n as [|n IH]; intros st; simpl.
  - now apply calls_at_most_silent.
  - destruct (anthropic.loop_cond pkg st).
    + apply (calls_at_most_bind 1 n); [apply calls_loop_body | exact IH].
    + apply (calls_at_most_le 0); [lia|]. now apply calls_at_most_silent.
Qed.

Lemma calls_Completion req : calls_at_most 7 (anthropic.Completion pkg client req).
Proof.
  unfold anthropic.Completion.
  apply (calls_at_most_bind 1 6).
  { unfold anthropic.first_turn.
    apply (calls_at_most_bind 0 1); [now apply calls_at_most_silent|]. intros messages.
    apply (calls_at_most_bind 1 0); [apply calls_invokeRequest|]. intros r.
    now apply calls_at_most_silent. }
  intros st0. apply (calls_at_most_bind 6 0); [apply calls_for_loop|]. intros st.
  unfold anthropic.reply. destruct (anthropic.Blocks _); now apply calls_at_most_silent.
Qed.

(** *** The registry *)

Lemma tools_of_snoc defs t :
  anthropic.tools_of (defs ++ [t])
  = <[llm.Name t := llm.Call t]> (anthropic.tools_of defs).
Proof. unfold anthropic.tools_of. now rewrite foldl_app. Qed.

Lemma tools_of_find defs name :
  anthropic.tools_of defs !! name
  = llm.Call <$> List.find (fun t => String.eqb (llm.Name t) name) (rev defs).
Proof.
  induction defs as [|t defs IH] using rev_ind.
  - reflexivity.
  - rewrite tools_of_snoc, rev_app_distr. simpl.
    destruct (String.eqb (llm.Name t) name) eqn:He.
    + apply String.eqb_eq in He. subst name. now rewrite lookup_insert_eq.
    + apply String.eqb_neq in He. rewrite lookup_insert_ne by exact He. exact IH.
Qed.

Lemma tools_of_registered defs name :
  is_Some (anthropic.tools_of defs !! name) -> In name (map llm.Name defs).
Proof.
  rewrite tools_of_find. intros [h Hh].
  destruct (List.find _ (rev defs)) as [t|] eqn:Hf; [|discriminate].
  apply List.find_some in Hf as [Hin He]. apply String.eqb_eq in He. subst name.
  apply in_map. now apply in_rev.
Qed.

Lemma run_tools_registered tools content :
  forall req,
    events_all (fun ev => forall name i inner out,
                    ev = EvTool name i inner out -> is_Some (tools !! name))
      (anthropic.run_tools pkg tools content req).
Proof.
  induction content as [|b content IH]; intros req; simpl.
  - now apply events_all_silent.
  - destruct (String.eqb _ _); [|apply IH].
    destruct (tools !! anthropic.Name b) as [h|] eqn:Hh; [|now apply events_all_silent].
    apply events_all_bind; [|intros r; apply IH].
    intros tr. unfold call_tool. destruct (h (anthropic.Input b) tr). simpl.
    repeat constructor. intros name i inner out ?; simplify_eq. rewrite Hh. eauto.
Qed.

Lemma invokeRequest_no_tools model req P :
  events_all (fun ev => forall name i inner out, ev = EvTool name i inner out -> P name)
    (anthropic.invokeRequest pkg client model req).
Proof.
  intros tr. rewrite invokeRequest_eq. simpl. repeat constructor. intros; discriminate.
Qed.

Lemma Completion_registered req :
  events_all (fun ev => forall name i inner out,
                  ev = EvTool name i inner out ->
                  is_Some (anthropic.tools_of (llm.Tools req) !! name))
    (anthropic.Completion pkg client req).
Proof.
  unfold anthropic.Completion.
  apply events_all_bind.
  { unfold anthropic.first_turn.
    apply events_all_bind; [now apply events_all_silent|]. intros messages.
    apply events_all_bind; [apply invokeRequest_no_tools|]. intros r.
    now apply events_all_silent. }
  intros st0. apply events_all_bind.
  - generalize 6%nat. intros n. revert st0.
    induction n as [|n IH]; intros st; simpl; [now apply events_all_silent|].
    destruct (anthropic.loop_cond pkg st); [|now apply events_all_silent].
    apply events_all_bind; [|exact IH].
    unfold anthropic.loop_body.
    apply events_all_bind; [apply run_tools_registered|]. intros req2.
    apply events_all_bind; [apply invokeRequest_no_tools|]. intros r.
    now apply events_all_silent.
  - intros st. unfold anthropic.reply.
    destruct (anthropic.Blocks _); now apply events_all_silent.
Qed.

(** *** A provider call that fails *)

Lemma bedrock_failed_invokeRequest model req :
  stops_on (bedrock_failed pkg) (anthropic.invokeRequest pkg client model req).
Proof.
  intros tr r evs e pre ev post. rewrite invokeRequest_eq. simpl.
  intros ? Hevs (m & b & out & Hev & Hout); simplify_eq.
  destruct pre as [|? [|? ?]]; simpl in *; simplify_eq. split; [|reflexivity].
  destruct Hout as [->|(b' & -> & Hb)]; [reflexivity | exact Hb].
Qed.

Lemma bedrock_failed_not_tool e n i inner out : ~ bedrock_failed pkg e (EvTool n i inner out).
Proof. intros (m & b & o & Hev & _). discriminate. Qed.

Lemma bedrock_failed_run_tools tools content req :
  stops_on (bedrock_failed pkg) (anthropic.run_tools pkg tools content req).
Proof.
  apply stops_on_never. intros tr.
  eapply List.Forall_impl; [|apply (run_tools_no_calls tools content req tr)].
  intros ev Hev e (m & b & o & -> & _). discriminate.
Qed.

Lemma bedrock_failed_Completion req :
  stops_on (bedrock_failed pkg) (anthropic.Completion pkg client req).
Proof.
  unfold anthropic.Completion.
  apply stops_on_bind.
  { unfold anthropic.first_turn.
    apply stops_on_bind; [now apply stops_on_silent|]. intros messages.
    apply stops_on_bind; [apply bedrock_failed_invokeRequest|]. intros r.
    now apply stops_on_silent. }
  intros st0. apply stops_on_bind.
  - generalize 6%nat. intros n. revert st0.
    induction n as [|n IH]; intros st; simpl; [now apply stops_on_silent|].
    destruct (anthropic.loop_cond pkg st); [|now apply stops_on_silent].
    apply stops_on_bind; [|exact IH].
    unfold anthropic.loop_body.
    apply stops_on_bind; [apply bedrock_failed_run_tools|]. intros req2.
    apply stops_on_bind; [apply bedrock_failed_invokeRequest|]. intros r.
    now apply stops_on_silent.
  - intros st. unfold anthropic.reply.
    destruct (anthropic.Blocks _); now apply stops_on_silent.
Qed.

(** *** The requests that are sent *)

Lemma same_settings_refl r : same_settings r r.
Proof. unfold same_settings. auto 10. Qed.

Lemma same_settings_trans r1 r2 r3 :
  same_settings r1 r2 -> same_settings r2 r3 -> same_settings r1 r3.
Proof. unfold same_settings. intuition congruence. Qed.

Lemma fold_append_settings ms :
  forall r, same_settings r (fold_left anthropic.append_message ms r).
Proof.
  induction ms as [|m ms IH]; intros r; simpl; [apply same_settings_refl|].
  eapply same_settings_trans; [|apply IH]. unfold same_settings. simpl. auto 10.
Qed.

Lemma extends_request_weaken model r1 r2 ev :
  same_settings r1 r2 ->
  anthropic.Messages r1 `prefix_of` anthropic.Messages r2 ->
  extends_request pkg model r2 ev -> extends_request pkg model r1 ev.
Proof.
  intros Hs Hp H Hcall. destruct (H Hcall) as (req' & out & -> & Hs' & Hp').
  exists req', out. split; [reflexivity|]. split.
  - eapply same_settings_trans; eauto.
  - etransitivity; eauto.
Qed.

Lemma run_events_extend model r runs :
  Forall (extends_request pkg model r) (run_events runs).
Proof.
  induction runs as [|t runs IH]; simpl; constructor; auto.
  intros Hcall. discriminate.
Qed.

Lemma loop_body_extends tools model st :
  events_all (extends_request pkg model (anthropic.request st))
    (anthropic.loop_body pkg client tools model st).
Proof.
  intros tr. unfold anthropic.loop_body, bind.
  destruct (anthropic.run_tools pkg tools _ _ tr) as [[req2| |] evs1] eqn:Hrun; simpl.
  - apply run_tools_Ok in Hrun as (runs & _ & -> & ->).
    rewrite invokeRequest_eq. simpl.
    match goal with
    | |- context [EvInvokeModel model ?body ?out] =>
        assert (Hev : extends_request pkg model (anthropic.request st)
                        (EvInvokeModel model body out))
    end.
    { intros _. eexists _, _. split; [reflexivity|]. split.
      - eapply same_settings_trans; [|apply fold_append_settings].
        unfold same_settings. simpl. auto 10.
      - rewrite messages_fold_append. simpl. rewrite <- app_assoc.
        now apply prefix_app_r. }
    destruct (bedrockruntime.InvokeModel _ _ _ _) as [b| |]; simpl;
      [destruct (anthropic.json_Unmarshal pkg b); simpl|..];
      rewrite ?app_nil_r; apply Forall_app; split;
      try apply run_events_extend; repeat constructor; exact Hev.
  - match type of Hrun with
    | anthropic.run_tools _ _ ?c ?r _ = _ =>
        pose proof (run_tools_no_calls tools c r tr) as Hno
    end.
    rewrite Hrun in Hno. simpl in Hno. eapply List.Forall_impl; [|exact Hno].
    intros ev Hev Hcall. congruence.
  - match type of Hrun with
    | anthropic.run_tools _ _ ?c ?r _ = _ =>
        pose proof (run_tools_no_calls tools c r tr) as Hno
    end.
    rewrite Hrun in Hno. simpl in Hno. eapply List.Forall_impl; [|exact Hno].
    intros ev Hev Hcall. congruence.
Qed.

Lemma for_loop_extends tools model n :
  forall st,
    events_all (extends_request pkg model (anthropic.request st))
      (anthropic.for_loop pkg client n tools model st).
Proof.
  induction n as [|n IH]; intros st; simpl; [now apply events_all_silent|].
  destruct (anthropic.loop_cond pkg st); [|now apply events_all_silent].
  intros tr. pose proof (loop_body_extends tools model st tr) as Hbody. unfold bind.
  destruct (anthropic.loop_body pkg client tools model st tr) as [[st1| |] evs1] eqn:Hb;
    simpl in *; try exact Hbody.
  apply loop_body_Ok in Hb as (runs & b & _ & Hreq & _ & _ & _ & _ & _).
  assert (Hs : same_settings (anthropic.request st) (anthropic.request st1)).
  { rewrite Hreq. eapply same_settings_trans; [|apply fold_append_settings].
    unfold same_settings. simpl. auto 10. }
  assert (Hp : anthropic.Messages (anthropic.request st)
               `prefix_of` anthropic.Messages (anthropic.request st1)).
  { rewrite Hreq, messages_fold_append. simpl. rewrite <- app_assoc.
    now apply prefix_app_r. }
  specialize (IH st1 (tr ++ evs1)).
  destruct (anthropic.for_loop pkg client n tools model st1 (tr ++ evs1)) as [r evs2].
  simpl in *. apply Forall_app. split; [exact Hbody|].
  eapply List.Forall_impl; [|exact IH]. intros ev. now apply extends_request_weaken.
Qed.

(** *** An answer without content *)

Lemma loop_body_calls tools model st tr :
  anthropic.Blocks (anthropic.response st) = [] ->
  snd (anthropic.loop_body pkg client tools model st tr) <> [].
Proof.
  intros Hblocks. unfold anthropic.loop_body. rewrite Hblocks. simpl.
  unfold bind, ret. rewrite invokeRequest_eq. simpl.
  destruct (bedrockruntime.InvokeModel _ _ _ _) as [b| |]; simpl;
    [destruct (anthropic.json_Unmarshal pkg b); simpl|..]; discriminate.
Qed.

Lemma for_loop_silent tools model n :
  forall st tr r,
    anthropic.for_loop pkg client n tools model st tr = (r, []) ->
    anthropic.Blocks (anthropic.response st) = [] ->
    r = Ok st.
Proof.
  destruct n as [|n]; intros st tr r; simpl.
  - unfold ret. intros ? _; now simplify_eq.
  - destruct (anthropic.loop_cond pkg st); [|unfold ret; intros ? _; now simplify_eq].
    intros H Hblocks. exfalso.
    pose proof (loop_body_calls tools model st tr Hblocks) as Hne.
    apply bind_inv in H.
    destruct H as [(a & evs1 & evs2 & Hc & _ & Hevs) | [(e & Hc & _) | (Hc & _)]];
      rewrite Hc in Hne; simpl in Hne; [|contradiction..].
    symmetry in Hevs. apply app_eq_nil in Hevs as [-> _]. contradiction.
Qed.

Lemma loop_body_failed_last tools model st tr r evs m body b answer :
  anthropic.loop_body pkg client tools model st tr = (r, evs) ->
  is_Ok r = false ->
  last evs = Some (EvInvokeModel m body (Ok b)) ->
  anthropic.json_Unmarshal pkg b = Ok answer ->
  False.
Proof.
  unfold anthropic.loop_body. intros H Hr Hlast Hb.
  assert (Hno : forall c rq r' evs',
             anthropic.run_tools pkg tools c rq tr = (r', evs') ->
             last evs' = Some (EvInvokeModel m body (Ok b)) -> False).
  { intros c rq r' evs' Hrun Hl.
    pose proof (run_tools_no_calls tools c rq tr) as Hall. rewrite Hrun in Hall.
    simpl in Hall. apply last_Some in Hl as (evs'' & ->).
    apply Forall_app in Hall as [_ Hall]. apply Forall_cons in Hall as [Hall _].
    discriminate. }
  inv_bind H.
  - unfold bind in Hk. rewrite invokeRequest_eq in Hk. simpl in Hk.
    destruct (bedrockruntime.InvokeModel _ _ _ _) as [b'| |] eqn:Hinv; simpl in Hk;
      [destruct (anthropic.json_Unmarshal pkg b') eqn:Hdec; simpl in Hk|..];
      unfold ret in Hk; simplify_eq; try discriminate;
      rewrite ?app_nil_r, last_snoc in Hlast; simplify_eq; congruence.
  - eauto.
  - eauto.
Qed.

Lemma for_loop_last tools model n :
  forall st tr r evs m body b answer,
    anthropic.for_loop pkg client n tools model st tr = (r, evs) ->
    last evs = Some (EvInvokeModel m body (Ok b)) ->
    anthropic.json_Unmarshal pkg b = Ok answer ->
    anthropic.Blocks answer = [] ->
    exists st', r = Ok st' /\ anthropic.response st' = answer.
Proof.
  induction n as [|n IH]; intros st tr r evs m body b answer; simpl.
  - unfold ret. intros ? Hlast; simplify_eq; try discriminate.
  - destruct (anthropic.loop_cond pkg st);
      [|unfold ret; intros ? Hlast; simplify_eq; try discriminate].
    intros H Hlast Hb Hblocks. unfold bind in H.
    destruct (anthropic.loop_body pkg client tools model st tr) as [[st1| |] evs1] eqn:Hbody.
    + destruct (anthropic.for_loop pkg client n tools model st1 (tr ++ evs1))
        as [r2 evs2] eqn:Hloop.
      simplify_eq.
      destruct evs2 as [|ev evs2].
      * rewrite app_nil_r in Hlast.
        apply loop_body_Ok in Hbody as (runs & b1 & _ & _ & _ & Hr1 & -> & _ & _).
        rewrite last_snoc in Hlast. simplify_eq.
        assert (anthropic.response st1 = answer) by congruence. subst answer.
        exists st1. split; [|reflexivity].
        eapply for_loop_silent; eauto.
      * rewrite last_app in Hlast.
        destruct (last (ev :: evs2)) as [ev'|] eqn:Hl2; [|now apply last_None in Hl2].
        simplify_eq. eapply IH; eauto.
    + simplify_eq. exfalso. eapply loop_body_failed_last; eauto.
    + simplify_eq. exfalso. eapply loop_body_failed_last; eauto.
Qed.

Lemma first_turn_failed_last req tr r evs m body b answer :
  anthropic.first_turn pkg client req tr = (r, evs) ->
  is_Ok r = false ->
  last evs = Some (EvInvokeModel m body (Ok b)) ->
  anthropic.json_Unmarshal pkg b = Ok answer ->
  False.
Proof.
  unfold anthropic.first_turn. intros H Hr Hlast Hb.
  apply bind_inv in H.
  destruct H as [(a & evs1 & evs2 & Hc & Hk & ->) | [(e & Hc & ->) | (Hc & ->)]];
    unfold lift in Hc; simplify_eq; try discriminate.
  unfold bind in Hk. rewrite invokeRequest_eq in Hk. simpl in Hk.
  destruct (bedrockruntime.InvokeModel _ _ _ _) as [b'| |] eqn:Hinv; simpl in Hk;
    [destruct (anthropic.json_Unmarshal pkg b') eqn:Hdec; simpl in Hk|..];
    unfold ret in Hk; simplify_eq; try discriminate; simpl in Hlast; simplify_eq;
    congruence.
Qed.

Lemma loop_end tools model n st0 tr r1 evs1 m0 body0 b0 m body b answer :
  anthropic.for_loop pkg client n tools model st0 tr = (r1, evs1) ->
  anthropic.json_Unmarshal pkg b0 = Ok (anthropic.response st0) ->
  last ([EvInvokeModel m0 body0 (Ok b0)] ++ evs1) = Some (EvInvokeModel m body (Ok b)) ->
  anthropic.json_Unmarshal pkg b = Ok answer ->
  anthropic.Blocks answer = [] ->
  exists st', r1 = Ok st' /\ anthropic.response st' = answer.
Proof.
  intros Hloop Hb0 Hlast Hb Hblocks.
  destruct evs1 as [|ev evs1].
  - simpl in Hlast. simplify_eq.
    assert (anthropic.response st0 = answer) by congruence. subst answer.
    exists st0. split; [|reflexivity]. eapply for_loop_silent; eauto.
  - rewrite last_app in Hlast.
    destruct (last (ev :: evs1)) as [ev'|] eqn:Hl; [|now apply last_None in Hl].
    simplify_eq. eapply for_loop_last; eauto.
Qed.

Lemma reply_silent st tr r evs : anthropic.reply pkg st tr = (r, evs) -> evs = [].
Proof.
  unfold anthropic.reply. destruct (anthropic.Blocks _); unfold ret, panic;
    intros ?; now simplify_eq.
Qed.

Lemma Completion_empty_answer req tr r evs m body b answer :
  anthropic.Completion pkg client req tr = (r, evs) ->
  last evs = Some (EvInvokeModel m body (Ok b)) ->
  anthropic.json_Unmarshal pkg b = Ok answer ->
  anthropic.Blocks answer = [] ->
  r = Panic.
Proof.
  unfold anthropic.Completion. intros H Hlast Hb Hblocks.
  apply bind_inv in H.
  destruct H as [(st0 & evs0 & evs' & Hfirst & Hk & ->) | [(e & Hfirst & ->) | (Hfirst & ->)]].
  - apply first_turn_Ok in Hfirst as (messages & b0 & _ & _ & Hr0 & -> & _).
    apply bind_inv in Hk.
    destruct Hk as [(st & evs1 & evs2 & Hloop & Hreply & ->)
                   | [(e & Hloop & ->) | (Hloop & ->)]].
    + pose proof (reply_silent _ _ _ _ Hreply) as ->. rewrite app_nil_r in Hlast.
      destruct (loop_end _ _ _ _ _ _ _ _ _ _ _ _ _ _ Hloop Hr0 Hlast Hb Hblocks)
        as (st' & Hst & Hresp).
      simplify_eq. unfold anthropic.reply in Hreply. rewrite Hblocks in Hreply.
      unfold panic in Hreply. now simplify_eq.
    + destruct (loop_end _ _ _ _ _ _ _ _ _ _ _ _ _ _ Hloop Hr0 Hlast Hb Hblocks)
        as (st' & Hst & _). discriminate.
    + destruct (loop_end _ _ _ _ _ _ _ _ _ _ _ _ _ _ Hloop Hr0 Hlast Hb Hblocks)
        as (st' & Hst & _). discriminate.
  - exfalso. eapply first_turn_failed_last; eauto.
  - reflexivity.
Qed.

End AnthropicMore.

(** ** The Vertex adapter: failures and requests *)

Lemma append_cons a p t : (String a p ++ t)%string = String a (p ++ t)%string.
Proof. reflexivity. Qed.

Lemma CutPrefix_spec s p :
  match CutPrefix s p with
  | (r, true) => s = (p ++ r)%string
  | (r, false) => r = s /\ forall t, s <> (p ++ t)%string
  end.
Proof.
  revert s. induction p as [|a p IH]; intros s; simpl; [reflexivity|].
  destruct s as [|c s]; [split; [reflexivity | discriminate]|].
  destruct (Ascii.eqb c a) eqn:Hca.
  - apply Ascii.eqb_eq in Hca. subst c. specialize (IH s).
    destruct (CutPrefix s p) as [r [|]].
    + subst s. reflexivity.
    + destruct IH as [_ IH]. split; [reflexivity|]. intros t Ht.
      rewrite append_cons in Ht. simplify_eq. now apply (IH t).
  - apply Ascii.eqb_neq in Hca. split; [reflexivity|]. intros t Ht.
    rewrite append_cons in Ht. simplify_eq.
Qed.

Lemma CutPrefix_app p r : CutPrefix (p ++ r) p = (r, true).
Proof.
  induction p as [|a p IH]; [reflexivity|].
  rewrite append_cons. simpl. now rewrite Ascii.eqb_refl, IH.
Qed.

Section VertexMore.
Variable pkg : vertex.Package.
Variable c : vertex.Client.

Lemma vertex_failed_Completion req :
  stops_on vertex_failed (vertex.Completion pkg c req).
Proof.
  intros tr r evs e pre ev post. revert r evs.
  vertex_cases; intros res evs0 ? Hevs (? & ? & ? & ->); simplify_eq;
    repeat (destruct pre as [|? pre]; simpl in *; simplify_eq); auto.
Qed.

Lemma vertex_bad_tool_result req tr r evs name input inner s e :
  vertex.Completion pkg c req tr = (r, evs) ->
  In (EvTool name input inner (Ok s)) evs ->
  vertex.json_Unmarshal pkg s = Err e ->
  r = Err e /\ length (provider_calls evs) = 1%nat
  /\ last evs = Some (EvTool name input inner (Ok s)).
Proof.
  revert r evs.
  vertex_cases; intros res evs0 ? Hin Hdec; simplify_eq; simpl in Hin;
    repeat match goal with
           | H : _ \/ _ |- _ => destruct H as [H|H]
           | H : False |- _ => contradiction
           end; simplify_eq; try congruence.
  split; [congruence | auto].
Qed.

Lemma vertex_two_calls req tr r evs ev1 ev2 :
  vertex.Completion pkg c req tr = (r, evs) ->
  provider_calls evs = [ev1; ev2] ->
  exists history init last gen name args rest inner s results out,
    vertex.transformToHistory pkg (llm.Messages req) = Ok history
    /\ split_last history = Some (init, last)
    /\ ev1 = EvSendMessage (vertex.generative_model pkg req) init (genai.Parts last) (Ok gen)
    /\ vertex.first_parts gen = Some (genai.FunctionCall name args :: rest)
    /\ evs = [ev1; EvTool name args inner (Ok s); ev2]
    /\ vertex.json_Unmarshal pkg s = Ok results
    /\ ev2 = EvSendMessage (vertex.generative_model pkg req)
               (history ++ [ {| genai.Role := vertex.RoleModel;
                                genai.Parts := [genai.FunctionCall name args] |} ])
               [genai.FunctionResponse name results] out
    /\ match out with
       | Ok gen2 =>
           match vertex.first_parts gen2 with
           | None | Some [] => r = Panic
           | Some (genai.Text txt :: _) =>
               exists usage,
                 r = Ok (Some {| llm.RespMessage :=
                                   Some {| llm.Role := vertex.RoleAssistant pkg;
                                           llm.Content := txt |};
                                 llm.RespMessages := [];
                                 llm.Usage := usage |})
           | Some (_ :: _) => r = Ok None
           end
       | Err e => r = Err e
       | Panic => r = Panic
       end.
Proof.
  revert r evs.
  vertex_cases; intros res evs0 ? Hcalls; simplify_eq; simpl in Hcalls; simplify_eq.
  all: rewrite ?app_nil_r in *.
  all: eexists _, _, _, _, _, _, _, _, _, _, _.
  all: split; [first [reflexivity | eassumption]|].
  all: split; [eassumption|]; split; [reflexivity|].
  all: split; [eassumption|]; split; [reflexivity|]; split; [eassumption|].
  all: split; [reflexivity|].
  all: repeat match goal with
              | H : _ = ?x |- context [match ?x with _ => _ end] => rewrite <- H
              | H : ?x = _ |- context [match ?x with _ => _ end] => rewrite H
              end; simpl; eauto.
Qed.

Lemma vertex_empty_history req tr :
  llm.Messages req <> [] ->
  vertex.transformToHistory pkg (llm.Messages req) = Ok [] ->
  vertex.Completion pkg c req tr = (Panic, []).
Proof.
  intros Hne Hh. unfold vertex.Completion.
  destruct (llm.Messages req); [contradiction|].
  unfold bind, lift. rewrite Hh. reflexivity.
Qed.

Lemma vertex_usage_owner req tr resp evs :
  vertex.Completion pkg c req tr = (Ok (Some resp), evs) ->
  llm.UserId (llm.Usage resp) = llm.ReqUserId req
  /\ llm.Model (llm.Usage resp) = fst (CutPrefix (llm.ReqModel req) (vertex.modelPrefix pkg)).
Proof.
  revert resp evs.
  vertex_cases; intros resp evs0 ?; simplify_eq; simpl;
    unfold vertex.add_usage, vertex.set_usage;
    repeat match goal with
           | |- context [match ?x with _ => _ end] => destruct x; simpl
           end; auto.
Qed.

End VertexMore.

(** ** The chat handler: the tool, the checks, the failures *)

Ltac get_sources_cases :=
  unfold chat.get_sources, chat.InsertModelUsage, chat.uuid_new, chat.time_now,
    bind, lift, call, call_result, ret, fail;
  repeat match goal with
         | |- context [match ?x with _ => _ end] =>
             lazymatch x with
             | context [match _ with _ => _ end] => fail
             | _ => destruct x eqn:?; simpl
             end
         end.

Section ChatMore.
Variable lib : GoLib.
Variable service : chat.Service.

(** The run of [get_sources] after a search that returned. *)
Lemma get_sources_after_search userId prompt options parameters tr r evs q resp :
  chat.get_sources lib service userId prompt options parameters tr = (r, evs) ->
  In (EvSearch q (Ok resp)) evs ->
  r = json_Marshal_Sources lib (sort_Slice lib search.Result chat.less (search.Results resp))
  /\ assert_string (parameters !! "prompt") = Some (search.QueryText q)
  /\ search.UserId q = userId
  /\ search.CollectionId q = pb.CollectionId prompt
  /\ search.Limit q = pb.Documents options
  /\ search.Threshold q = pb.Threshold options
  /\ exists id now err,
       evs = [EvSearch q (Ok resp); EvUuidNew id; EvTimeNow now;
              EvInsertModelUsage
                {| datastore.UsageId := id;
                   datastore.UsageUserId := userId;
                   datastore.UsageTimestamp := now;
                   datastore.ModelId := search.ModelId (search.RespUsage resp);
                   datastore.InputTokens := search.Tokens (search.RespUsage resp);
                   datastore.OutputTokens := 0 |} err].
Proof.
  revert r evs. get_sources_cases; intros res evs0 ? Hin; simplify_eq; simpl in Hin;
    repeat match goal with
           | H : _ \/ _ |- _ => destruct H as [H|H]
           | H : False |- _ => contradiction
           end; simplify_eq; simpl.
  all: unfold chat.sort_sources in *.
  all: repeat split; eauto.
Qed.

(** The run of [get_sources] without a search that returned. *)
Lemma get_sources_no_search userId prompt options parameters tr r evs :
  chat.get_sources lib service userId prompt options parameters tr = (r, evs) ->
  (forall q resp, ~ In (EvSearch q (Ok resp)) evs) ->
  is_Ok r = false
  /\ (forall u err, ~ In (EvInsertModelUsage u err) evs)
  /\ match assert_string (parameters !! "prompt") with
     | None => r = Err "prompt missing" /\ evs = []
     | Some query =>
         exists q out, evs = [EvSearch q out] /\ search.QueryText q = query
                       /\ match out with
                          | Ok _ => False
                          | Err e => r = Err e
                          | Panic => r = Panic
                          end
     end.
Proof.
  revert r evs. get_sources_cases; intros res evs0 ? Hno; simplify_eq.
  all: try (exfalso; eapply Hno; left; reflexivity).
  all: split; [reflexivity|]; split;
    [intros u err Hin; simpl in Hin; intuition discriminate|].
  all: try (split; reflexivity).
  all: eexists _, _; split; [reflexivity|]; split; reflexivity.
Qed.

(** Resolving the names: one lookup at most for each source, no error,
    and the sources keep their documents and chunks. *)
Lemma name_sources_spec userId sources :
  forall tr r evs,
    chat.name_sources lib service userId sources tr = (r, evs) ->
    Forall (fun ev => exists docId out, ev = EvGetDocumentName userId docId out) evs
    /\ (length evs <= length sources)%nat
    /\ is_Err r = false
    /\ (forall sources', r = Ok sources' ->
          map pb.DocumentId sources' = map pb.DocumentId sources
          /\ map pb.Chunks sources' = map pb.Chunks sources).
Proof.
  induction sources as [|source rest IH]; intros tr r evs; simpl.
  - unfold ret. intros ?; simplify_eq. repeat split; auto.
    all: intros; simplify_eq; reflexivity.
  - unfold bind, call, ret, panic.
    destruct (uuid_Parse lib (pb.DocumentId source)) as [docId| |]; simpl;
      [destruct (chat.Database_GetDocumentName service tr userId docId); simpl|..].
    all: try match goal with
             | |- context [chat.name_sources _ _ ?u ?rs ?t] =>
                 destruct (chat.name_sources lib service u rs t)
                   as [[rest'| |] evs2] eqn:Hrest;
                 apply IH in Hrest as (Hall & Hlen & Hne & Hkeep); simpl
             end.
    all: intros ?; simplify_eq; simpl; rewrite ?app_nil_r.
    all: repeat split; eauto; try lia; try discriminate.
    all: try (constructor; eauto).
    all: try (intros; simplify_eq; simpl;
              destruct (Hkeep _ eq_refl) as [-> ->]; split; reflexivity).
    all: try (intros; discriminate).
    all: simplify_eq; simpl; destruct (Hkeep _ eq_refl) as [Hd Hc]; congruence.
Qed.

Lemma name_sources_never_fails userId sources :
  events_all (fun ev => forall e, ~ service_failed e ev)
    (chat.name_sources lib service userId sources).
Proof.
  intros tr.
  destruct (chat.name_sources lib service userId sources tr) as [r evs] eqn:Hrun.
  apply name_sources_spec in Hrun as (Hall & _). simpl.
  eapply List.Forall_impl; [|exact Hall].
  intros ev (docId & out & ->) e [H|[(?&?&H)|[(?&H)|(?&H)]]]; discriminate.
Qed.

(** The handler stops at the first collaborator that fails. *)
Lemma PostMessage_stops prompt :
  stops_on service_failed (chat.PostMessage lib service prompt).
Proof.
  assert (Hcall : forall A (answer : list event -> A) record,
             (forall a e, ~ service_failed e (record a)) ->
             stops_on service_failed (call answer record)).
  { intros A answer record Hrec. apply stops_on_never, events_all_call.
    intros a e. apply Hrec. }
  unfold chat.PostMessage.
  apply stops_on_bind.
  { apply stops_on_call_result.
    intros e out [H|[(?&?&H)|[(?&H)|(?&H)]]]; simplify_eq. reflexivity. }
  intros userId. apply stops_on_bind.
  { destruct (uuid_Parse _ _); now apply stops_on_silent. }
  intros collectionId.
  destruct (pb.GetModelOptions prompt) as [modelOps|]; [|now apply stops_on_silent].
  destruct (pb.GetRetrievalOptions prompt) as [retrievalOptions|];
    [|now apply stops_on_silent].
  apply stops_on_bind; [now apply stops_on_silent|]. intros model.
  apply stops_on_bind.
  { destruct (negb _).
    - apply stops_on_bind; [now apply stops_on_silent|]. intros threadId.
      apply stops_on_call_result.
      intros e out [H|[(?&?&H)|[(?&H)|(?&H)]]]; simplify_eq. reflexivity.
    - apply stops_on_bind.
      { apply Hcall. intros a e [H|[(?&?&H)|[(?&H)|(?&H)]]]; discriminate. }
      intros id. apply stops_on_bind.
      { apply Hcall. intros a e [H|[(?&?&H)|[(?&H)|(?&H)]]]; discriminate. }
      intros now. now apply stops_on_silent. }
  intros thread. apply stops_on_bind.
  { intros tr r evs e pre ev post. unfold chat.call_model.
    match goal with |- context [model ?rq tr] => destruct (model rq tr) as [r' inner] end.
    intros ? Hevs Hf; simplify_eq.
    destruct pre as [|? [|? ?]]; simpl in *; simplify_eq.
    destruct Hf as [H|[(?&?&H)|[(?&H)|(?&H)]]]; simplify_eq. auto. }
  intros [resp|]; [|now apply stops_on_silent].
  apply stops_on_bind.
  { intros tr r evs e pre ev post. unfold chat.StoreThread, bind, call, fail, ret. simpl.
    match goal with
    | |- context [chat.Database_StoreThread service tr ?t] =>
        destruct (chat.Database_StoreThread service tr t)
    end; simpl; intros ? Hevs Hf; simplify_eq;
      destruct pre as [|? [|? ?]]; simpl in *; simplify_eq;
      destruct Hf as [H|[(?&?&H)|[(?&H)|(?&H)]]]; simplify_eq; auto. }
  intros _. apply stops_on_bind.
  { apply Hcall. intros a e [H|[(?&?&H)|[(?&H)|(?&H)]]]; discriminate. }
  intros id. apply stops_on_bind.
  { apply Hcall. intros a e [H|[(?&?&H)|[(?&H)|(?&H)]]]; discriminate. }
  intros now. apply stops_on_bind.
  { apply Hcall. intros a e [H|[(?&?&H)|[(?&H)|(?&H)]]]; discriminate. }
  intros _. apply stops_on_bind.
  { apply stops_on_never, name_sources_never_fails. }
  intros sources. apply stops_on_bind.
  { unfold chat.last_content. destruct (split_last _) as [[? ?]|]; now apply stops_on_silent. }
  intros completion. now apply stops_on_silent.
Qed.

Lemma split_last_app {A} (l : list A) init x :
  split_last l = Some (init, x) -> l = init ++ [x].
Proof.
  revert init x. induction l as [|y l IH]; intros init x; simpl; [discriminate|].
  destruct (split_last l) as [[init' z]|] eqn:Hl.
  - intros ?; simplify_eq. simpl. f_equal. now apply IH.
  - intros ?; simplify_eq. destruct l as [|z l]; [reflexivity|].
    simpl in Hl. destruct (split_last l) as [[? ?]|]; discriminate.
Qed.

(** Nothing but the funding check happens before the checks of the
    prompt have passed. *)
Lemma PostMessage_checks prompt tr r evs :
  chat.PostMessage lib service prompt tr = (r, evs) ->
  existsb (fun ev => negb (is_funding_check ev)) evs = true ->
  exists userId collectionId modelOps retrievalOptions model,
    chat.Auth_VerifyFunding service tr = Ok userId
    /\ uuid_Parse lib (pb.CollectionId prompt) = Ok collectionId
    /\ pb.GetModelOptions prompt = Some modelOps
    /\ pb.GetRetrievalOptions prompt = Some retrievalOptions
    /\ chat.getModel service (pb.ModelId modelOps) = Ok model.
Proof.
  revert r evs. chat_cases; intros res evs0 ? Hex; simplify_eq; simpl in Hex;
    try discriminate.
  all: eexists _, _, _, _, _; repeat split; eauto.
Qed.

(** What a prompt that fails a check is answered with. *)
Lemma PostMessage_rejects prompt tr userId :
  chat.Auth_VerifyFunding service tr = Ok userId ->
  match uuid_Parse lib (pb.CollectionId prompt) with
  | Err _ =>
      chat.PostMessage lib service prompt tr
      = (Err "invalid collection id", [EvVerifyFunding (Ok userId)])
  | Panic => True
  | Ok _ =>
      match pb.GetModelOptions prompt, pb.GetRetrievalOptions prompt with
      | None, _ =>
          chat.PostMessage lib service prompt tr
          = (Err "options missing", [EvVerifyFunding (Ok userId)])
      | Some _, None =>
          chat.PostMessage lib service prompt tr
          = (Err "retrieval options missing", [EvVerifyFunding (Ok userId)])
      | Some modelOps, Some _ =>
          forall e, chat.getModel service (pb.ModelId modelOps) = Err e ->
                    chat.PostMessage lib service prompt tr
                    = (Err e, [EvVerifyFunding (Ok userId)])
      end
  end.
Proof.
  intros Hfund. unfold chat.PostMessage, bind, call_result, lift, fail, ret.
  rewrite Hfund. simpl.
  destruct (uuid_Parse lib (pb.CollectionId prompt)); simpl; auto.
  destruct (pb.GetModelOptions prompt) as [modelOps|]; simpl; auto.
  destruct (pb.GetRetrievalOptions prompt); simpl; auto.
  intros e He. rewrite He. reflexivity.
Qed.

(** The answer of a request that succeeds. *)
Lemma PostMessage_answer prompt tr msg evs :
  chat.PostMessage lib service prompt tr = (Ok msg, evs) ->
  exists inner resp init m thread usage err,
    In (EvCompletion inner (Ok (Some resp))) evs
    /\ llm.RespMessages resp = init ++ [m]
    /\ In (EvStoreThread thread None) evs
    /\ datastore.Messages thread = llm.RespMessages resp
    /\ In (EvInsertModelUsage usage err) evs
    /\ datastore.InputTokens usage = llm.InputTokens (llm.Usage resp)
    /\ datastore.OutputTokens usage = llm.OutputTokens (llm.Usage resp)
    /\ pb.MsgThreadId msg = uuid_String lib (datastore.Id thread)
    /\ pb.MsgPrompt msg = pb.PromptText prompt
    /\ pb.Completion msg = llm.Content m
    /\ map pb.DocumentId (pb.Sources msg)
       = map pb.DocumentId (chat.getSources service (llm.RespMessages resp))
    /\ map pb.Chunks (pb.Sources msg)
       = map pb.Chunks (chat.getSources service (llm.RespMessages resp)).
Proof.
  revert msg evs. chat_cases; intros msg evs0 ?; simplify_eq.
  all: match goal with
       | H : chat.name_sources _ _ _ _ _ = _ |- _ =>
           apply name_sources_spec in H as (_ & _ & _ & Hkeep);
           destruct (Hkeep _ eq_refl) as [Hd Hc]
       end.
  all: match goal with
       | H : split_last _ = Some _ |- _ => apply split_last_app in H; simpl in H
       end.
  all: eexists _, _, _, _, _, _, _.
  all: split; [simpl; eauto 10|].
  all: split; [eassumption|].
  all: split; [simpl; eauto 10|].
  all: split; [reflexivity|].
  all: split; [simpl; eauto 10|].
  all: simpl; repeat split; auto.
Qed.

(** The request that the model is called with. *)
Lemma PostMessage_request prompt tr r evs inner out :
  chat.PostMessage lib service prompt tr = (r, evs) ->
  In (EvCompletion inner out) evs ->
  exists userId modelOps retrievalOptions model pre post messages request,
    chat.Auth_VerifyFunding service tr = Ok userId
    /\ pb.GetModelOptions prompt = Some modelOps
    /\ pb.GetRetrievalOptions prompt = Some retrievalOptions
    /\ chat.getModel service (pb.ModelId modelOps) = Ok model
    /\ evs = pre ++ EvCompletion inner out :: post
    /\ model request (tr ++ pre) = (out, inner)
    /\ (if String.eqb (pb.ThreadId prompt) "" then messages = []
        else exists threadId thread,
               uuid_Parse lib (pb.ThreadId prompt) = Ok threadId
               /\ In (EvGetThread userId threadId (Ok thread)) pre
               /\ messages = datastore.Messages thread)
    /\ llm.Messages request
       = messages ++ [ {| llm.Role := chat.RoleUser service;
                          llm.Content := pb.PromptText prompt |} ]
    /\ llm.ReqModel request = pb.ModelId modelOps
    /\ llm.MaxTokens request = Z.of_N (pb.MaxTokens modelOps)
    /\ llm.TopP request = pb.TopP modelOps
    /\ llm.Temperature request = pb.Temperature modelOps
    /\ llm.ReqUserId request = userId
    /\ llm.Tools request = [chat.get_sources_tool lib service userId prompt retrievalOptions].
Proof.
  revert r evs. chat_cases; intros res evs0 ? Hin; simplify_eq.
  all: rewrite ?app_nil_r, <- ?app_assoc in *; simpl in *.
  all: try match goal with
           | H : chat.name_sources _ _ _ _ _ = _ |- _ =>
               apply name_sources_spec in H as (Hall & _)
           end.
  all: repeat match goal with
              | H : _ \/ _ |- _ => destruct H as [H|H]
              | H : False |- _ => contradiction
              end; simplify_eq.
  all: try match goal with
           | Hall : Forall _ ?l, H : In _ ?l |- _ =>
               rewrite List.Forall_forall in Hall;
               apply Hall in H as (? & ? & ?); discriminate
           end.
  all: match goal with
       | H : ?model ?rq (_ ++ ?pre) = (_, _) |- _ =>
           exists (llm.ReqUserId rq); eexists _, _; exists model, pre; eexists _, _; exists rq
       end.
  all: simpl.
  all: repeat match goal with
              | |- _ /\ _ => split
              end; try reflexivity; try eassumption.
  all: eexists _, _; split; [reflexivity|]; split; [right; left; reflexivity | reflexivity].
Qed.

(** The usage of the completion is recorded once the thread is stored,
    and only then; what the record returns does not matter. *)
Lemma PostMessage_usage_record prompt tr r evs :
  chat.PostMessage lib service prompt tr = (r, evs) ->
  (forall thread,
      In (EvStoreThread thread None) evs ->
      is_Err r = false
      /\ exists userId modelOps inner resp id now err,
           chat.Auth_VerifyFunding service tr = Ok userId
           /\ pb.GetModelOptions prompt = Some modelOps
           /\ In (EvCompletion inner (Ok (Some resp))) evs
           /\ In (EvInsertModelUsage
                    {| datastore.UsageId := id;
                       datastore.UsageUserId := userId;
                       datastore.UsageTimestamp := now;
                       datastore.ModelId := pb.ModelId modelOps;
                       datastore.InputTokens := llm.InputTokens (llm.Usage resp);
                       datastore.OutputTokens := llm.OutputTokens (llm.Usage resp) |} err) evs)
  /\ (forall u err,
         In (EvInsertModelUsage u err) evs ->
         exists thread, In (EvStoreThread thread None) evs).
Proof.
  revert r evs. chat_cases; intros res evs0 ?; simplify_eq.
  all: rewrite ?app_nil_r, <- ?app_assoc in *; simpl in *.
  all: try match goal with
           | H : chat.name_sources _ _ _ _ _ = _ |- _ =>
               apply name_sources_spec in H as (Hall & _ & Hne & _);
               rewrite List.Forall_forall in Hall
           end.
  all: try discriminate.
  all: split; [intros thread Hin | intros u err Hin].
  all: repeat match goal with
              | H : _ \/ _ |- _ => destruct H as [H|H]
              | H : False |- _ => contradiction
              end; simplify_eq.
  all: try match goal with
           | Hall : forall x, In x ?l -> _, H : In _ ?l |- _ =>
               apply Hall in H as (? & ? & ?); discriminate
           end.
  all: try (split; [reflexivity|]; eexists _, _, _, _, _, _, _;
            split; [reflexivity|]; split; [reflexivity|]; split;
            solve [simpl; repeat (first [left; reflexivity | right])]).
  all: eexists; solve [simpl; repeat (first [left; reflexivity | right])].
Qed.

End ChatMore.

(** ** The usage counters beyond the range of [int] *)

Lemma wrap_int_mod z : wrap_int z mod 2 ^ 64 = z mod 2 ^ 64.
Proof.
  unfold wrap_int. rewrite Zminus_mod_idemp_l. f_equal. lia.
Qed.

Lemma int_add_mod a b c :
  a mod 2 ^ 64 = c mod 2 ^ 64 -> int_add a b mod 2 ^ 64 = (c + b) mod 2 ^ 64.
Proof.
  intros H. unfold int_add. rewrite wrap_int_mod.
  rewrite <- (Zplus_mod_idemp_l a), H, Zplus_mod_idemp_l. reflexivity.
Qed.

Section UsageModulo.
Variable pkg : anthropic.Package.
Variable client : anthropic.Client.

Lemma for_loop_usage_mod tools model n :
  forall st tr st' evs,
    anthropic.for_loop pkg client n tools model st tr = (Ok st', evs) ->
    llm.InputTokens (anthropic.usage st') mod 2 ^ 64
    = (llm.InputTokens (anthropic.usage st) + sum_inputs (anthropic_deltas pkg evs)) mod 2 ^ 64
    /\ llm.OutputTokens (anthropic.usage st') mod 2 ^ 64
       = (llm.OutputTokens (anthropic.usage st) + sum_outputs (anthropic_deltas pkg evs))
           mod 2 ^ 64.
Proof.
  induction n as [|n IH]; intros st tr st' evs; simpl.
  - unfold ret. intros ?; simplify_eq. simpl. rewrite !Z.add_0_r. auto.
  - destruct (anthropic.loop_cond pkg st).
    + intros H. inv_bind H.
      apply (loop_body_deltas pkg client) in Hc as [Hd Hu].
      destruct (IH _ _ _ _ Hk) as [Hi Ho].
      rewrite (anthropic_deltas_app pkg), Hd, sum_inputs_app, sum_outputs_app.
      rewrite Hi, Ho, Hu. unfold sum_inputs at 2, sum_outputs at 2. simpl.
      rewrite !Z.add_0_r, !Z.add_assoc. split.
      * rewrite <- (Zplus_mod_idemp_l (int_add _ _)).
        rewrite (int_add_mod _ _ _ eq_refl), Zplus_mod_idemp_l. reflexivity.
      * rewrite <- (Zplus_mod_idemp_l (int_add _ _)).
        rewrite (int_add_mod _ _ _ eq_refl), Zplus_mod_idemp_l. reflexivity.
    + unfold ret. intros ?; simplify_eq. simpl. rewrite !Z.add_0_r. auto.
Qed.

Lemma anthropic_usage_mod req tr resp evs :
  anthropic.Completion pkg client req tr = (Ok (Some resp), evs) ->
  llm.InputTokens (llm.Usage resp) mod 2 ^ 64
  = sum_inputs (anthropic_deltas pkg evs) mod 2 ^ 64
  /\ llm.OutputTokens (llm.Usage resp) mod 2 ^ 64
     = sum_outputs (anthropic_deltas pkg evs) mod 2 ^ 64.
Proof.
  unfold anthropic.Completion. intros Hrun.
  inv_bind Hrun. inv_bind Hk.
  unfold anthropic.reply in Hk0.
  destruct (anthropic.Blocks (anthropic.response a0)); [discriminate|].
  unfold ret in Hk0. simplify_eq. simpl. rewrite app_nil_r.
  apply (first_turn_deltas pkg client) in Hc as [Hd _].
  destruct (for_loop_usage_mod _ _ _ _ _ _ _ Hc0) as [Hi Ho].
  rewrite (anthropic_deltas_app pkg), Hd, sum_inputs_app, sum_outputs_app.
  rewrite Hi, Ho. unfold usage_pair, sum_inputs at 1, sum_outputs at 1. simpl.
  rewrite !Z.add_0_r. auto.
Qed.

End UsageModulo.

Lemma vertex_usage_mod pkg c req tr resp evs :
  vertex.Completion pkg c req tr = (Ok (Some resp), evs) ->
  llm.InputTokens (llm.Usage resp) mod 2 ^ 64
  = sum_inputs (vertex_deltas evs) mod 2 ^ 64
  /\ llm.OutputTokens (llm.Usage resp) mod 2 ^ 64
     = sum_outputs (vertex_deltas evs) mod 2 ^ 64.
Proof.
  revert resp evs.
  unfold vertex_deltas, sum_inputs, sum_outputs.
  vertex_cases; intros resp evs0 ?; simplify_eq;
    unfold vertex.set_usage, vertex.add_usage, int_of_int32 in *; simpl in *;
    repeat match goal with
           | |- context [match ?x with _ => _ end] => destruct x eqn:?; simpl in *
           end;
    rewrite ?Z.add_0_r; auto;
    split; (apply int_add_mod; reflexivity) || (rewrite ?Z.add_0_r; reflexivity).
Qed.

(** ** The Anthropic adapter, whatever the provider does *)

Section AnthropicLast.
Variable pkg : anthropic.Package.
Variable client : anthropic.Client.

Lemma first_turn_events req tr r evs messages :
  anthropic.first_turn pkg client req tr = (r, evs) ->
  anthropic.transformMessages pkg (llm.Messages req) = Ok messages ->
  (exists out,
      evs = [EvInvokeModel (llm.ReqModel req)
               (anthropic.json_Marshal pkg
                  {| anthropic.AnthropicVersion := "bedrock-2023-05-31";
                     anthropic.Messages := messages;
                     anthropic.System := llm.SystemPrompt req;
                     anthropic.MaxTokens := llm.MaxTokens req;
                     anthropic.TopP := llm.TopP req;
                     anthropic.Temperature := llm.Temperature req;
                     anthropic.Tools := anthropic.transformTools pkg (llm.Tools req) |})
               out])
  /\ (forall st0, r = Ok st0 ->
        anthropic.request st0
        = {| anthropic.AnthropicVersion := "bedrock-2023-05-31";
             anthropic.Messages := messages;
             anthropic.System := llm.SystemPrompt req;
             anthropic.MaxTokens := llm.MaxTokens req;
             anthropic.TopP := llm.TopP req;
             anthropic.Temperature := llm.Temperature req;
             anthropic.Tools := anthropic.transformTools pkg (llm.Tools req) |}).
Proof.
  intros H Hm. unfold anthropic.first_turn in H.
  unfold bind at 1 in H. unfold lift at 1 in H. rewrite Hm in H. simpl in H.
  unfold bind in H. rewrite (invokeRequest_eq pkg client) in H. simpl in H.
  destruct (bedrockruntime.InvokeModel _ _ _ _) as [b| |]; simpl in H;
    [destruct (anthropic.json_Unmarshal pkg b) as [r0| |]; simpl in H|..];
    unfold ret in H; simplify_eq; (split; [eexists; reflexivity|]);
    intros st0 ?; simplify_eq; reflexivity.
Qed.

Lemma Completion_extends req tr r evs messages :
  anthropic.Completion pkg client req tr = (r, evs) ->
  anthropic.transformMessages pkg (llm.Messages req) = Ok messages ->
  Forall
    (extends_request pkg (llm.ReqModel req)
       {| anthropic.AnthropicVersion := "bedrock-2023-05-31";
          anthropic.Messages := messages;
          anthropic.System := llm.SystemPrompt req;
          anthropic.MaxTokens := llm.MaxTokens req;
          anthropic.TopP := llm.TopP req;
          anthropic.Temperature := llm.Temperature req;
          anthropic.Tools := anthropic.transformTools pkg (llm.Tools req) |})
    evs.
Proof.
  unfold anthropic.Completion. intros H Hm.
  assert (Hfirst : forall r0 evs0,
             anthropic.first_turn pkg client req tr = (r0, evs0) ->
             Forall
               (extends_request pkg (llm.ReqModel req)
                  {| anthropic.AnthropicVersion := "bedrock-2023-05-31";
                     anthropic.Messages := messages;
                     anthropic.System := llm.SystemPrompt req;
                     anthropic.MaxTokens := llm.MaxTokens req;
                     anthropic.TopP := llm.TopP req;
                     anthropic.Temperature := llm.Temperature req;
                     anthropic.Tools := anthropic.transformTools pkg (llm.Tools req) |})
               evs0).
  { intros r0 evs0 H0.
    destruct (first_turn_events _ _ _ _ _ H0 Hm) as [(out & ->) _].
    repeat constructor. intros _. eexists _, _. split; [reflexivity|]. split.
    - apply same_settings_refl.
    - reflexivity. }
  apply bind_inv in H.
  destruct H as [(st0 & evs0 & evs' & Hc & Hk & ->) | [(e & Hc & ->) | (Hc & ->)]];
    try (eapply Hfirst; eassumption).
  apply Forall_app. split; [eapply Hfirst; eassumption|].
  destruct (first_turn_events _ _ _ _ _ Hc Hm) as [_ Hreq].
  specialize (Hreq _ eq_refl).
  assert (Hloop : forall r1 evs1,
             anthropic.for_loop pkg client 6 (anthropic.tools_of (llm.Tools req))
               (llm.ReqModel req) st0 (tr ++ evs0) = (r1, evs1) ->
             Forall (extends_request pkg (llm.ReqModel req) (anthropic.request st0)) evs1).
  { intros r1 evs1 H1.
    pose proof (for_loop_extends pkg client (anthropic.tools_of (llm.Tools req))
                  (llm.ReqModel req) 6 st0 (tr ++ evs0)) as Hall.
    rewrite H1 in Hall. exact Hall. }
  rewrite Hreq in Hloop.
  apply bind_inv in Hk.
  destruct Hk as [(st & evs1 & evs2 & Hl & Hr & ->) | [(e & Hl & ->) | (Hl & ->)]];
    try (eapply Hloop; eassumption).
  apply (reply_silent pkg) in Hr. subst evs2. rewrite app_nil_r.
  eapply Hloop; eassumption.
Qed.

Lemma for_loop_owner tools model n :
  forall st tr st' evs,
    anthropic.for_loop pkg client n tools model st tr = (Ok st', evs) ->
    llm.UserId (anthropic.usage st') = llm.UserId (anthropic.usage st)
    /\ llm.Model (anthropic.usage st') = llm.Model (anthropic.usage st).
Proof.
  induction n as [|n IH]; intros st tr st' evs; simpl.
  - unfold ret. intros ?; simplify_eq. auto.
  - destruct (anthropic.loop_cond pkg st); [|unfold ret; intros ?; simplify_eq; auto].
    intros H. inv_bind H.
    apply (loop_body_Ok pkg client) in Hc as (runs & b & _ & _ & _ & _ & _ & Hu & _).
    destruct (IH _ _ _ _ Hk) as [-> ->]. rewrite Hu. auto.
Qed.

Lemma first_turn_owner req tr st0 evs0 :
  anthropic.first_turn pkg client req tr = (Ok st0, evs0) ->
  llm.UserId (anthropic.usage st0) = llm.ReqUserId req
  /\ llm.Model (anthropic.usage st0) = anthropic.Model (anthropic.response st0).
Proof.
  unfold anthropic.first_turn, bind, lift.
  destruct (anthropic.transformMessages pkg (llm.Messages req)); simpl;
    try (intros ?; discriminate).
  rewrite (invokeRequest_eq pkg client). simpl.
  destruct (bedrockruntime.InvokeModel _ _ _ _) as [b| |]; simpl;
    [destruct (anthropic.json_Unmarshal pkg b) as [r0| |]; simpl|..];
    unfold ret; intros ?; simplify_eq. auto.
Qed.

Lemma Completion_owner req tr resp evs :
  anthropic.Completion pkg client req tr = (Ok (Some resp), evs) ->
  llm.UserId (llm.Usage resp) = llm.ReqUserId req
  /\ exists body b first rest,
       evs = EvInvokeModel (llm.ReqModel req) body (Ok b) :: rest
       /\ anthropic.json_Unmarshal pkg b = Ok first
       /\ llm.Model (llm.Usage resp) = anthropic.Model first.
Proof.
  unfold anthropic.Completion. intros H.
  apply bind_inv in H.
  destruct H as [(st0 & evs0 & evs' & Hc & Hk & ->) | [(e & Hc & ?) | (Hc & ?)]];
    try discriminate.
  apply bind_inv in Hk.
  destruct Hk as [(st & evs1 & evs2 & Hl & Hr & ->) | [(e & Hl & ?) | (Hl & ?)]];
    try discriminate.
  destruct (for_loop_owner _ _ _ _ _ _ _ Hl) as [Hu Hm].
  destruct (first_turn_owner _ _ _ _ Hc) as [Hu0 Hm0].
  apply (first_turn_Ok pkg client) in Hc as (messages & b & _ & _ & Hb & -> & _).
  unfold anthropic.reply in Hr.
  destruct (anthropic.Blocks (anthropic.response st)); [discriminate|].
  unfold ret in Hr. simplify_eq. simpl.
  split; [congruence|]. eexists _, _, _, _. split; [reflexivity|].
  split; [exact Hb | congruence].
Qed.

End AnthropicLast.

(** * Properties beyond the claims *)

(** ** The Anthropic adapter *)

(** X1.  Whatever the provider answers and whatever the tools do, a
    completion of the Anthropic adapter calls the provider seven times
    at most: once before the loop and once in each of its six passes at
    most. *)
Theorem anthropic_call_bound
    (pkg : anthropic.Package) (client : anthropic.Client)
    (req : llm.CompletionRequest event) (tr : list event) :
  (length (provider_calls (snd (anthropic.Completion pkg client req tr))) <= 7)%nat.
Proof. apply calls_Completion. Qed.

(** X2.  When a call of Bedrock returns an error, or returns an answer
    that does not decode, the completion of the Anthropic adapter
    returns that error, and the failed call is its last event: no tool
    is run and no call is made after it. *)
Theorem anthropic_provider_failure
    (pkg : anthropic.Package) (client : anthropic.Client)
    (req : llm.CompletionRequest event) (tr : list event)
    (r : result (option llm.CompletionResponse)) (evs : list event)
    (e : error) (pre : list event) (ev : event) (post : list event) :
  anthropic.Completion pkg client req tr = (r, evs) ->
  evs = pre ++ ev :: post ->
  bedrock_failed pkg e ev ->
  r = Err e /\ post = [].
Proof. apply bedrock_failed_Completion. Qed.

Lemma anthropic_provider_failure_witness :
  fst (anthropic.Completion Stub.looping_pkg Stub.down_client (Stub.request []) [])
  = Err "throttled".
Proof.
  refine (proj1 (anthropic_provider_failure Stub.looping_pkg Stub.down_client
                   (Stub.request []) [] _
                   (snd (anthropic.Completion Stub.looping_pkg Stub.down_client
                           (Stub.request []) []))
                   "throttled" [] (EvInvokeModel "claude" [] (Err "throttled")) [] _ _ _)).
  - apply surjective_pairing.
  - vm_compute. reflexivity.
  - exists "claude", [], (Err "throttled"). split; [reflexivity | left; reflexivity].
Defined.

(** X3.  Every request that the Anthropic adapter sends to Bedrock in
    one completion goes to the model of the request and carries the
    settings of the first request (version, system prompt, token limit,
    sampling, tools); its messages begin with the messages of the
    first request: the conversation only grows. *)
Theorem anthropic_requests_extend
    (pkg : anthropic.Package) (client : anthropic.Client)
    (req : llm.CompletionRequest event) (tr : list event)
    (r : result (option llm.CompletionResponse)) (evs : list event)
    (messages : list anthropic.ClaudeMessage) :
  anthropic.Completion pkg client req tr = (r, evs) ->
  anthropic.transformMessages pkg (llm.Messages req) = Ok messages ->
  Forall
    (extends_request pkg (llm.ReqModel req)
       {| anthropic.AnthropicVersion := "bedrock-2023-05-31";
          anthropic.Messages := messages;
          anthropic.System := llm.SystemPrompt req;
          anthropic.MaxTokens := llm.MaxTokens req;
          anthropic.TopP := llm.TopP req;
          anthropic.Temperature := llm.Temperature req;
          anthropic.Tools := anthropic.transformTools pkg (llm.Tools req) |})
    evs.
Proof. apply Completion_extends. Qed.

Lemma anthropic_requests_extend_witness :
  Forall
    (extends_request Stub.looping_pkg "claude"
       {| anthropic.AnthropicVersion := "bedrock-2023-05-31";
          anthropic.Messages :=
            [ {| anthropic.Role := "user";
                 anthropic.MsgBlocks := [Stub.text_block "question"] |} ];
          anthropic.System := "system";
          anthropic.MaxTokens := 1024;
          anthropic.TopP := 0;
          anthropic.Temperature := 0;
          anthropic.Tools := [] |})
    (snd (anthropic.Completion Stub.looping_pkg Stub.client
            (Stub.request Stub.sources_ok) [])).
Proof.
  exact (anthropic_requests_extend Stub.looping_pkg Stub.client
           (Stub.request Stub.sources_ok) [] _ _ _
           (surjective_pairing _) eq_refl).
Defined.

(** X4.  The registry of tools that a completion builds from the
    definitions of the request maps a name to the handler of the last
    definition with that name, and to nothing when no definition has
    it. *)
Theorem registry_last_definition_wins
    (defs : list (llm.ToolDefinition event)) (name : string) :
  anthropic.tools_of defs !! name
  = llm.Call <$> List.find (fun t => String.eqb (llm.Name t) name) (rev defs).
Proof. apply tools_of_find. Qed.

(** X5.  The Anthropic adapter runs no tool but those that the request
    defines, whatever names the provider asks for. *)
Theorem anthropic_runs_registered_tools
    (pkg : anthropic.Package) (client : anthropic.Client)
    (req : llm.CompletionRequest event) (tr : list event)
    (name : string) (input : gmap string any) (inner : list event) (out : result string) :
  In (EvTool name input inner out) (snd (anthropic.Completion pkg client req tr)) ->
  In name (map llm.Name (llm.Tools req)).
Proof.
  intros Hin. apply tools_of_registered.
  pose proof (Completion_registered pkg client req tr) as Hall.
  rewrite List.Forall_forall in Hall. exact (Hall _ Hin _ _ _ _ eq_refl).
Qed.

Lemma anthropic_runs_registered_tools_witness :
  In "get_sources" (map llm.Name Stub.sources_ok).
Proof.
  apply (anthropic_runs_registered_tools Stub.looping_pkg Stub.client
           (Stub.request Stub.sources_ok) [] "get_sources" ∅ [] (Ok "{}")).
  vm_compute. right. left. reflexivity.
Defined.

(** X6.  When the last answer of Bedrock in a completion decodes to a
    response without content, the Anthropic adapter panics: it reads
    the first block of the content without looking at its length. *)
Theorem anthropic_empty_answer_panics
    (pkg : anthropic.Package) (client : anthropic.Client)
    (req : llm.CompletionRequest event) (tr : list event)
    (r : result (option llm.CompletionResponse)) (evs : list event)
    (m : string) (body b : Body) (answer : anthropic.ClaudeResponse) :
  anthropic.Completion pkg client req tr = (r, evs) ->
  last evs = Some (EvInvokeModel m body (Ok b)) ->
  anthropic.json_Unmarshal pkg b = Ok answer ->
  anthropic.Blocks answer = [] ->
  r = Panic.
Proof. apply Completion_empty_answer. Qed.

Lemma anthropic_empty_answer_witness :
  fst (anthropic.Completion (Stub.pkg [] Stub.empty_turn) Stub.client (Stub.request []) [])
  = Panic.
Proof.
  apply (anthropic_empty_answer_panics (Stub.pkg [] Stub.empty_turn) Stub.client
           (Stub.request []) [] _
           (snd (anthropic.Completion (Stub.pkg [] Stub.empty_turn) Stub.client
                   (Stub.request []) []))
           "claude" [] [] Stub.empty_turn).
  - apply surjective_pairing.
  - vm_compute. reflexivity.
  - reflexivity.
  - reflexivity.
Defined.

(** ** The usage of a response *)

(** X7.  Without any assumption on the counts that the provider
    reports, the usage of a response is the sum of the usage of the
    round trips modulo 2^64, in both adapters: the counters wrap
    around. *)
Theorem usage_wraps_around
    (apkg : anthropic.Package) (aclient : anthropic.Client)
    (vpkg : vertex.Package) (vclient : vertex.Client)
    (req : llm.CompletionRequest event) (tr : list event) :
  (forall resp evs,
      anthropic.Completion apkg aclient req tr = (Ok (Some resp), evs) ->
      llm.InputTokens (llm.Usage resp) mod 2 ^ 64
      = sum_inputs (anthropic_deltas apkg evs) mod 2 ^ 64
      /\ llm.OutputTokens (llm.Usage resp) mod 2 ^ 64
         = sum_outputs (anthropic_deltas apkg evs) mod 2 ^ 64)
  /\ (forall resp evs,
         vertex.Completion vpkg vclient req tr = (Ok (Some resp), evs) ->
         llm.InputTokens (llm.Usage resp) mod 2 ^ 64
         = sum_inputs (vertex_deltas evs) mod 2 ^ 64
         /\ llm.OutputTokens (llm.Usage resp) mod 2 ^ 64
            = sum_outputs (vertex_deltas evs) mod 2 ^ 64).
Proof.
  split; intros resp evs Hrun.
  - exact (anthropic_usage_mod apkg aclient req tr resp evs Hrun).
  - exact (vertex_usage_mod vpkg vclient req tr resp evs Hrun).
Qed.

Lemma overflowing_run :
  anthropic.Completion Stub.overflowing_pkg Stub.client (Stub.request Stub.sources_ok) []
  = Stub.overflowing_outcome.
Proof. vm_compute. reflexivity. Qed.

Lemma usage_wraps_around_witness :
  exists resp evs,
    anthropic.Completion Stub.overflowing_pkg Stub.client (Stub.request Stub.sources_ok) []
    = (Ok (Some resp), evs)
    /\ sum_inputs (anthropic_deltas Stub.overflowing_pkg evs) = 2 ^ 63
    /\ llm.InputTokens (llm.Usage resp) = - 2 ^ 63
    /\ llm.InputTokens (llm.Usage resp) mod 2 ^ 64
       = sum_inputs (anthropic_deltas Stub.overflowing_pkg evs) mod 2 ^ 64.
Proof.
  destruct (usage_wraps_around Stub.overflowing_pkg Stub.client
              (Stub.vpkg Stub.ok_handler) Stub.text_vclient
              (Stub.request Stub.sources_ok) []) as [HA _].
  eexists _, _. split; [exact overflowing_run|].
  split; [vm_compute; reflexivity|]. split; [vm_compute; reflexivity|].
  exact (proj1 (HA _ _ overflowing_run)).
Defined.

(** X8.  The usage of a response names the user of the request.  Its
    model is, in the Anthropic adapter, the model that the first answer
    of Bedrock names, and in the Vertex adapter the model of the
    request without the prefix of the package. *)
Theorem usage_owner
    (apkg : anthropic.Package) (aclient : anthropic.Client)
    (vpkg : vertex.Package) (vclient : vertex.Client)
    (req : llm.CompletionRequest event) (tr : list event) :
  (forall resp evs,
      anthropic.Completion apkg aclient req tr = (Ok (Some resp), evs) ->
      llm.UserId (llm.Usage resp) = llm.ReqUserId req
      /\ exists body b first rest,
           evs = EvInvokeModel (llm.ReqModel req) body (Ok b) :: rest
           /\ anthropic.json_Unmarshal apkg b = Ok first
           /\ llm.Model (llm.Usage resp) = anthropic.Model first)
  /\ (forall resp evs,
         vertex.Completion vpkg vclient req tr = (Ok (Some resp), evs) ->
         llm.UserId (llm.Usage resp) = llm.ReqUserId req
         /\ (forall name,
                llm.ReqModel req = (vertex.modelPrefix vpkg ++ name)%string ->
                llm.Model (llm.Usage resp) = name)
         /\ ((forall name, llm.ReqModel req <> (vertex.modelPrefix vpkg ++ name)%string) ->
             llm.Model (llm.Usage resp) = llm.ReqModel req)).
Proof.
  split; intros resp evs Hrun.
  - exact (Completion_owner apkg aclient req tr resp evs Hrun).
  - destruct (vertex_usage_owner vpkg vclient req tr resp evs Hrun) as [Hu Hm].
    split; [exact Hu|]. rewrite Hm.
    pose proof (CutPrefix_spec (llm.ReqModel req) (vertex.modelPrefix vpkg)) as Hcut.
    split.
    + intros name Hname. rewrite Hname, CutPrefix_app. reflexivity.
    + intros Hno. destruct (CutPrefix _ _) as [rest [|]]; simpl.
      * now apply Hno in Hcut.
      * now destruct Hcut.
Qed.

Lemma text_vertex_run :
  vertex.Completion (Stub.vpkg Stub.ok_handler) Stub.text_vclient Stub.vertex_request []
  = Stub.text_vertex_outcome.
Proof. vm_compute. reflexivity. Qed.

Lemma usage_owner_witness :
  exists resp evs,
    vertex.Completion (Stub.vpkg Stub.ok_handler) Stub.text_vclient Stub.vertex_request []
    = (Ok (Some resp), evs)
    /\ llm.UserId (llm.Usage resp) = "user-1"
    /\ llm.Model (llm.Usage resp) = "gemini".
Proof.
  destruct (usage_owner Stub.looping_pkg Stub.client
              (Stub.vpkg Stub.ok_handler) Stub.text_vclient
              Stub.vertex_request []) as [_ HV].
  eexists _, _. split; [exact text_vertex_run|].
  destruct (HV _ _ text_vertex_run) as (Hu & Hm & _).
  split; [exact Hu|]. exact (Hm "gemini" eq_refl).
Defined.

(** ** The Vertex adapter *)

(** X9.  When a call of Vertex returns an error, the completion of the
    Vertex adapter returns that error, and the failed call is its last
    event. *)
Theorem vertex_provider_failure
    (pkg : vertex.Package) (c : vertex.Client)
    (req : llm.CompletionRequest event) (tr : list event)
    (r : result (option llm.CompletionResponse)) (evs : list event)
    (e : error) (pre : list event) (ev : event) (post : list event) :
  vertex.Completion pkg c req tr = (r, evs) ->
  evs = pre ++ ev :: post ->
  vertex_failed e ev ->
  r = Err e /\ post = [].
Proof. apply vertex_failed_Completion. Qed.

Lemma vertex_provider_failure_witness :
  fst (vertex.Completion (Stub.vpkg Stub.ok_handler) Stub.down_vclient
         Stub.vertex_request [])
  = Err "unavailable".
Proof.
  refine (proj1 (vertex_provider_failure (Stub.vpkg Stub.ok_handler) Stub.down_vclient
                   Stub.vertex_request [] _
                   (snd (vertex.Completion (Stub.vpkg Stub.ok_handler) Stub.down_vclient
                           Stub.vertex_request []))
                   "unavailable" []
                   (EvSendMessage
                      (vertex.generative_model (Stub.vpkg Stub.ok_handler)
                         Stub.vertex_request)
                      [] [genai.Text "question"] (Err "unavailable"))
                   [] _ _ _)).
  - apply surjective_pairing.
  - vm_compute. reflexivity.
  - eexists _, _, _. reflexivity.
Defined.

(** X10.  When the tool that the Vertex adapter ran returned a result
    that does not decode as a JSON object, the completion returns the
    error of the decoder; the run of the tool is its last event, and
    the provider has been called once: the result is not sent. *)
Theorem vertex_tool_result_not_json
    (pkg : vertex.Package) (c : vertex.Client)
    (req : llm.CompletionRequest event) (tr : list event)
    (r : result (option llm.CompletionResponse)) (evs : list event)
    (name : string) (input : gmap string any) (inner : list event)
    (s : string) (e : error) :
  vertex.Completion pkg c req tr = (r, evs) ->
  In (EvTool name input inner (Ok s)) evs ->
  vertex.json_Unmarshal pkg s = Err e ->
  r = Err e
  /\ length (provider_calls evs) = 1%nat
  /\ last evs = Some (EvTool name input inner (Ok s)).
Proof. apply vertex_bad_tool_result. Qed.

Lemma vertex_tool_result_not_json_witness :
  fst (vertex.Completion (Stub.strict_vpkg Stub.text_handler) Stub.one_tool_vclient
         Stub.vertex_request [])
  = Err "invalid character"
  /\ length (provider_calls
               (snd (vertex.Completion (Stub.strict_vpkg Stub.text_handler)
                       Stub.one_tool_vclient Stub.vertex_request [])))
     = 1%nat.
Proof.
  destruct (vertex_tool_result_not_json (Stub.strict_vpkg Stub.text_handler)
              Stub.one_tool_vclient Stub.vertex_request [] _
              (snd (vertex.Completion (Stub.strict_vpkg Stub.text_handler)
                      Stub.one_tool_vclient Stub.vertex_request []))
              "get_sources" ∅ [] "sources" "invalid character"
              (surjective_pairing _)) as (Hr & Hlen & _).
  - vm_compute. right. left. reflexivity.
  - reflexivity.
  - split; [exact Hr | exact Hlen].
Defined.

(** X11.  When the Vertex adapter calls the provider twice, the first
    call sent the last content of the history after the others and got
    an answer whose first part is a function call; the adapter ran that
    tool, decoded its result, and the second call sends the result as a
    function response, on the whole history followed by the call in
    the role of the model.  The second answer decides the outcome: its
    text is the message, a first part that is no text gives no
    response, and an answer without content or parts makes the adapter
    panic. *)
Theorem vertex_two_round_trips
    (pkg : vertex.Package) (c : vertex.Client)
    (req : llm.CompletionRequest event) (tr : list event)
    (r : result (option llm.CompletionResponse)) (evs : list event)
    (ev1 ev2 : event) :
  vertex.Completion pkg c req tr = (r, evs) ->
  provider_calls evs = [ev1; ev2] ->
  vertex_second_round pkg req r evs ev1 ev2.
Proof. apply vertex_two_calls. Qed.

Lemma vertex_two_round_trips_witness :
  exists ev1 ev2,
    vertex_second_round (Stub.vpkg Stub.ok_handler) (Stub.request [])
      (fst Stub.vertex_tool_outcome) (snd Stub.vertex_tool_outcome) ev1 ev2.
Proof.
  eexists _, _.
  apply (vertex_two_round_trips (Stub.vpkg Stub.ok_handler) Stub.one_tool_vclient
           (Stub.request []) []).
  - exact vertex_tool_run.
  - vm_compute. reflexivity.
Defined.

(** X12.  When the request has messages and the history made of them
    is empty, the Vertex adapter panics before any call: it takes the
    last element of the history without looking at its length. *)
Theorem vertex_empty_history_panics
    (pkg : vertex.Package) (c : vertex.Client)
    (req : llm.CompletionRequest event) (tr : list event) :
  llm.Messages req <> [] ->
  vertex.transformToHistory pkg (llm.Messages req) = Ok [] ->
  vertex.Completion pkg c req tr = (Panic, []).
Proof. apply vertex_empty_history. Qed.

Lemma vertex_empty_history_witness :
  vertex.Completion Stub.blank_vpkg (Stub.vclient [] Stub.no_candidates)
    Stub.vertex_request []
  = (Panic, []).
Proof.
  apply (vertex_empty_history_panics Stub.blank_vpkg (Stub.vclient [] Stub.no_candidates)
           Stub.vertex_request []).
  - discriminate.
  - reflexivity.
Defined.

(** ** The tool [get_sources] *)

(** X13.  When the search of [get_sources] returned, the tool records
    the usage of the search for the user (the model and the tokens of
    the search, no output tokens) and returns the marshalled, sorted
    results, whatever the record of the usage returned.  The query is
    the string under [prompt], for the user, the collection of the
    prompt and the limits of the retrieval options; the events are the
    search, a new id, the time and the record, in this order. *)
Theorem get_sources_after_a_search
    (lib : GoLib) (service : chat.Service)
    (userId : string) (prompt : pb.Prompt) (options : pb.RetrievalOptions)
    (parameters : gmap string any) (tr : list event)
    (r : result string) (evs : list event)
    (q : search.Query) (resp : search.Response) :
  chat.get_sources lib service userId prompt options parameters tr = (r, evs) ->
  In (EvSearch q (Ok resp)) evs ->
  r = json_Marshal_Sources lib (sort_Slice lib search.Result chat.less (search.Results resp))
  /\ assert_string (parameters !! "prompt") = Some (search.QueryText q)
  /\ search.UserId q = userId
  /\ search.CollectionId q = pb.CollectionId prompt
  /\ search.Limit q = pb.Documents options
  /\ search.Threshold q = pb.Threshold options
  /\ exists id now err,
       evs = [EvSearch q (Ok resp); EvUuidNew id; EvTimeNow now;
              EvInsertModelUsage
                {| datastore.UsageId := id;
                   datastore.UsageUserId := userId;
                   datastore.UsageTimestamp := now;
                   datastore.ModelId := search.ModelId (search.RespUsage resp);
                   datastore.InputTokens := search.Tokens (search.RespUsage resp);
                   datastore.OutputTokens := 0 |} err].
Proof. apply get_sources_after_search. Qed.

Lemma get_sources_after_a_search_witness :
  fst (chat.get_sources (Stub.lib insertion_sort) (Stub.service Stub.answering_model)
         "user-1" Stub.prompt Stub.retrieval Stub.topic [])
  = Ok "{}".
Proof.
  destruct (get_sources_after_a_search (Stub.lib insertion_sort)
              (Stub.service Stub.answering_model)
              "user-1" Stub.prompt Stub.retrieval Stub.topic [] _
              (snd (chat.get_sources (Stub.lib insertion_sort)
                      (Stub.service Stub.answering_model)
                      "user-1" Stub.prompt Stub.retrieval Stub.topic []))
              Stub.query Stub.found (surjective_pairing _)) as (Hr & _).
  - vm_compute. left. reflexivity.
  - rewrite Hr. reflexivity.
Defined.

(** X14.  Without a search that returned, [get_sources] fails and
    records no usage: when the parameters have no string under
    [prompt], the error is [prompt missing] and nothing is called;
    otherwise the search is its one event and its error is returned. *)
Theorem get_sources_without_a_search
    (lib : GoLib) (service : chat.Service)
    (userId : string) (prompt : pb.Prompt) (options : pb.RetrievalOptions)
    (parameters : gmap string any) (tr : list event)
    (r : result string) (evs : list event) :
  chat.get_sources lib service userId prompt options parameters tr = (r, evs) ->
  (forall q resp, ~ In (EvSearch q (Ok resp)) evs) ->
  is_Ok r = false
  /\ (forall u err, ~ In (EvInsertModelUsage u err) evs)
  /\ match assert_string (parameters !! "prompt") with
     | None => r = Err "prompt missing" /\ evs = []
     | Some query =>
         exists q out, evs = [EvSearch q out] /\ search.QueryText q = query
                       /\ match out with
                          | Ok _ => False
                          | Err e => r = Err e
                          | Panic => r = Panic
                          end
     end.
Proof. apply get_sources_no_search. Qed.

Lemma get_sources_without_a_search_witness :
  is_Ok (fst (chat.get_sources (Stub.lib insertion_sort) (Stub.service Stub.answering_model)
                "user-1" Stub.prompt Stub.retrieval ∅ []))
  = false.
Proof.
  refine (proj1 (get_sources_without_a_search (Stub.lib insertion_sort)
                   (Stub.service Stub.answering_model)
                   "user-1" Stub.prompt Stub.retrieval ∅ [] _
                   (snd (chat.get_sources (Stub.lib insertion_sort)
                           (Stub.service Stub.answering_model)
                           "user-1" Stub.prompt Stub.retrieval ∅ []))
                   (surjective_pairing _) _)).
  vm_compute. intros q resp H. exact H.
Defined.

(** ** The chat handler *)

(** X15.  Resolving the names of the sources asks the datastore for
    one name at most for each source and never fails with an error: a
    source whose document id does not parse, or whose name is not
    found, is kept as it is.  The sources that come out have the
    documents and the chunks of those that went in, in the same
    order. *)
Theorem name_sources_keeps_sources
    (lib : GoLib) (service : chat.Service)
    (userId : string) (sources : list pb.Source) (tr : list event)
    (r : result (list pb.Source)) (evs : list event) :
  chat.name_sources lib service userId sources tr = (r, evs) ->
  Forall (fun ev => exists docId out, ev = EvGetDocumentName userId docId out) evs
  /\ (length evs <= length sources)%nat
  /\ is_Err r = false
  /\ (forall sources', r = Ok sources' ->
        map pb.DocumentId sources' = map pb.DocumentId sources
        /\ map pb.Chunks sources' = map pb.Chunks sources).
Proof. apply name_sources_spec. Qed.

Lemma name_sources_keeps_sources_witness :
  is_Err (fst (chat.name_sources (Stub.lib insertion_sort)
                 (Stub.service Stub.answering_model) "user-1" [Stub.cited] []))
  = false.
Proof.
  destruct (name_sources_keeps_sources (Stub.lib insertion_sort)
              (Stub.service Stub.answering_model) "user-1" [Stub.cited] [] _ _
              (surjective_pairing _)) as (_ & _ & Hne & _).
  exact Hne.
Defined.

(** X16.  The chat handler stops at the first collaborator that fails:
    when the funding check, the load of the thread, the completion or
    the store of the thread returned an error, the request returns that
    error and the failed call is its last event. *)
Theorem PostMessage_stops_at_failure
    (lib : GoLib) (service : chat.Service) (prompt : pb.Prompt) (tr : list event)
    (r : result pb.Message) (evs : list event)
    (e : error) (pre : list event) (ev : event) (post : list event) :
  chat.PostMessage lib service prompt tr = (r, evs) ->
  evs = pre ++ ev :: post ->
  service_failed e ev ->
  r = Err e /\ post = [].
Proof. apply PostMessage_stops. Qed.

Lemma PostMessage_stops_at_failure_witness :
  fst (chat.PostMessage (Stub.lib insertion_sort) (Stub.service Stub.failing_model)
         Stub.prompt [])
  = Err "provider down".
Proof.
  refine (proj1 (PostMessage_stops_at_failure (Stub.lib insertion_sort)
                   (Stub.service Stub.failing_model) Stub.prompt [] _
                   (snd (chat.PostMessage (Stub.lib insertion_sort)
                           (Stub.service Stub.failing_model) Stub.prompt []))
                   "provider down"
                   [EvVerifyFunding (Ok "user-1"); EvUuidNew []; EvTimeNow 0]
                   (EvCompletion [] (Err "provider down")) [] _ _ _)).
  - apply surjective_pairing.
  - vm_compute. reflexivity.
  - right. right. left. exists []. reflexivity.
Defined.

(** X17.  Before the checks of the prompt have passed, the chat handler
    calls nothing but the funding check: when the request has any other
    event, the funding check returned a user, the collection id parsed,
    both options were present and the model was found. *)
Theorem PostMessage_checks_first
    (lib : GoLib) (service : chat.Service) (prompt : pb.Prompt) (tr : list event)
    (r : result pb.Message) (evs : list event) :
  chat.PostMessage lib service prompt tr = (r, evs) ->
  existsb (fun ev => negb (is_funding_check ev)) evs = true ->
  exists userId collectionId modelOps retrievalOptions model,
    chat.Auth_VerifyFunding service tr = Ok userId
    /\ uuid_Parse lib (pb.CollectionId prompt) = Ok collectionId
    /\ pb.GetModelOptions prompt = Some modelOps
    /\ pb.GetRetrievalOptions prompt = Some retrievalOptions
    /\ chat.getModel service (pb.ModelId modelOps) = Ok model.
Proof. apply PostMessage_checks. Qed.

Lemma PostMessage_checks_first_witness :
  exists modelOps, pb.GetModelOptions Stub.prompt = Some modelOps.
Proof.
  destruct (PostMessage_checks_first (Stub.lib insertion_sort)
              (Stub.service Stub.answering_model) Stub.prompt [] _
              (snd (chat.PostMessage (Stub.lib insertion_sort)
                      (Stub.service Stub.answering_model) Stub.prompt []))
              (surjective_pairing _))
    as (userId & collectionId & modelOps & retrievalOptions & model & _ & _ & H & _).
  - vm_compute. reflexivity.
  - exists modelOps. exact H.
Defined.

(** X18.  What a prompt that fails a check is answered with, once the
    funding check has returned a user: [invalid collection id] in place
    of the error of the parser, [options missing], [retrieval options
    missing], or the error of the lookup of the model; the funding
    check is then the only event. *)
Theorem PostMessage_rejections
    (lib : GoLib) (service : chat.Service) (prompt : pb.Prompt) (tr : list event)
    (userId : string) :
  chat.Auth_VerifyFunding service tr = Ok userId ->
  match uuid_Parse lib (pb.CollectionId prompt) with
  | Err _ =>
      chat.PostMessage lib service prompt tr
      = (Err "invalid collection id", [EvVerifyFunding (Ok userId)])
  | Panic => True
  | Ok _ =>
      match pb.GetModelOptions prompt, pb.GetRetrievalOptions prompt with
      | None, _ =>
          chat.PostMessage lib service prompt tr
          = (Err "options missing", [EvVerifyFunding (Ok userId)])
      | Some _, None =>
          chat.PostMessage lib service prompt tr
          = (Err "retrieval options missing", [EvVerifyFunding (Ok userId)])
      | Some modelOps, Some _ =>
          forall e, chat.getModel service (pb.ModelId modelOps) = Err e ->
                    chat.PostMessage lib service prompt tr
                    = (Err e, [EvVerifyFunding (Ok userId)])
      end
  end.
Proof. apply PostMessage_rejects. Qed.

Lemma PostMessage_rejections_witness :
  chat.PostMessage (Stub.lib insertion_sort) (Stub.service Stub.answering_model)
    Stub.bare_prompt []
  = (Err "options missing", [EvVerifyFunding (Ok "user-1")]).
Proof.
  exact (PostMessage_rejections (Stub.lib insertion_sort)
           (Stub.service Stub.answering_model) Stub.bare_prompt [] "user-1" eq_refl).
Defined.

(** X19.  A request that succeeds had a completion that returned a
    response with messages, stored the thread with these messages and
    recorded the usage of the response.  The answer carries the id of
    the stored thread, the text of the prompt, the content of the last
    message of the response as the completion, and the sources of the
    messages with their documents and chunks. *)
Theorem PostMessage_answers
    (lib : GoLib) (service : chat.Service) (prompt : pb.Prompt) (tr : list event)
    (msg : pb.Message) (evs : list event) :
  chat.PostMessage lib service prompt tr = (Ok msg, evs) ->
  exists inner resp init m thread usage err,
    In (EvCompletion inner (Ok (Some resp))) evs
    /\ llm.RespMessages resp = init ++ [m]
    /\ In (EvStoreThread thread None) evs
    /\ datastore.Messages thread = llm.RespMessages resp
    /\ In (EvInsertModelUsage usage err) evs
    /\ datastore.InputTokens usage = llm.InputTokens (llm.Usage resp)
    /\ datastore.OutputTokens usage = llm.OutputTokens (llm.Usage resp)
    /\ pb.MsgThreadId msg = uuid_String lib (datastore.Id thread)
    /\ pb.MsgPrompt msg = pb.PromptText prompt
    /\ pb.Completion msg = llm.Content m
    /\ map pb.DocumentId (pb.Sources msg)
       = map pb.DocumentId (chat.getSources service (llm.RespMessages resp))
    /\ map pb.Chunks (pb.Sources msg)
       = map pb.Chunks (chat.getSources service (llm.RespMessages resp)).
Proof. apply PostMessage_answer. Qed.

Lemma PostMessage_answers_witness :
  exists msg evs,
    chat.PostMessage (Stub.lib insertion_sort) (Stub.service Stub.answering_model)
      Stub.prompt []
    = (Ok msg, evs)
    /\ pb.MsgPrompt msg = "question".
Proof.
  pose proof answered_run as Hrun. unfold Stub.answered_outcome in Hrun.
  eexists _, _. split; [exact Hrun|].
  destruct (PostMessage_answers _ _ _ _ _ _ Hrun)
    as (inner & resp & init & m & thread & usage & err & H).
  exact (proj1 (proj2 (proj2 (proj2 (proj2 (proj2 (proj2 (proj2 (proj2 H))))))))).
Defined.

(** X20.  The request that the handler hands to the model: the
    messages of the thread (none for a new thread, those of the loaded
    thread otherwise) followed by the prompt in the role of the user,
    the model and the settings of the model options, the user of the
    funding check, and the one tool [get_sources]. *)
Theorem PostMessage_model_request
    (lib : GoLib) (service : chat.Service) (prompt : pb.Prompt) (tr : list event)
    (r : result pb.Message) (evs : list event)
    (inner : list event) (out : result (option llm.CompletionResponse)) :
  chat.PostMessage lib service prompt tr = (r, evs) ->
  In (EvCompletion inner out) evs ->
  exists userId modelOps retrievalOptions model pre post messages request,
    chat.Auth_VerifyFunding service tr = Ok userId
    /\ pb.GetModelOptions prompt = Some modelOps
    /\ pb.GetRetrievalOptions prompt = Some retrievalOptions
    /\ chat.getModel service (pb.ModelId modelOps) = Ok model
    /\ evs = pre ++ EvCompletion inner out :: post
    /\ model request (tr ++ pre) = (out, inner)
    /\ (if String.eqb (pb.ThreadId prompt) "" then messages = []
        else exists threadId thread,
               uuid_Parse lib (pb.ThreadId prompt) = Ok threadId
               /\ In (EvGetThread userId threadId (Ok thread)) pre
               /\ messages = datastore.Messages thread)
    /\ llm.Messages request
       = messages ++ [ {| llm.Role := chat.RoleUser service;
                          llm.Content := pb.PromptText prompt |} ]
    /\ llm.ReqModel request = pb.ModelId modelOps
    /\ llm.MaxTokens request = Z.of_N (pb.MaxTokens modelOps)
    /\ llm.TopP request = pb.TopP modelOps
    /\ llm.Temperature request = pb.Temperature modelOps
    /\ llm.ReqUserId request = userId
    /\ llm.Tools request = [chat.get_sources_tool lib service userId prompt retrievalOptions].
Proof. apply PostMessage_request. Qed.

Lemma PostMessage_model_request_witness :
  exists request : llm.CompletionRequest event,
    llm.Messages request = [ {| llm.Role := "user"; llm.Content := "question" |} ]
    /\ map llm.Name (llm.Tools request) = ["get_sources"].
Proof.
  destruct (PostMessage_model_request (Stub.lib insertion_sort)
              (Stub.service Stub.failing_model) Stub.prompt [] _
              (snd (chat.PostMessage (Stub.lib insertion_sort)
                      (Stub.service Stub.failing_model) Stub.prompt []))
              [] (Err "provider down") (surjective_pairing _))
    as (userId & modelOps & retrievalOptions & model & pre & post & messages & request
        & _ & _ & _ & _ & _ & _ & Hthread & Hmessages & _ & _ & _ & _ & _ & Htools).
  - vm_compute. right. right. right. left. reflexivity.
  - simpl in Hthread. subst messages. exists request.
    split; [exact Hmessages|]. rewrite Htools. reflexivity.
Defined.

(** X21.  The usage of the completion is recorded exactly when the
    thread has been stored: after a store that succeeded, the handler
    records the usage of the response for the user and the model of
    the prompt, and the request does not end in an error, whatever the
    record returned; and no usage is recorded without such a store. *)
Theorem PostMessage_records_usage
    (lib : GoLib) (service : chat.Service) (prompt : pb.Prompt) (tr : list event)
    (r : result pb.Message) (evs : list event) :
  chat.PostMessage lib service prompt tr = (r, evs) ->
  (forall thread,
      In (EvStoreThread thread None) evs ->
      is_Err r = false
      /\ exists userId modelOps inner resp id now err,
           chat.Auth_VerifyFunding service tr = Ok userId
           /\ pb.GetModelOptions prompt = Some modelOps
           /\ In (EvCompletion inner (Ok (Some resp))) evs
           /\ In (EvInsertModelUsage
                    {| datastore.UsageId := id;
                       datastore.UsageUserId := userId;
                       datastore.UsageTimestamp := now;
                       datastore.ModelId := pb.ModelId modelOps;
                       datastore.InputTokens := llm.InputTokens (llm.Usage resp);
                       datastore.OutputTokens := llm.OutputTokens (llm.Usage resp) |} err) evs)
  /\ (forall u err,
         In (EvInsertModelUsage u err) evs ->
         exists thread, In (EvStoreThread thread None) evs).
Proof. apply PostMessage_usage_record. Qed.

Lemma PostMessage_records_usage_witness :
  is_Err (fst (chat.PostMessage (Stub.lib insertion_sort)
                 (Stub.service Stub.answering_model) Stub.prompt []))
  = false.
Proof.
  refine (proj1 (proj1 (PostMessage_records_usage (Stub.lib insertion_sort)
                          (Stub.service Stub.answering_model) Stub.prompt [] _
                          (snd (chat.PostMessage (Stub.lib insertion_sort)
                                  (Stub.service Stub.answering_model) Stub.prompt []))
                          (surjective_pairing _)) _ _)).
  vm_compute. do 4 right. left. reflexivity.
Defined.
(** ** The migrations *)

Section ForRows.
Variable Row : Type.
Variable pools : migration.Pools Row.
Variable userMapping : gmap string string.
Variable P : Row -> migration.exec -> Prop.
Variable body : Row -> M migration.exec unit.

(** The body of the loop fails before any statement, or runs one
    statement and fails exactly when the statement does. *)
Hypothesis Hbody :
  forall row tr,
    match body row tr with
    | (Ok tt, [ev]) => P row ev /\ exec_err ev = None
    | (Err e, [ev]) => P row ev /\ exec_err ev = Some e
    | (Ok tt, _) => False
    | (_, []) => True
    | _ => False
    end.

Lemma for_rows_spec rows :
  forall tr r evs,
    migration.for_rows Row body rows tr = (r, evs) ->
    Forall2 P (take (length evs) rows) evs
    /\ (length evs <= length rows)%nat
    /\ (r = Ok tt ->
        length evs = length rows /\ Forall (fun ev => exec_err ev = None) evs)
    /\ (forall pre ev post e,
           evs = pre ++ ev :: post -> exec_err ev = Some e -> r = Err e /\ post = [])
    /\ (Forall (fun ev => exec_err ev = None) evs ->
        forall row, rows !! length evs = Some row -> body row (tr ++ evs) = (r, [])).
Proof.
  induction rows as [|row rows IH]; intros tr r evs; simpl.
  - unfold ret. intros ?; simplify_eq. simpl.
    split; [constructor|]. split; [lia|]. split; [auto|]. split.
    + intros pre ev post e Hevs. now destruct pre.
    + intros _ row H. discriminate.
  - unfold bind. pose proof (Hbody row tr) as Hb.
    destruct (body row tr) as [[[]|e|] [|ev [|ev' evs1]]] eqn:Hrun; try contradiction.
    + (* the statement is run *)
      destruct Hb as [HP Herr].
      destruct (migration.for_rows Row body rows (tr ++ [ev])) as [r2 evs2] eqn:Hrest.
      intros ?; simplify_eq. simpl.
      destruct (IH _ _ _ Hrest) as (H2 & Hlen & Hok & Hstop & Hnext).
      split; [constructor; assumption|]. split; [lia|]. split; [|split].
      * intros Hr. destruct (Hok Hr) as [Hl Hall]. split; [lia|].
        constructor; assumption.
      * intros pre ev0 post e Hevs He.
        destruct pre as [|ev1 pre]; simpl in Hevs; simplify_eq; try congruence.
        eapply Hstop; eauto.
      * intros Hall row' Hrow. apply Forall_cons in Hall as [_ Hall].
        specialize (Hnext Hall row' Hrow). rewrite <- app_assoc in Hnext. exact Hnext.
    + (* the row fails before its statement *)
      intros ?; simplify_eq. simpl. split; [constructor|]. split; [lia|].
      split; [discriminate|]. split.
      * intros pre ev post e0 Hevs. now destruct pre.
      * intros _ row' Hrow. simplify_eq. now rewrite app_nil_r.
    + (* the statement fails *)
      destruct Hb as [HP Herr]. intros ?; simplify_eq. simpl.
      split; [repeat constructor; assumption|]. split; [lia|].
      split; [discriminate|]. split.
      * intros pre ev0 post e0 Hevs He.
        destruct pre as [|? [|? ?]]; simpl in Hevs; simplify_eq. split; congruence.
      * intros Hall. apply Forall_cons in Hall as [Hall _]. congruence.
    + intros ?; simplify_eq. simpl. split; [constructor|]. split; [lia|].
      split; [discriminate|]. split.
      * intros pre ev post e0 Hevs. now destruct pre.
      * intros _ row' Hrow. simplify_eq. now rewrite app_nil_r.
Qed.

(** A migration: the query, then the loop over its rows. *)
Lemma migrate_spec sql tr r evs :
  (do rows <- lift (migration.from_Query Row pools sql);
   migration.for_rows Row body rows) tr = (r, evs) ->
  match migration.from_Query Row pools sql with
  | Ok rows => migration.for_rows Row body rows tr = (r, evs)
  | Err e => r = Err e /\ evs = []
  | Panic => r = Panic /\ evs = []
  end.
Proof.
  unfold bind, lift.
  destruct (migration.from_Query Row pools sql) as [rows| |]; simpl.
  - rewrite app_nil_r. destruct (migration.for_rows Row body rows tr). auto.
  - intros ?; simplify_eq. auto.
  - intros ?; simplify_eq. auto.
Qed.

End ForRows.

Ltac body_cases :=
  intros row tr;
  unfold migration.payment, migration.openai_usage, migration.collection,
    migration.chat_message, migration.document,
    bind, lift, migration.new_user, migration.Exec, ret, fail;
  repeat match goal with
         | |- context [match ?x with _ => _ end] =>
             lazymatch x with
             | context [match _ with _ => _ end] => fail
             | _ => destruct x eqn:?; simpl
             end
         end;
  subst; simpl; auto.

Ltac statement_cases :=
  body_cases;
  (split; [|reflexivity]);
  first [ eexists; eexists; split; [eassumption | reflexivity]
        | eexists _, _, _, _, _, _, _; split; [eassumption|];
          split; [eassumption | reflexivity] ].

Lemma Replace_first_eq s old new :
  migration.Replace_first s old new
  = let '(rest, found) := CutPrefix s old in
    if found then (new ++ rest)%string
    else
      match s with
      | EmptyString => EmptyString
      | String c s' => String c (migration.Replace_first s' old new)
      end.
Proof. destruct s; reflexivity. Qed.

Lemma Replace_first_prefix old rest new :
  migration.Replace_first (old ++ rest) old new = (new ++ rest)%string.
Proof. rewrite Replace_first_eq, CutPrefix_app. reflexivity. Qed.

Lemma Replace_first_absent s old new :
  (forall pre post, s <> (pre ++ old ++ post)%string) ->
  migration.Replace_first s old new = s.
Proof.
  induction s as [|c s IH]; intros Hno; rewrite Replace_first_eq.
  - pose proof (CutPrefix_spec "" old) as Hcut.
    destruct (CutPrefix "" old) as [rest [|]]; [|reflexivity].
    exfalso. apply (Hno "" rest). exact Hcut.
  - pose proof (CutPrefix_spec (String c s) old) as Hcut.
    destruct (CutPrefix (String c s) old) as [rest [|]].
    + exfalso. apply (Hno "" rest). exact Hcut.
    + f_equal. apply IH. intros pre post Hs.
      apply (Hno (String c pre) post). rewrite append_cons. now f_equal.
Qed.

Lemma Replace_first_leftmost old new pre :
  forall s post,
    s = (pre ++ old ++ post)%string ->
    (forall pre' post', s = (pre' ++ old ++ post')%string ->
                        (String.length pre <= String.length pre')%nat) ->
    migration.Replace_first s old new = (pre ++ new ++ post)%string.
Proof.
  induction pre as [|c pre IH]; intros s post Hs Hmin.
  - subst s.
    change (migration.Replace_first (old ++ post) old new = (new ++ post)%string).
    apply Replace_first_prefix.
  - rewrite append_cons in Hs. subst s. rewrite Replace_first_eq.
    pose proof (CutPrefix_spec (String c (pre ++ old ++ post)) old) as Hcut.
    destruct (CutPrefix (String c (pre ++ old ++ post)) old) as [rest [|]].
    + specialize (Hmin "" rest Hcut). simpl in Hmin. lia.
    + rewrite append_cons. f_equal. apply IH; [reflexivity|].
      intros pre' post' Hs'.
      specialize (Hmin (String c pre') post').
      rewrite append_cons, Hs' in Hmin. specialize (Hmin eq_refl).
      simpl in Hmin. lia.
Qed.

Section MigrationFacts.
Variable Row : Type.
Variable pools : migration.Pools Row.
Variable userMapping : gmap string string.

Lemma payment_statement :
  forall row tr,
    match migration.payment Row pools userMapping row tr with
    | (Ok tt, [ev]) => (exists old, writes_mapped_user userMapping old ev) /\ exec_err ev = None
    | (Err e, [ev]) => (exists old, writes_mapped_user userMapping old ev) /\ exec_err ev = Some e
    | (Ok tt, _) => False
    | (_, []) => True
    | _ => False
    end.
Proof. statement_cases. Qed.

Lemma openai_usage_statement :
  forall row tr,
    match migration.openai_usage Row pools userMapping row tr with
    | (Ok tt, [ev]) => (exists old, writes_mapped_user userMapping old ev) /\ exec_err ev = None
    | (Err e, [ev]) => (exists old, writes_mapped_user userMapping old ev) /\ exec_err ev = Some e
    | (Ok tt, _) => False
    | (_, []) => True
    | _ => False
    end.
Proof. statement_cases. Qed.

Lemma collection_statement :
  forall row tr,
    match migration.collection Row pools userMapping row tr with
    | (Ok tt, [ev]) => (exists old, writes_mapped_user userMapping old ev) /\ exec_err ev = None
    | (Err e, [ev]) => (exists old, writes_mapped_user userMapping old ev) /\ exec_err ev = Some e
    | (Ok tt, _) => False
    | (_, []) => True
    | _ => False
    end.
Proof. statement_cases. Qed.

Lemma chat_message_statement :
  forall row tr,
    match migration.chat_message Row pools userMapping row tr with
    | (Ok tt, [ev]) => (exists old, writes_mapped_user userMapping old ev) /\ exec_err ev = None
    | (Err e, [ev]) => (exists old, writes_mapped_user userMapping old ev) /\ exec_err ev = Some e
    | (Ok tt, _) => False
    | (_, []) => True
    | _ => False
    end.
Proof. statement_cases. Qed.

Lemma document_statement :
  forall row tr,
    match migration.document Row pools userMapping row tr with
    | (Ok tt, [ev]) => writes_document Row pools userMapping row ev /\ exec_err ev = None
    | (Err e, [ev]) => writes_document Row pools userMapping row ev /\ exec_err ev = Some e
    | (Ok tt, _) => False
    | (_, []) => True
    | _ => False
    end.
Proof. statement_cases. Qed.

Lemma writes_document_mapped row ev :
  writes_document Row pools userMapping row ev ->
  exists old, writes_mapped_user userMapping old ev.
Proof.
  intros (id & userId & filename & path & collId & newUserId & err & _ & Hmap & ->).
  exists userId, newUserId. split; [exact Hmap | reflexivity].
Qed.

(** What holds of each of the five migrations. *)
Lemma migrations_spec sql f tr r evs :
  In (sql, f) (migrations Row pools userMapping) ->
  f tr = (r, evs) ->
  Forall (fun ev => exists old, writes_mapped_user userMapping old ev) evs
  /\ (r = Ok tt -> Forall (fun ev => exec_err ev = None) evs)
  /\ (forall pre ev post e,
         evs = pre ++ ev :: post -> exec_err ev = Some e -> r = Err e /\ post = [])
  /\ match migration.from_Query Row pools sql with
     | Ok rows => (length evs <= length rows)%nat /\ (r = Ok tt -> length evs = length rows)
     | Err e => r = Err e /\ evs = []
     | Panic => r = Panic /\ evs = []
     end.
Proof.
  assert (Hgen : forall (P : Row -> migration.exec -> Prop) body,
             (forall row ev, P row ev -> exists old, writes_mapped_user userMapping old ev) ->
             (forall row tr,
                 match body row tr with
                 | (Ok tt, [ev]) => P row ev /\ exec_err ev = None
                 | (Err e, [ev]) => P row ev /\ exec_err ev = Some e
                 | (Ok tt, _) => False
                 | (_, []) => True
                 | _ => False
                 end) ->
             (do rows <- lift (migration.from_Query Row pools sql);
              migration.for_rows Row body rows) tr = (r, evs) ->
             Forall (fun ev => exists old, writes_mapped_user userMapping old ev) evs
             /\ (r = Ok tt -> Forall (fun ev => exec_err ev = None) evs)
             /\ (forall pre ev post e,
                    evs = pre ++ ev :: post -> exec_err ev = Some e ->
                    r = Err e /\ post = [])
             /\ match migration.from_Query Row pools sql with
                | Ok rows =>
                    (length evs <= length rows)%nat
                    /\ (r = Ok tt -> length evs = length rows)
                | Err e => r = Err e /\ evs = []
                | Panic => r = Panic /\ evs = []
                end).
  { intros P body HP Hbody Hrun.
    apply (migrate_spec Row pools) in Hrun.
    destruct (migration.from_Query Row pools sql) as [rows|e|].
    - destruct (for_rows_spec Row P body Hbody rows _ _ _ Hrun)
        as (H2 & Hlen & Hok & Hstop & _).
      split; [|split; [|split]].
      + clear -H2 HP. remember (take (length evs) rows) as done eqn:Hd. clear Hd.
        induction H2; constructor; eauto.
      + intros Hr. now apply Hok.
      + exact Hstop.
      + split; [exact Hlen|]. intros Hr. now apply Hok.
    - destruct Hrun as [-> ->]. split; [constructor|]. split; [discriminate|].
      split; [|auto]. intros pre ev post e0 Hevs. now destruct pre.
    - destruct Hrun as [-> ->]. split; [constructor|]. split; [discriminate|].
      split; [|auto]. intros pre ev post e0 Hevs. now destruct pre. }
  unfold migrations. simpl. intros [H|[H|[H|[H|[H|[]]]]]] Hrun; simplify_eq.
  - eapply (Hgen (fun _ ev => exists old, writes_mapped_user userMapping old ev));
      [auto | apply payment_statement | exact Hrun].
  - eapply (Hgen (fun _ ev => exists old, writes_mapped_user userMapping old ev));
      [auto | apply openai_usage_statement | exact Hrun].
  - eapply (Hgen (fun _ ev => exists old, writes_mapped_user userMapping old ev));
      [auto | apply collection_statement | exact Hrun].
  - eapply (Hgen (fun _ ev => exists old, writes_mapped_user userMapping old ev));
      [auto | apply chat_message_statement | exact Hrun].
  - eapply (Hgen (writes_document Row pools userMapping));
      [apply writes_document_mapped | apply document_statement | exact Hrun].
Qed.

(** The rows that [MigrateDocuments] writes, and the row at which it
    stops. *)
Lemma MigrateDocuments_spec tr r evs rows :
  migration.MigrateDocuments Row pools userMapping tr = (r, evs) ->
  migration.from_Query Row pools migration.select_documents = Ok rows ->
  Forall2 (writes_document Row pools userMapping) (take (length evs) rows) evs
  /\ (Forall (fun ev => exec_err ev = None) evs ->
      forall row id userId filename path collId,
        rows !! length evs = Some row ->
        migration.Scan_document Row pools row = Ok (id, userId, filename, path, collId) ->
        userMapping !! userId = None
        /\ r = Err ("user not found: " ++ userId)%string).
Proof.
  intros Hrun Hq. unfold migration.MigrateDocuments in Hrun.
  apply (migrate_spec Row pools) in Hrun. rewrite Hq in Hrun.
  destruct (for_rows_spec Row _ _ document_statement rows _ _ _ Hrun)
    as (H2 & _ & _ & _ & Hnext).
  split; [exact H2|].
  intros Hall row id userId filename path collId Hrow Hscan.
  specialize (Hnext Hall row Hrow). revert Hnext.
  unfold migration.document, bind, lift, migration.new_user, migration.Exec, ret, fail.
  rewrite Hscan. simpl.
  destruct (userMapping !! userId) as [newUserId|]; simpl.
  - destruct (migration.to_Exec _ _ _ _ _); intros ?; discriminate.
  - intros ?; simplify_eq. auto.
Qed.

End MigrationFacts.

(** X22.  No migration writes a row for a user that it did not map:
    in every statement that any of the five migrations runs, the user
    is the one that the mapping gives for some user of the old
    database. *)
Theorem migrations_write_mapped_users
    (Row : Type) (pools : migration.Pools Row) (userMapping : gmap string string)
    (sql : string) (f : M migration.exec unit) (tr : list migration.exec) :
  In (sql, f) (migrations Row pools userMapping) ->
  Forall (fun ev => exists old, writes_mapped_user userMapping old ev) (snd (f tr)).
Proof.
  intros Hin. destruct (f tr) as [r evs] eqn:Hrun.
  exact (proj1 (migrations_spec Row pools userMapping sql f tr r evs Hin Hrun)).
Qed.

Lemma migrations_write_mapped_users_witness :
  Forall (fun ev => exists old, writes_mapped_user Stub.mapping old ev)
    (snd (migration.MigrateDocuments (string * string) Stub.pools Stub.mapping [])).
Proof.
  apply (migrations_write_mapped_users (string * string) Stub.pools Stub.mapping
           migration.select_documents
           (migration.MigrateDocuments (string * string) Stub.pools Stub.mapping) []).
  simpl. do 4 right. left. reflexivity.
Defined.

(** X23.  A migration stops at the first statement that fails, and
    its outcome is the error of that statement: no statement follows
    it.  A migration that ends without an error has run only
    statements that succeeded. *)
Theorem migrations_stop_at_failure
    (Row : Type) (pools : migration.Pools Row) (userMapping : gmap string string)
    (sql : string) (f : M migration.exec unit) (tr : list migration.exec)
    (r : result unit) (evs : list migration.exec) :
  In (sql, f) (migrations Row pools userMapping) ->
  f tr = (r, evs) ->
  (forall pre ev post e,
      evs = pre ++ ev :: post -> exec_err ev = Some e -> r = Err e /\ post = [])
  /\ (r = Ok tt -> Forall (fun ev => exec_err ev = None) evs).
Proof.
  intros Hin Hrun.
  destruct (migrations_spec Row pools userMapping sql f tr r evs Hin Hrun)
    as (_ & Hok & Hstop & _).
  split; assumption.
Qed.

Lemma documents_run :
  migration.MigrateDocuments (string * string) Stub.pools Stub.mapping []
  = Stub.documents_outcome.
Proof. vm_compute. reflexivity. Qed.

Lemma migrations_stop_at_failure_witness :
  fst Stub.documents_outcome = Err "connection lost".
Proof.
  destruct (migrations_stop_at_failure (string * string) Stub.pools Stub.mapping
              migration.select_documents
              (migration.MigrateDocuments (string * string) Stub.pools Stub.mapping) []
              (fst Stub.documents_outcome) (snd Stub.documents_outcome))
    as [Hstop _].
  - simpl. do 4 right. left. reflexivity.
  - exact documents_run.
  - refine (proj1 (Hstop [migration.EvExec migration.insert_documents
                            [migration.VString "doc-1"; migration.VString "new-user";
                             migration.VString "file.pdf";
                             migration.VString "documents/new-user/a.pdf";
                             migration.VString "collection-1"] None]
                     (migration.EvExec migration.insert_documents
                        [migration.VString "doc-2"; migration.VString "new-user";
                         migration.VString "file.pdf";
                         migration.VString "documents/shared/new-user/b.pdf";
                         migration.VString "collection-1"] (Some "connection lost"))
                     [] "connection lost" _ _)).
    + vm_compute. reflexivity.
    + reflexivity.
Defined.

(** X24.  A migration runs one statement at most for each row of its
    query, and one for each row when it ends without an error.  When the
    query fails, the migration ends with the error of the query and
    runs no statement. *)
Theorem migrations_statements_and_rows
    (Row : Type) (pools : migration.Pools Row) (userMapping : gmap string string)
    (sql : string) (f : M migration.exec unit) (tr : list migration.exec)
    (r : result unit) (evs : list migration.exec) :
  In (sql, f) (migrations Row pools userMapping) ->
  f tr = (r, evs) ->
  match migration.from_Query Row pools sql with
  | Ok rows => (length evs <= length rows)%nat /\ (r = Ok tt -> length evs = length rows)
  | Err e => r = Err e /\ evs = []
  | Panic => r = Panic /\ evs = []
  end.
Proof.
  intros Hin Hrun.
  exact (proj2 (proj2 (proj2
           (migrations_spec Row pools userMapping sql f tr r evs Hin Hrun)))).
Qed.

Lemma migrations_statements_and_rows_witness :
  (length (snd Stub.documents_outcome) <= length Stub.document_rows)%nat.
Proof.
  refine (proj1 (migrations_statements_and_rows (string * string) Stub.pools Stub.mapping
                   migration.select_documents
                   (migration.MigrateDocuments (string * string) Stub.pools Stub.mapping) []
                   (fst Stub.documents_outcome) (snd Stub.documents_outcome) _ _)).
  - simpl. do 4 right. left. reflexivity.
  - exact documents_run.
Defined.

(** X25.  The statements of [MigrateDocuments] are, in order, those of
    the first rows of the query: each writes the id, the file name and
    the collection of its row, the user that the mapping gives for the
    user of the row, and the path [documents/] followed by the path of
    the row with the first occurrence of the old user replaced by the
    new one.  When all statements succeeded and a row is left, the user
    of that row is not in the mapping, and the migration ended with
    [user not found] for that user. *)
Theorem MigrateDocuments_rows
    (Row : Type) (pools : migration.Pools Row) (userMapping : gmap string string)
    (tr : list migration.exec) (r : result unit) (evs : list migration.exec)
    (rows : list Row) :
  migration.MigrateDocuments Row pools userMapping tr = (r, evs) ->
  migration.from_Query Row pools migration.select_documents = Ok rows ->
  Forall2 (writes_document Row pools userMapping) (take (length evs) rows) evs
  /\ (Forall (fun ev => exec_err ev = None) evs ->
      forall row id userId filename path collId,
        rows !! length evs = Some row ->
        migration.Scan_document Row pools row = Ok (id, userId, filename, path, collId) ->
        userMapping !! userId = None
        /\ r = Err ("user not found: " ++ userId)%string).
Proof. apply MigrateDocuments_spec. Qed.

Lemma MigrateDocuments_rows_witness :
  fst (migration.MigrateDocuments (string * string) Stub.pools ∅ [])
  = Err "user not found: old-user".
Proof.
  destruct (MigrateDocuments_rows (string * string) Stub.pools ∅ []
              (fst (migration.MigrateDocuments (string * string) Stub.pools ∅ []))
              (snd (migration.MigrateDocuments (string * string) Stub.pools ∅ []))
              Stub.document_rows (surjective_pairing _) eq_refl) as [_ Hnext].
  refine (proj2 (Hnext _ ("doc-1", "old-user/a.pdf") "doc-1" "old-user" "file.pdf"
                   "old-user/a.pdf" "collection-1" _ _)).
  - vm_compute. constructor.
  - vm_compute. reflexivity.
  - reflexivity.
Defined.

(** X26.  The rewriting of a path, [strings.Replace] with a count of
    one: a string without an occurrence of the old text is left as it
    is; otherwise the leftmost occurrence is replaced and what is
    before and after it is kept, later occurrences included.  So a path
    that begins with the old user begins with the new one. *)
Theorem Replace_first_leftmost_only (s old new : string) :
  ((forall pre post, s <> (pre ++ old ++ post)%string) ->
   migration.Replace_first s old new = s)
  /\ (forall pre post,
         s = (pre ++ old ++ post)%string ->
         (forall pre' post', s = (pre' ++ old ++ post')%string ->
                             (String.length pre <= String.length pre')%nat) ->
         migration.Replace_first s old new = (pre ++ new ++ post)%string)
  /\ (forall rest,
         s = (old ++ rest)%string ->
         migration.Replace_first s old new = (new ++ rest)%string).
Proof.
  split; [apply Replace_first_absent|]. split.
  - intros pre post Hs Hmin. now apply Replace_first_leftmost.
  - intros rest ->. apply Replace_first_prefix.
Qed.

Lemma Replace_first_leftmost_only_witness :
  migration.Replace_first "old-user/old-user.pdf" "old-user" "new-user"
  = "new-user/old-user.pdf".
Proof.
  exact (proj2 (proj2 (Replace_first_leftmost_only "old-user/old-user.pdf"
                         "old-user" "new-user"))
           "/old-user.pdf" eq_refl).
Defined.
